(** * Attendance-Tracker: the analytics engine [useAnalytics]

    A shallow embedding of [src/hooks/useAnalytics.js] and the properties of
    its result.

    Conventions of the embedding.

    - JavaScript numbers that the engine only ever adds, counts and compares
      (minutes, counters, epoch milliseconds) are integers and are modelled
      in [Z]; double arithmetic on them is exact while they stay below 2^53
      in magnitude.
    - Every value that goes through a division is an IEEE-754 binary64
      number and is modelled by Rocq's primitive [float], whose operations
      are the ones JavaScript specifies.
    - [new Date()] is the instant [now] of the invocation (milliseconds since
      the epoch); the host's local time zone [tz] gives the offset of local
      time from UTC at every instant and at every local time value.
    - A timestamp string ([punch_in], [punch_out]) is represented by the
      instant it denotes; a [date] stays a string, since the engine uses it
      as an object key and sorts it as text. *)

From Stdlib Require Import ZArith List Bool Lia.
From Stdlib Require Import Ascii String DecimalString.
From Stdlib Require Import Sorting.Mergesort Sorting.Sorted Sorting.Permutation.
From Stdlib Require Import Orders.
From Stdlib Require Import Floats.
From Stdlib Require Uint63.
Import ListNotations.

Local Open Scope Z_scope.

(** ** The host's calendar ([Date] of ECMAScript) *)

Module Calendar.

Definition msPerMinute : Z := 60000.
Definition msPerHour : Z := 3600000.
Definition msPerDay : Z := 86400000.

(** [Day(t)]: the number of the UTC day that holds the instant [t]. *)
Definition Day (t : Z) : Z := t / msPerDay.

(** Year, month (1..12) and day of the month of an epoch day, in the
    proleptic Gregorian calendar. *)
Definition civil_from_days (d : Z) : Z * Z * Z :=
  let z := d + 719468 in
  let era := z / 146097 in
  let doe := z - era * 146097 in
  let yoe := (doe - doe / 1460 + doe / 36524 - doe / 146096) / 365 in
  let y := yoe + era * 400 in
  let doy := doe - (365 * yoe + yoe / 4 - yoe / 100) in
  let mp := (5 * doy + 2) / 153 in
  let dd := doy - (153 * mp + 2) / 5 + 1 in
  let mm := if mp <? 10 then mp + 3 else mp - 9 in
  ((if mm <=? 2 then y + 1 else y), mm, dd).

Definition days_from_civil (y m d : Z) : Z :=
  let y' := if m <=? 2 then y - 1 else y in
  let era := y' / 400 in
  let yoe := y' - era * 400 in
  let mp := if 2 <? m then m - 3 else m + 9 in
  let doy := (153 * mp + 2) / 5 + d - 1 in
  let doe := yoe * 365 + yoe / 4 - yoe / 100 + doy in
  era * 146097 + doe - 719468.

Definition isLeap (y : Z) : bool :=
  ((y mod 4 =? 0) && negb (y mod 100 =? 0)) || (y mod 400 =? 0).

Definition daysInMonth (y m : Z) : Z :=
  if m =? 2 then (if isLeap y then 29 else 28)
  else if (m =? 4) || (m =? 6) || (m =? 9) || (m =? 11) then 30
  else 31.

(** *** Decimal text *)

Definition digitChar (n : Z) : ascii := ascii_of_N (Z.to_N (48 + n mod 10)).

(** The last [k] decimal digits of [n], most significant first. *)
Fixpoint digits (k : nat) (n : Z) : string :=
  match k with
  | O => EmptyString
  | S k' => (digits k' (n / 10) ++ String (digitChar n) EmptyString)%string
  end.

(** [String(n)] for an integer [n]. *)
Definition decimal (n : Z) : string := NilZero.string_of_int (Z.to_int n).

(** [s.padStart(2, '0')] for the decimal text of a non-negative integer. *)
Definition pad2 (n : Z) : string :=
  if n <? 10 then ("0" ++ decimal n)%string else decimal n.

(** [toISOString().split('T')[0]] of an instant on epoch day [d]: four
    digits for the years 0..9999, a sign and six digits otherwise. *)
Definition isoDate (d : Z) : string :=
  let '(y, m, dd) := civil_from_days d in
  let ys := if (0 <=? y) && (y <=? 9999) then digits 4 y
            else if y <? 0 then ("-" ++ digits 6 (- y))%string
            else ("+" ++ digits 6 y)%string in
  (ys ++ "-" ++ digits 2 m ++ "-" ++ digits 2 dd)%string.

(** *** Reading a [YYYY-MM-DD] key back *)

Definition digitVal (c : ascii) : option Z :=
  let n := Z.of_N (N_of_ascii c) in
  if (48 <=? n) && (n <=? 57) then Some (n - 48) else None.

Fixpoint readDigits (acc : Z) (cs : list ascii) : option Z :=
  match cs with
  | [] => Some acc
  | c :: cs' =>
      match digitVal c with
      | Some v => readDigits (10 * acc + v) cs'
      | None => None
      end
  end.

(** [new Date(s)] for a date-only string: the epoch day of a well-formed
    [YYYY-MM-DD] calendar date ([s] then denotes UTC midnight of that day),
    [None] for any other text, for which the host gives an invalid date or
    a host-defined reading. *)
Definition parseDate (s : string) : option Z :=
  match list_ascii_of_string s with
  | [y1; y2; y3; y4; d1; m1; m2; d2; a1; a2] =>
      if (Ascii.eqb d1 "-") && (Ascii.eqb d2 "-") then
        match readDigits 0 [y1; y2; y3; y4],
              readDigits 0 [m1; m2],
              readDigits 0 [a1; a2] with
        | Some y, Some m, Some d =>
            if (1 <=? m) && (m <=? 12) && (1 <=? d) && (d <=? daysInMonth y m)
            then Some (days_from_civil y m d)
            else None
        | _, _, _ => None
        end
      else None
  | _ => None
  end.

End Calendar.


(** ** JavaScript numbers that are not integers *)

Module JS.

Local Open Scope float_scope.

(** The double nearest to an integer (exact below 2^53 in magnitude). *)
Definition Z2F (n : Z) : float := SF2Prim (binary_normalize prec emax n 0 false).

Definition signedZero (s : bool) : float := if s then neg_zero else zero.

(** [Math.round]: the nearest integral double, a tie going up. *)
Definition Math_round (x : float) : float :=
  match Prim2SF x with
  | S754_finite s m e =>
      if (0 <=? e)%Z then x
      else
        let k := (- e)%Z in
        let v := if s then Zneg m else Zpos m in
        let n := ((2 * v + 2 ^ k) / 2 ^ (k + 1))%Z in
        if (n =? 0)%Z then signedZero s else Z2F n
  | _ => x
  end.

(** [Math.ceil]. *)
Definition Math_ceil (x : float) : float :=
  match Prim2SF x with
  | S754_finite s m e =>
      if (0 <=? e)%Z then x
      else
        let k := (- e)%Z in
        let v := if s then Zneg m else Zpos m in
        let n := (- ((- v) / 2 ^ k))%Z in
        if (n =? 0)%Z then signedZero s else Z2F n
  | _ => x
  end.

(** [Math.floor]. *)
Definition Math_floor (x : float) : float :=
  match Prim2SF x with
  | S754_finite s m e =>
      if (0 <=? e)%Z then x
      else
        let k := (- e)%Z in
        let v := if s then Zneg m else Zpos m in
        let n := (v / 2 ^ k)%Z in
        if (n =? 0)%Z then signedZero s else Z2F n
  | _ => x
  end.

(** [Math.min] of two numbers: NaN if either is, and -0 below +0. *)
Definition Math_min (x y : float) : float :=
  if is_nan x || is_nan y then nan
  else if x <? y then x
  else if y <? x then y
  else if get_sign x then x else y.

(** The integer an integral double stands for. *)
Definition toZ (x : float) : option Z :=
  match Prim2SF x with
  | S754_zero _ => Some 0%Z
  | S754_finite s m e =>
      if (0 <=? e)%Z then Some ((if s then Zneg m else Zpos m) * 2 ^ e)%Z
      else if (Zpos m mod 2 ^ (- e) =? 0)%Z
           then Some ((if s then Zneg m else Zpos m) / 2 ^ (- e))%Z
           else None
  | _ => None
  end.

(** [String(x)] for the doubles the engine prints: integral ones (their
    decimal text, as JavaScript writes integers below 10^21), infinities
    and NaN. *)
Definition toString (x : float) : string :=
  match Prim2SF x with
  | S754_nan => "NaN"
  | S754_infinity s => if s then "-Infinity" else "Infinity"
  | _ => match toZ x with Some n => Calendar.decimal n | None => "" end
  end.

(** [x.toFixed(1)] for a finite [x]: the integer [n] with [n / 10] nearest
    to [x] (the larger of two), written with one decimal. *)
Definition toFixed1 (x : float) : string :=
  match Prim2SF x with
  | S754_nan => "NaN"
  | S754_infinity s => if s then "-Infinity" else "Infinity"
  | S754_zero _ => "0.0"
  | S754_finite s m e =>
      let a := Zpos m in
      let n := if (0 <=? e)%Z then (10 * a * 2 ^ e)%Z
               else ((20 * a + 2 ^ (- e)) / 2 ^ (1 - e))%Z in
      ((if s && negb (n =? 0)%Z then "-" else "")
         ++ Calendar.decimal (n / 10) ++ "." ++ Calendar.decimal (n mod 10))%string
  end.

End JS.

(** ** Data *)

(** A row of the [sessions] table as the engine reads it: [punch_out] is
    absent while the session is open, and an absent [duration_minutes]
    counts as 0. *)
Record Session := {
  date : string;
  punch_in : option Z;
  punch_out : option Z;
  duration_minutes : option Z
}.

Inductive InsightType := warning | success | info.

Module Insight.
Record t := { type : InsightType; icon : string; text : string }.
End Insight.

Module Badge.
Record t := {
  id : string;
  name : string;
  icon : string;
  earned : bool;
  gold : option bool;
  progress : Z;
  target : Z
}.
End Badge.

Module Heat.
Record t := { date : string; minutes : Z; level : Z; dayOfWeek : Z }.
End Heat.

Module Hour.
Record t := { hour : Z; count : Z; level : float }.
End Hour.

Record Analytics := {
  insights : list Insight.t;
  badges : list Badge.t;
  streak : Z;
  weeklyScore : float;
  heatmapData : list Heat.t;
  avgStartTime : option string;
  avgEndTime : option string;
  bestDay : option string;
  worstDay : option string;
  productiveHours : list Hour.t;
  weekComparison : float
}.

(** The host's time zone, as ECMAScript's [LocalTZA(t, isUTC)]: the offset
    of local time from UTC in milliseconds, in effect at the instant [t]
    when [isUTC] is true, and at the local time value [t] otherwise (where a
    local time is skipped or repeated by a change of offset, the host
    decides, and so does the function). *)
Definition Zone : Type := Z -> bool -> Z.

(** A zone without changes of offset, [minutes] east of UTC: India is
    [fixedZone 330]. *)
Definition fixedZone (minutes : Z) : Zone := fun _ _ => minutes * Calendar.msPerMinute.

(** What the host contributes to one invocation: the clock reading and the
    time zone. *)
Record Env := { now : Z; tz : Zone }.

(** ** Local time of an instant *)

Section LocalTime.
Variable env : Env.
Import Calendar.

Definition LocalTime (t : Z) : Z := t + tz env t true.
(** The instant of a local time value. *)
Definition UTC (t : Z) : Z := t - tz env t false.
Definition getHours (t : Z) : Z := (LocalTime t / msPerHour) mod 24.
Definition getMinutes (t : Z) : Z := (LocalTime t / msPerMinute) mod 60.
(** The epoch day 0 was a Thursday; 0 is Sunday. *)
Definition getDay (t : Z) : Z := (LocalTime t / msPerDay + 4) mod 7.
(** [d.setDate(d.getDate() - i)]: the local time value of [d] is moved [i]
    days back, keeping the time within the day, and read as an instant
    again; across a change of offset the instant moves by more or less than
    [i] times 24 hours. *)
Definition minusDays (t i : Z) : Z := UTC (LocalTime t - i * msPerDay).

End LocalTime.

(** ** Day buckets *)

(** Objects used as maps are association lists in insertion order, which is
    the order [Object.entries] walks the [YYYY-MM-DD] keys in. *)
Fixpoint lookup {A} (k : string) (m : list (string * A)) : option A :=
  match m with
  | [] => None
  | (k', v) :: m' => if String.eqb k' k then Some v else lookup k m'
  end.

Fixpoint pushTo (k : string) (s : Session) (m : list (string * list Session))
  : list (string * list Session) :=
  match m with
  | [] => [(k, [s])]
  | (k', v) :: m' =>
      if String.eqb k' k then (k', v ++ [s]) :: m' else (k', v) :: pushTo k s m'
  end.

Definition sessionsByDate (sessions : list Session) : list (string * list Session) :=
  fold_left (fun m s => pushTo (date s) s m) sessions [].

Definition orZero (d : option Z) : Z := match d with Some n => n | None => 0 end.

Definition dayTotal (daySessions : list Session) : Z :=
  fold_left (fun sum s => sum + orZero (duration_minutes s)) daySessions 0.

Definition dailyTotals (sessions : list Session) : list (string * Z) :=
  map (fun e => (fst e, dayTotal (snd e))) (sessionsByDate sessions).

Definition sumZ (l : list Z) : Z := fold_left Z.add l 0.

(** ** Average start and end times *)

Definition minuteOfDay (env : Env) (t : Z) : Z := getHours env t * 60 + getMinutes env t.

Fixpoint timesOf (env : Env) (f : Session -> option Z) (sessions : list Session) : list Z :=
  match sessions with
  | [] => []
  | s :: rest =>
      match f s with
      | Some t => minuteOfDay env t :: timesOf env f rest
      | None => timesOf env f rest
      end
  end.

Definition avgMinutes (times : list Z) : option float :=
  if (0 <? List.length times)%nat
  then Some (JS.Math_round (JS.Z2F (sumZ times) / JS.Z2F (Z.of_nat (List.length times))))
  else None.

Definition padNum (x : float) : string :=
  match JS.toZ x with
  | Some n => Calendar.pad2 n
  | None => JS.toString x
  end.

(** [avg % 60] on an integral double. *)
Definition rem60 (x : float) : float :=
  match JS.toZ x with
  | Some n => if (Z.rem n 60 =? 0) then JS.signedZero (n <? 0) else JS.Z2F (Z.rem n 60)
  | None => nan
  end.

Definition formatHHMM (avg : option float) : option string :=
  match avg with
  | Some a => Some (padNum (JS.Math_floor (a / 60)) ++ ":" ++ padNum (rem60 a))%string
  | None => None
  end.

(** ** Best and worst weekday *)

Definition dayNames : list string :=
  ["Sunday"; "Monday"; "Tuesday"; "Wednesday"; "Thursday"; "Friday"; "Saturday"]%string.

Definition emptyWeek : list (list Z) := [[]; []; []; []; []; []; []].

Fixpoint pushAt (i : nat) (v : Z) (w : list (list Z)) : list (list Z) :=
  match w, i with
  | [], _ => []
  | l :: w', O => (l ++ [v]) :: w'
  | l :: w', S i' => l :: pushAt i' v w'
  end.

(** [new Date(date).getDay()] of a bucket key. *)
Definition weekdayOf (env : Env) (key : string) : option Z :=
  match Calendar.parseDate key with
  | Some d => Some (getDay env (d * Calendar.msPerDay))
  | None => None
  end.

(** The pass that files every day total under its weekday. A key that is
    not a date has no weekday, and pushing to the missing slot throws: the
    run ends there ([None]). *)
Fixpoint dayOfWeekTotals (env : Env) (totals : list (string * Z)) (w : list (list Z))
  : option (list (list Z)) :=
  match totals with
  | [] => Some w
  | (key, m) :: rest =>
      match weekdayOf env key with
      | Some dow => dayOfWeekTotals env rest (pushAt (Z.to_nat dow) m w)
      | None => None
      end
  end.

Record BestWorst := {
  best : option string;
  worst : option string;
  bestAvg : float;
  worstAvg : float
}.

Definition mean (totals : list Z) : float :=
  (JS.Z2F (sumZ totals) / JS.Z2F (Z.of_nat (List.length totals)))%float.

Definition bestWorstStep (st : BestWorst) (day : nat) (totals : list Z) : BestWorst :=
  if (0 <? List.length totals)%nat then
    let avg := mean totals in
    let st1 := if (bestAvg st <? avg)%float
               then {| best := Some (nth day dayNames ""%string); worst := worst st;
                       bestAvg := avg; worstAvg := worstAvg st |}
               else st in
    if (avg <? worstAvg st1)%float
    then {| best := best st1; worst := Some (nth day dayNames ""%string);
            bestAvg := bestAvg st1; worstAvg := avg |}
    else st1
  else st.

Fixpoint bestWorstLoop (st : BestWorst) (day : nat) (w : list (list Z)) : BestWorst :=
  match w with
  | [] => st
  | totals :: w' => bestWorstLoop (bestWorstStep st day totals) (S day) w'
  end.

Definition bestWorst (w : list (list Z)) : BestWorst :=
  bestWorstLoop {| best := None; worst := None; bestAvg := 0; worstAvg := infinity |} 0 w.

(** ** Streak *)

Module StringOrder <: TotalLeBool.
Definition t := string.
Definition leb := String.leb.
Theorem leb_total : forall a1 a2, leb a1 a2 = true \/ leb a2 a1 = true.
Proof. exact String.leb_total. Qed.
End StringOrder.

Module StringSort := Sort StringOrder.

(** [Object.keys(dailyTotals).sort().reverse()]. *)
Definition sortedDates (totals : list (string * Z)) : list string :=
  rev (StringSort.sort (map fst totals)).

Definition totalOf (totals : list (string * Z)) (key : string) : Z :=
  match lookup key totals with Some m => m | None => 0 end.

Fixpoint streakWalk (totals : list (string * Z)) (dates : list string) : Z :=
  match dates with
  | [] => 0
  | d :: rest =>
      match lookup d totals with
      | Some m => if 360 <=? m then 1 + streakWalk totals rest else 0
      | None => 0
      end
  end.

Definition streakOf (totals : list (string * Z)) : Z :=
  streakWalk totals (sortedDates totals).

(** ** Productive hours *)

Fixpoint bumpFrom (h : Z) (startH endH : Z) (slots : list Z) : list Z :=
  match slots with
  | [] => []
  | c :: rest =>
      (if (startH <=? h) && (h <=? endH) then c + 1 else c)
        :: bumpFrom (h + 1) startH endH rest
  end.

(** One session's loop [for (h = start; h <= end && h < 24; h++) hourlyWork[h] += 1]
    over the 24 slots. *)
Definition bumpHours (env : Env) (slots : list Z) (s : Session) : list Z :=
  match punch_in s, punch_out s with
  | Some i, Some o => bumpFrom 0 (getHours env i) (getHours env o) slots
  | _, _ => slots
  end.

Definition hourlyWork (env : Env) (sessions : list Session) : list Z :=
  fold_left (bumpHours env) sessions (repeat 0 24).

Definition maxOf (l : list Z) : Z := fold_left Z.max l 0.

Fixpoint hoursFrom (h : Z) (maxHourlyWork : Z) (slots : list Z) : list Hour.t :=
  match slots with
  | [] => []
  | c :: rest =>
      {| Hour.hour := h; Hour.count := c;
         Hour.level := if 0 <? maxHourlyWork
                       then JS.Math_ceil ((JS.Z2F c / JS.Z2F maxHourlyWork) * 4)%float
                       else 0%float |}
        :: hoursFrom (h + 1) maxHourlyWork rest
  end.

Definition productiveHoursOf (env : Env) (sessions : list Session) : list Hour.t :=
  let slots := hourlyWork env sessions in
  hoursFrom 0 (maxOf slots) slots.

(** ** Week over week *)

Definition thisWeekStart (env : Env) : Z := minusDays env (now env) (getDay env (now env)).
Definition lastWeekStart (env : Env) : Z := minusDays env (thisWeekStart env) 7.

(** The instant a bucket key denotes: UTC midnight of its date. *)
Definition keyTime (key : string) : option Z :=
  match Calendar.parseDate key with
  | Some d => Some (d * Calendar.msPerDay)
  | None => None
  end.

Definition weekStep (env : Env) (acc : Z * Z) (e : string * Z) : Z * Z :=
  match keyTime (fst e) with
  | Some d =>
      if thisWeekStart env <=? d then (fst acc + snd e, snd acc)
      else if (lastWeekStart env <=? d) && (d <? thisWeekStart env)
           then (fst acc, snd acc + snd e)
           else acc
  | None => acc
  end.

(** [(thisWeekMinutes, lastWeekMinutes)]. *)
Definition weekMinutes (env : Env) (totals : list (string * Z)) : Z * Z :=
  fold_left (weekStep env) totals (0, 0).

Definition weekComparisonOf (env : Env) (totals : list (string * Z)) : float :=
  let '(thisWeekMinutes, lastWeekMinutes) := weekMinutes env totals in
  if 0 <? lastWeekMinutes
  then JS.Math_round
         ((JS.Z2F (thisWeekMinutes - lastWeekMinutes) / JS.Z2F lastWeekMinutes) * 100)%float
  else 0%float.

(** ** Counters over sessions and days *)

Definition countIf {A} (p : A -> bool) (l : list A) : Z := Z.of_nat (List.length (filter p l)).

Definition isLate (env : Env) (s : Session) : bool :=
  match punch_in s with
  | Some t => 10 <=? getHours env t
  | None => false
  end.

Definition isEarly (env : Env) (s : Session) : bool :=
  match punch_in s with
  | Some t => getHours env t <? 9
  | None => false
  end.

Definition consistentDaysOf (totals : list (string * Z)) : Z :=
  countIf (fun m => 480 <=? m) (map snd totals).

Definition overtimeDaysOf (totals : list (string * Z)) : Z :=
  countIf (fun m => 600 <=? m) (map snd totals).

(** ** Insights *)

Definition insightsOf (env : Env) (sessions : list Session) (totals : list (string * Z))
    (wc : float) (streak : Z) : list Insight.t :=
  let lateArrivals := countIf (isLate env) sessions in
  let earlyLogouts := countIf (fun e => (snd e <? 480) && (0 <? snd e)) totals in
  let workingDays := Z.of_nat (List.length totals) in
  let avgDaily := (JS.Z2F (sumZ (map snd totals)) / JS.Z2F workingDays)%float in
  (if 3 <? lateArrivals
   then [{| Insight.type := warning; Insight.icon := "⏰";
            Insight.text := "Late arrivals detected: " ++ Calendar.decimal lateArrivals
                            ++ " times this month" |}]
   else [])
  ++ (if 3 <? earlyLogouts
      then [{| Insight.type := warning; Insight.icon := "🚪";
               Insight.text := "Early logouts: " ++ Calendar.decimal earlyLogouts
                               ++ " days with < 8 hours" |}]
      else [])
  ++ (if negb (wc =? 0)%float
      then [{| Insight.type := if (0 <? wc)%float then success else info;
               Insight.icon := if (0 <? wc)%float then "📈" else "📉";
               Insight.text := "You worked " ++ JS.toString (abs wc) ++ "% "
                               ++ (if (0 <? wc)%float then "more" else "less")
                               ++ " than last week" |}]
      else [])
  ++ (if (5 <=? workingDays) && (480 <=? avgDaily)%float
      then [{| Insight.type := success; Insight.icon := "✨";
               Insight.text := "Great consistency! Averaging "
                               ++ JS.toFixed1 (avgDaily / 60)%float ++ "h per day" |}]
      else [])
  ++ (if 3 <=? streak
      then [{| Insight.type := success; Insight.icon := "🔥";
               Insight.text := Calendar.decimal streak ++ " day streak! Keep it going!" |}]
      else []).

(** ** Badges *)

Definition badgesOf (env : Env) (sessions : list Session) (totals : list (string * Z))
    (streak : Z) : list Badge.t :=
  let earlyStarts := countIf (isEarly env) sessions in
  let consistentDays := consistentDaysOf totals in
  let overtimeDays := overtimeDaysOf totals in
  [ {| Badge.id := "early-bird"; Badge.name := "Early Bird"; Badge.icon := "🌅";
       Badge.earned := 5 <=? earlyStarts; Badge.gold := None;
       Badge.progress := Z.min earlyStarts 5; Badge.target := 5 |};
    {| Badge.id := "consistency"; Badge.name := "Consistency King"; Badge.icon := "👑";
       Badge.earned := 10 <=? consistentDays; Badge.gold := Some (10 <=? consistentDays);
       Badge.progress := Z.min consistentDays 10; Badge.target := 10 |};
    {| Badge.id := "overtime"; Badge.name := "Overtime Warrior"; Badge.icon := "⚔️";
       Badge.earned := 3 <=? overtimeDays; Badge.gold := None;
       Badge.progress := Z.min overtimeDays 3; Badge.target := 3 |};
    {| Badge.id := "streak"; Badge.name := "Streak Master"; Badge.icon := "🔥";
       Badge.earned := 7 <=? streak; Badge.gold := Some (7 <=? streak);
       Badge.progress := Z.min streak 7; Badge.target := 7 |} ].

(** ** Weekly score *)

Definition weeklyScoreOf (totals : list (string * Z)) (streak : Z) (targetHours : float)
  : float :=
  let totalMinutesThisMonth := sumZ (map snd totals) in
  let targetMinutes := (targetHours * 60)%float in
  let progressScore := JS.Math_min ((JS.Z2F totalMinutesThisMonth / targetMinutes) * 50)%float 50 in
  let consistencyScore := JS.Math_min ((JS.Z2F (consistentDaysOf totals) / 15) * 30)%float 30 in
  let streakScore := JS.Math_min ((JS.Z2F streak / 7) * 20)%float 20 in
  JS.Math_round (progressScore + consistencyScore + streakScore)%float.

(** ** Heatmap *)

Definition heatLevel (minutes : Z) : Z :=
  let level := 0 in
  let level := if 0 <? minutes then 1 else level in
  let level := if 240 <=? minutes then 2 else level in
  let level := if 480 <=? minutes then 3 else level in
  let level := if 600 <=? minutes then 4 else level in
  level.

Definition heatCell (env : Env) (totals : list (string * Z)) (i : Z) : Heat.t :=
  let t := minusDays env (now env) i in
  let dateStr := Calendar.isoDate (Calendar.Day t) in
  let minutes := totalOf totals dateStr in
  {| Heat.date := dateStr; Heat.minutes := minutes;
     Heat.level := heatLevel minutes; Heat.dayOfWeek := getDay env t |}.

(** [for (let i = 27; i >= 0; i--)], as a count-down from [n - 1]. *)
Fixpoint heatLoop (env : Env) (totals : list (string * Z)) (n : nat) : list Heat.t :=
  match n with
  | O => []
  | S n' => heatCell env totals (Z.of_nat n') :: heatLoop env totals n'
  end.

Definition heatmapOf (env : Env) (totals : list (string * Z)) : list Heat.t :=
  heatLoop env totals 28.

(** ** The engine *)

Definition emptyAnalytics : Analytics :=
  {| insights := []; badges := []; streak := 0; weeklyScore := 0;
     heatmapData := []; avgStartTime := None; avgEndTime := None;
     bestDay := None; worstDay := None; productiveHours := [];
     weekComparison := 0 |}.

(** [useAnalytics(sessions, allSessions, targetHours)] at the clock reading
    and zone of [env]; [None] when the run throws. *)
Definition useAnalytics (env : Env) (sessions allSessions : list Session)
    (targetHours : float) : option Analytics :=
  match sessions with
  | [] => Some emptyAnalytics
  | _ :: _ =>
      let totals := dailyTotals sessions in
      let avgStart := formatHHMM (avgMinutes (timesOf env punch_in sessions)) in
      let avgEnd := formatHHMM (avgMinutes (timesOf env punch_out sessions)) in
      match dayOfWeekTotals env totals emptyWeek with
      | None => None
      | Some week =>
          let bw := bestWorst week in
          let streak := streakOf totals in
          let wc := weekComparisonOf env totals in
          Some {| insights := insightsOf env sessions totals wc streak;
                  badges := badgesOf env sessions totals streak;
                  streak := streak;
                  weeklyScore := weeklyScoreOf totals streak targetHours;
                  heatmapData := heatmapOf env totals;
                  avgStartTime := avgStart;
                  avgEndTime := avgEnd;
                  bestDay := best bw;
                  worstDay := worst bw;
                  productiveHours := productiveHoursOf env sessions;
                  weekComparison := wc |}
      end
  end.

(** The inputs on which the run completes: every [date] is a calendar date. *)
Definition wellFormed (sessions : list Session) : bool :=
  forallb (fun s => match Calendar.parseDate (date s) with Some _ => true | None => false end)
          sessions.

(** The minutes the sessions dated [key] add up to. *)
Definition minutesOn (key : string) (sessions : list Session) : Z :=
  sumZ (map (fun s => orZero (duration_minutes s))
            (filter (fun s => String.eqb (date s) key) sessions)).

(** * What is shown of the result, and the totals beside it *)

(** ** The insights widget *)

(** [InsightsWidget({ insights })] of [components/InsightsWidget.jsx]: what
    it renders is the list of its items, one per insight of
    [insights.slice(0, 4)], each with the class, the icon and the text it
    shows; [None] is the [null] returned for an empty list. *)
Module InsightItem.
Record t := { className : string; icon : string; text : string }.
End InsightItem.

Definition typeName (ty : InsightType) : string :=
  match ty with warning => "warning" | success => "success" | info => "info" end.

Definition insightItem (i : Insight.t) : InsightItem.t :=
  {| InsightItem.className := "insight-item " ++ typeName (Insight.type i);
     InsightItem.icon := Insight.icon i;
     InsightItem.text := Insight.text i |}.

Definition InsightsWidget (insights : list Insight.t) : option (list InsightItem.t) :=
  if (List.length insights =? 0)%nat then None
  else Some (map insightItem (firstn 4 insights)).

(** ** The achievements widget *)

(** [GamificationWidget({ streak, weeklyScore, badges })]: what it renders
    is the score text, the streak text and the list of badge items, the
    earned badges first and then the first two of the others
    ([inProgressBadges.slice(0, 2)]). *)
Module BadgeItem.
Record t := { className : string; title : string; icon : string; label : string }.
End BadgeItem.

Module Gamification.
Record t := { score : string; streakCount : string; items : list BadgeItem.t }.
End Gamification.






(** ** The cells of the heatmap widget *)

(** One cell of [HeatmapWidget]: its class and its title
    [`${cell.date}: ${Math.round(cell.minutes / 60)}h`]. *)
Module HeatItem.
Record t := { className : string; title : string }.
End HeatItem.

Definition heatItem (cell : Heat.t) : HeatItem.t :=
  {| HeatItem.className := "heatmap-cell level-" ++ Calendar.decimal (Heat.level cell);
     HeatItem.title := Heat.date cell ++ ": "
                       ++ JS.toString (JS.Math_round (JS.Z2F (Heat.minutes cell) / 60))
                       ++ "h" |}.

(** ** Totals of the session service and of the main component *)

(** [calculateDailyTotal(sessions, date)] and
    [calculateMonthlyTotal(sessions, monthYear)] of the session service. *)
Definition calculateDailyTotal (sessions : list Session) (day : string) : Z :=
  fold_left (fun total s => total + orZero (duration_minutes s))
            (filter (fun s => String.eqb (date s) day) sessions) 0.

Definition inMonth (monthYear : string) (d : string) : bool :=
  negb (String.eqb d "") && String.prefix monthYear d.

Definition calculateMonthlyTotal (sessions : list Session) (monthYear : string) : Z :=
  fold_left (fun total s => total + orZero (duration_minutes s))
            (filter (fun s => inMonth monthYear (date s)) sessions) 0.

(** [new Set(sessions.map(s => s.date)).size] of the main component. *)
Definition workingDays (sessions : list Session) : Z :=
  Z.of_nat (List.length (nodup string_dec (map date sessions))).

(** ** Durations and clocks of the time utilities *)

(** [x % d] for an integral double [x] and a positive integer [d]. *)
Definition remInt (x : float) (d : Z) : float :=
  match JS.toZ x with
  | Some n => if (Z.rem n d =? 0) then JS.signedZero (n <? 0) else JS.Z2F (Z.rem n d)
  | None => nan
  end.

(** [formatDuration(minutes)] of [utils/time.js], for the whole minutes its
    callers pass; [None] is [null] or [undefined]. *)
Definition formatDuration (minutes : option Z) : string :=
  match minutes with
  | None => "0h 0m"
  | Some m =>
      if m <? 0 then "0h 0m"
      else
        let hours := JS.Math_floor (JS.Z2F m / 60) in
        let mins := JS.Math_round (remInt (JS.Z2F m) 60) in
        JS.toString hours ++ "h " ++ JS.toString mins ++ "m"
  end.

(** [formatSecondsToHHMMSS(totalSeconds)], for whole seconds. *)
Definition formatSecondsToHHMMSS (totalSeconds : Z) : string :=
  let totalSeconds := if totalSeconds <? 0 then 0 else totalSeconds in
  let hours := JS.Math_floor (JS.Z2F totalSeconds / 3600) in
  let minutes := JS.Math_floor (remInt (JS.Z2F totalSeconds) 3600 / 60) in
  let seconds := remInt (JS.Z2F totalSeconds) 60 in
  padNum hours ++ ":" ++ padNum minutes ++ ":" ++ padNum seconds.


(** * Properties *)

(** ** Buckets *)

Lemma fold_left_add_shift (l : list Z) (a : Z) : fold_left Z.add l a = a + sumZ l.
Proof.
  unfold sumZ. revert a. induction l as [|x l IH]; intro a; simpl.
  - lia.
  - rewrite IH, (IH x). lia.
Qed.

Lemma sumZ_cons (x : Z) (l : list Z) : sumZ (x :: l) = x + sumZ l.
Proof. unfold sumZ at 1. simpl. apply fold_left_add_shift. Qed.

Lemma sumZ_app (l1 l2 : list Z) : sumZ (l1 ++ l2) = sumZ l1 + sumZ l2.
Proof.
  induction l1 as [|x l1 IH]; simpl.
  - reflexivity.
  - rewrite !sumZ_cons, IH. lia.
Qed.

Lemma dayTotal_sum (b : list Session) :
  dayTotal b = sumZ (map (fun s => orZero (duration_minutes s)) b).
Proof.
  unfold dayTotal.
  assert (H : forall a, fold_left (fun sum s => sum + orZero (duration_minutes s)) b a
                        = a + sumZ (map (fun s => orZero (duration_minutes s)) b)).
  { induction b as [|s b IH]; intro a; simpl.
    - unfold sumZ. simpl. lia.
    - rewrite IH, sumZ_cons. lia. }
  apply H.
Qed.

Lemma lookup_pushTo (key k : string) (s : Session) (m : list (string * list Session)) :
  lookup key (pushTo k s m)
  = if String.eqb k key
    then Some (match lookup k m with Some v => v ++ [s] | None => [s] end)
    else lookup key m.
Proof.
  induction m as [|[k' v] m IH]; simpl.
  - reflexivity.
  - destruct (String.eqb_spec k' k) as [->|Hk]; simpl.
    + destruct (String.eqb_spec k key); reflexivity.
    + destruct (String.eqb_spec k' key) as [->|Hk'].
      * destruct (String.eqb_spec k key); [congruence|reflexivity].
      * exact IH.
Qed.

Lemma sessionsByDate_snoc (l : list Session) (s : Session) :
  sessionsByDate (l ++ [s]) = pushTo (date s) s (sessionsByDate l).
Proof. unfold sessionsByDate. now rewrite fold_left_app. Qed.

(** A bucket holds the sessions of its date, in the order they came. *)
Lemma lookup_sessionsByDate (key : string) (sessions : list Session) :
  lookup key (sessionsByDate sessions)
  = match filter (fun s => String.eqb (date s) key) sessions with
    | [] => None
    | b => Some b
    end.
Proof.
  induction sessions as [|s l IH] using rev_ind.
  - reflexivity.
  - rewrite sessionsByDate_snoc, lookup_pushTo, filter_app. simpl.
    destruct (String.eqb_spec (date s) key) as [E|E].
    + rewrite <- E in IH. rewrite <- E, IH.
      destruct (filter (fun s0 => String.eqb (date s0) (date s)) l); reflexivity.
    + rewrite app_nil_r. exact IH.
Qed.

Lemma lookup_map_snd {A B} (f : A -> B) (key : string) (m : list (string * A)) :
  lookup key (map (fun e => (fst e, f (snd e))) m) = option_map f (lookup key m).
Proof.
  induction m as [|[k v] m IH]; simpl.
  - reflexivity.
  - destruct (String.eqb k key); [reflexivity | exact IH].
Qed.

(** [dailyTotals[key]]: the sum over the sessions of that date, and no entry
    for a date without session. *)
Lemma lookup_dailyTotals (key : string) (sessions : list Session) :
  lookup key (dailyTotals sessions)
  = if existsb (fun s => String.eqb (date s) key) sessions
    then Some (minutesOn key sessions)
    else None.
Proof.
  unfold dailyTotals, minutesOn.
  rewrite lookup_map_snd, lookup_sessionsByDate.
  destruct (existsb (fun s => String.eqb (date s) key) sessions) eqn:Ex.
  - destruct (filter (fun s => String.eqb (date s) key) sessions) as [|s b] eqn:F.
    + exfalso. apply existsb_exists in Ex. destruct Ex as [x [Hin Hx]].
      assert (In x (filter (fun s => String.eqb (date s) key) sessions))
        by (apply filter_In; auto).
      rewrite F in H. exact H.
    + simpl. now rewrite dayTotal_sum.
  - destruct (filter (fun s => String.eqb (date s) key) sessions) as [|s b] eqn:F.
    + reflexivity.
    + exfalso.
      assert (Hin : In s (filter (fun s => String.eqb (date s) key) sessions))
        by (rewrite F; now left).
      apply filter_In in Hin. destruct Hin as [Hin Hs].
      assert (existsb (fun s => String.eqb (date s) key) sessions = true)
        by (apply existsb_exists; eauto).
      congruence.
Qed.

Lemma totalOf_dailyTotals (key : string) (sessions : list Session) :
  totalOf (dailyTotals sessions) key = minutesOn key sessions.
Proof.
  unfold totalOf. rewrite lookup_dailyTotals.
  destruct (existsb _ sessions) eqn:Ex; [reflexivity|].
  unfold minutesOn.
  replace (filter (fun s => String.eqb (date s) key) sessions) with (@nil Session).
  - reflexivity.
  - symmetry. induction sessions as [|s l IH]; [reflexivity|].
    simpl in *. apply orb_false_iff in Ex. destruct Ex as [E1 E2].
    rewrite E1. auto.
Qed.

Lemma keys_pushTo (k : string) (s : Session) (m : list (string * list Session)) :
  map fst (pushTo k s m)
  = if existsb (String.eqb k) (map fst m) then map fst m else map fst m ++ [k].
Proof.
  induction m as [|[k' v] m IH]; simpl.
  - reflexivity.
  - rewrite (String.eqb_sym k k').
    destruct (String.eqb k' k); simpl; [reflexivity|].
    rewrite IH. destruct (existsb (String.eqb k) (map fst m)); reflexivity.
Qed.

Lemma keys_dailyTotals (sessions : list Session) :
  map fst (dailyTotals sessions) = map fst (sessionsByDate sessions).
Proof. unfold dailyTotals. rewrite map_map. reflexivity. Qed.

Lemma In_keys_sessionsByDate (key : string) (sessions : list Session) :
  In key (map fst (sessionsByDate sessions)) <-> exists s, In s sessions /\ date s = key.
Proof.
  induction sessions as [|s l IH] using rev_ind.
  - simpl. split; [tauto | intros [x [[] _]]].
  - rewrite sessionsByDate_snoc, keys_pushTo.
    destruct (existsb (String.eqb (date s)) (map fst (sessionsByDate l))) eqn:Ex.
    + rewrite IH. split.
      * intros [x [Hx Hd]]. exists x. split; [apply in_or_app; now left | exact Hd].
      * intros [x [Hx Hd]]. apply in_app_or in Hx. destruct Hx as [Hx|[<-|[]]].
        -- eauto.
        -- apply IH. apply existsb_exists in Ex. destruct Ex as [k [Hk Ek]].
           apply String.eqb_eq in Ek. subst. exact Hk.
    + rewrite in_app_iff, IH. simpl. split.
      * intros [[x [Hx Hd]]|[<-|[]]].
        -- exists x. split; [apply in_or_app; now left | exact Hd].
        -- exists s. split; [apply in_or_app; right; now left | reflexivity].
      * intros [x [Hx Hd]]. apply in_app_or in Hx. destruct Hx as [Hx|[<-|[]]].
        -- left. eauto.
        -- right. now left.
Qed.

Lemma NoDup_keys_sessionsByDate (sessions : list Session) :
  NoDup (map fst (sessionsByDate sessions)).
Proof.
  induction sessions as [|s l IH] using rev_ind.
  - constructor.
  - rewrite sessionsByDate_snoc, keys_pushTo.
    destruct (existsb (String.eqb (date s)) (map fst (sessionsByDate l))) eqn:Ex.
    + exact IH.
    + apply NoDup_app_remove_l with (l := @nil string). simpl.
      apply Permutation_NoDup with (l := date s :: map fst (sessionsByDate l)).
      * apply Permutation_cons_append.
      * constructor; [|exact IH].
        intro Hin.
        assert (existsb (String.eqb (date s)) (map fst (sessionsByDate l)) = true).
        { apply existsb_exists. exists (date s). split; [exact Hin | apply String.eqb_refl]. }
        congruence.
Qed.

(** ** The run completes on calendar dates *)

Lemma getDay_range (env : Env) (t : Z) : 0 <= getDay env t < 7.
Proof. unfold getDay. apply Z.mod_pos_bound. lia. Qed.

Lemma pushAt_length (i : nat) (v : Z) (w : list (list Z)) :
  List.length (pushAt i v w) = List.length w.
Proof.
  revert i. induction w as [|l w IH]; intros [|i]; simpl; auto.
Qed.

Lemma pushAt_nth (i j : nat) (v : Z) (w : list (list Z)) :
  (i < List.length w)%nat ->
  nth j (pushAt i v w) [] = if (j =? i)%nat then nth j w [] ++ [v] else nth j w [].
Proof.
  revert i j. induction w as [|l w IH]; intros i j Hi; simpl in Hi; [lia|].
  destruct i as [|i], j as [|j]; simpl; try reflexivity.
  apply IH. lia.
Qed.

(** Whether the bucket [e] falls on weekday [i]. *)
Definition onWeekday (env : Env) (i : nat) (e : string * Z) : bool :=
  match weekdayOf env (fst e) with
  | Some d => (Z.to_nat d =? i)%nat
  | None => false
  end.

Lemma weekdayOf_range (env : Env) (key : string) (d : Z) :
  weekdayOf env key = Some d -> 0 <= d < 7.
Proof.
  unfold weekdayOf. destruct (Calendar.parseDate key); [|discriminate].
  intros [= <-]. apply getDay_range.
Qed.

Lemma dayOfWeekTotals_spec (env : Env) (totals : list (string * Z)) :
  forall w w', List.length w = 7%nat ->
    dayOfWeekTotals env totals w = Some w' ->
    List.length w' = 7%nat /\
    forall i, nth i w' [] = nth i w [] ++ map snd (filter (onWeekday env i) totals).
Proof.
  induction totals as [|[key m] rest IH]; intros w w' Hw Hrun; simpl in Hrun.
  - injection Hrun as <-. split; [exact Hw|]. intro i. simpl. now rewrite app_nil_r.
  - destruct (weekdayOf env key) as [dow|] eqn:Hd; [|discriminate].
    pose proof (weekdayOf_range _ _ _ Hd) as Hr.
    apply IH in Hrun; [|now rewrite pushAt_length].
    destruct Hrun as [Hlen Hnth]. split; [exact Hlen|].
    intro i. rewrite Hnth, pushAt_nth by (rewrite Hw; lia).
    simpl. unfold onWeekday at 2. simpl. rewrite Hd.
    rewrite (Nat.eqb_sym (Z.to_nat dow) i).
    destruct (i =? Z.to_nat dow)%nat; simpl; [now rewrite <- app_assoc | reflexivity].
Qed.

Lemma dayOfWeekTotals_some (env : Env) (totals : list (string * Z)) :
  (forall key, In key (map fst totals) -> Calendar.parseDate key <> None) ->
  forall w, exists w', dayOfWeekTotals env totals w = Some w'.
Proof.
  induction totals as [|[key m] rest IH]; intros Hk w; simpl.
  - eauto.
  - unfold weekdayOf.
    destruct (Calendar.parseDate key) as [d|] eqn:Hp.
    + apply IH. intros k Hin. apply Hk. now right.
    + exfalso. apply (Hk key); [now left | exact Hp].
Qed.

Lemma wellFormed_keys (sessions : list Session) :
  wellFormed sessions = true ->
  forall key, In key (map fst (dailyTotals sessions)) -> Calendar.parseDate key <> None.
Proof.
  intros Hwf key Hin. rewrite keys_dailyTotals in Hin.
  apply In_keys_sessionsByDate in Hin. destruct Hin as [s [Hs <-]].
  unfold wellFormed in Hwf. rewrite forallb_forall in Hwf.
  specialize (Hwf s Hs). destruct (Calendar.parseDate (date s)); [discriminate | congruence].
Qed.

(** The result of a run over a non-empty list of well-formed sessions. *)
Lemma useAnalytics_run (env : Env) (sessions allSessions : list Session) (targetHours : float) :
  sessions <> [] -> wellFormed sessions = true ->
  exists week,
    dayOfWeekTotals env (dailyTotals sessions) emptyWeek = Some week /\
    useAnalytics env sessions allSessions targetHours
    = Some {| insights := insightsOf env sessions (dailyTotals sessions)
                            (weekComparisonOf env (dailyTotals sessions))
                            (streakOf (dailyTotals sessions));
              badges := badgesOf env sessions (dailyTotals sessions)
                          (streakOf (dailyTotals sessions));
              streak := streakOf (dailyTotals sessions);
              weeklyScore := weeklyScoreOf (dailyTotals sessions)
                               (streakOf (dailyTotals sessions)) targetHours;
              heatmapData := heatmapOf env (dailyTotals sessions);
              avgStartTime := formatHHMM (avgMinutes (timesOf env punch_in sessions));
              avgEndTime := formatHHMM (avgMinutes (timesOf env punch_out sessions));
              bestDay := best (bestWorst week);
              worstDay := worst (bestWorst week);
              productiveHours := productiveHoursOf env sessions;
              weekComparison := weekComparisonOf env (dailyTotals sessions) |}.
Proof.
  intros Hne Hwf.
  destruct (dayOfWeekTotals_some env (dailyTotals sessions) (wellFormed_keys _ Hwf) emptyWeek)
    as [week Hweek].
  exists week. split; [exact Hweek|].
  destruct sessions as [|s rest]; [congruence|].
  unfold useAnalytics. rewrite Hweek. reflexivity.
Qed.

(** The weekday of epoch day [d], 0 for Sunday (day 0 was a Thursday). *)
Definition weekdayOfDay (d : Z) : Z := (d + 4) mod 7.

(** Sample sessions and hosts used to run the engine. *)
Definition session (d : string) (i o m : Z) : Session :=
  {| date := d; punch_in := Some i; punch_out := Some o; duration_minutes := Some m |}.

(** Wednesday 10 January 2024, 12:00 in India (06:30 UTC). *)
Definition wednesdayNoon : Env := {| now := 1704868200000; tz := fixedZone 330 |}.
(** The next day at the same time. *)
Definition thursdayNoon : Env := {| now := 1704954600000; tz := fixedZone 330 |}.
(** At 00:30 on Thursday 11 January 2024 in India it is still Wednesday in
    UTC. *)
Definition thursdayAfterMidnight : Env := {| now := 1704913200000; tz := fixedZone 330 |}.
(** Wednesday 10 January 2024, 12:00 in New York (17:00 UTC). *)
Definition wednesdayInNewYork : Env := {| now := 1704906000000; tz := fixedZone (- 300) |}.

(** ** Empty input *)

(** C4. With an empty sessions list the engine returns, without throwing, a
    result whose streak, weeklyScore and weekComparison are 0, whose
    avgStartTime, avgEndTime, bestDay and worstDay are absent and whose
    insights, badges, heatmapData and productiveHours are empty. *)
Theorem empty_input_defaults (env : Env) (allSessions : list Session) (targetHours : float) :
  exists r, useAnalytics env [] allSessions targetHours = Some r /\
    streak r = 0 /\ weeklyScore r = 0%float /\ weekComparison r = 0%float /\
    avgStartTime r = None /\ avgEndTime r = None /\
    bestDay r = None /\ worstDay r = None /\
    insights r = [] /\ badges r = [] /\ heatmapData r = [] /\ productiveHours r = [].
Proof.
  exists emptyAnalytics. simpl. repeat split; reflexivity.
Qed.

(** ** The second parameter *)

(** C10. The result does not depend on [allSessions]: with the sessions,
    the target and the host fixed, any two values of it give the same
    outcome. *)
Theorem allSessions_ignored (env : Env) (sessions a1 a2 : list Session) (targetHours : float) :
  useAnalytics env sessions a1 targetHours = useAnalytics env sessions a2 targetHours.
Proof.
  destruct sessions; reflexivity.
Qed.

(** ** Heatmap *)

(** The level the specification assigns to a day's minutes: the highest of
    the thresholds 0 < m, 240 <= m, 480 <= m, 600 <= m that is met. *)
Definition highestThreshold (m : Z) : Z :=
  if 600 <=? m then 4
  else if 480 <=? m then 3
  else if 240 <=? m then 2
  else if 0 <? m then 1
  else 0.

Lemma heatLevel_highest (m : Z) : heatLevel m = highestThreshold m.
Proof.
  unfold heatLevel, highestThreshold.
  destruct (Z.leb_spec 600 m), (Z.leb_spec 480 m), (Z.leb_spec 240 m), (Z.ltb_spec 0 m);
    try reflexivity; lia.
Qed.

(** Where the offset read for the local time [i] days before [t] is the one
    in effect at [t], [setDate] moves the instant by [i] times 24 hours. *)
Lemma minusDays_steady (env : Env) (t i : Z) :
  tz env (LocalTime env t - i * Calendar.msPerDay) false = tz env t true ->
  minusDays env t i = t - i * Calendar.msPerDay.
Proof.
  unfold minusDays, UTC. intros ->. unfold LocalTime. lia.
Qed.

Lemma minusDays_fixed (env : Env) (z t i : Z) :
  tz env = fixedZone z -> minusDays env t i = t - i * Calendar.msPerDay.
Proof.
  intro Hz. apply minusDays_steady. rewrite Hz. reflexivity.
Qed.

Lemma LocalTime_fixed (env : Env) (z t : Z) :
  tz env = fixedZone z -> LocalTime env t = t + z * Calendar.msPerMinute.
Proof. intro Hz. unfold LocalTime. rewrite Hz. reflexivity. Qed.

Lemma Day_minus (t i : Z) :
  Calendar.Day (t - i * Calendar.msPerDay) = Calendar.Day t - i.
Proof.
  unfold Calendar.Day.
  replace (t - i * Calendar.msPerDay) with (t + (- i) * Calendar.msPerDay) by lia.
  rewrite Z.div_add by (unfold Calendar.msPerDay; lia). lia.
Qed.

Lemma Day_minusDays (env : Env) (z t i : Z) :
  tz env = fixedZone z -> Calendar.Day (minusDays env t i) = Calendar.Day t - i.
Proof. intro Hz. rewrite (minusDays_fixed env z) by exact Hz. apply Day_minus. Qed.

Lemma heatLoop_length (env : Env) (totals : list (string * Z)) (n : nat) :
  List.length (heatLoop env totals n) = n.
Proof. induction n; simpl; auto. Qed.

Lemma heatLoop_nth (env : Env) (totals : list (string * Z)) (n k : nat) :
  (k < n)%nat ->
  nth_error (heatLoop env totals n) k = Some (heatCell env totals (Z.of_nat (n - 1 - k))).
Proof.
  revert k. induction n as [|n IH]; intros k Hk; [lia|].
  destruct k as [|k]; cbn [heatLoop nth_error].
  - do 3 f_equal. lia.
  - rewrite IH by lia. do 3 f_equal. lia.
Qed.

Lemma heatLoop_In (env : Env) (totals : list (string * Z)) (n : nat) (c : Heat.t) :
  In c (heatLoop env totals n) ->
  exists k, (k < n)%nat /\ c = heatCell env totals (Z.of_nat (n - 1 - k)).
Proof.
  intro Hc. apply In_nth_error in Hc. destruct Hc as [k Hk].
  assert (Hlt : (k < n)%nat).
  { rewrite <- (heatLoop_length env totals n). apply nth_error_Some. congruence. }
  rewrite heatLoop_nth in Hk by exact Hlt.
  exists k. split; [exact Hlt | congruence].
Qed.

(** The day of the invocation in India, whose date [getTodayDateIST] gives
    and [punchIn] files a new session under. *)
Definition todayIST (env : Env) : Z :=
  Calendar.Day (now env + 330 * Calendar.msPerMinute).

(** Over the 28 days of the heatmap the host keeps the offset from UTC it
    has at the invocation. *)
Definition steadyOffset (env : Env) : Prop :=
  forall i, 0 <= i < 28 ->
    tz env (LocalTime env (now env) - i * Calendar.msPerDay) false = tz env (now env) true.

(** C1, refuted as stated. On the empty input the early return leaves the
    heatmap empty. And at 00:30 on 11 January in India (19:00 UTC of the
    10th), with a session filed under the 11th, the last entry is dated the
    10th and no entry is dated the 11th. *)
Lemma heatmap_not_28_days_to_today :
  (exists r, useAnalytics wednesdayNoon [] [] 200 = Some r /\
             List.length (heatmapData r) <> 28%nat) /\
  Calendar.isoDate (todayIST thursdayAfterMidnight) = "2024-01-11"%string /\
  Calendar.isoDate (Calendar.Day (LocalTime thursdayAfterMidnight (now thursdayAfterMidnight)))
  = "2024-01-11"%string /\
  exists r,
    useAnalytics thursdayAfterMidnight
      [session "2024-01-11" 1704911700000 1704912900000 20] [] 200 = Some r /\
    option_map Heat.date (nth_error (heatmapData r) 27) = Some "2024-01-10"%string /\
    existsb (fun c => String.eqb (Heat.date c) "2024-01-11") (heatmapData r) = false.
Proof.
  split.
  - exists emptyAnalytics. split; [reflexivity | simpl; discriminate].
  - split; [vm_compute; reflexivity|]. split; [vm_compute; reflexivity|].
    eexists. split; [vm_compute; reflexivity|]. split; vm_compute; reflexivity.
Qed.

(** C1, amended. For every non-empty list of sessions dated by calendar
    dates, and every target, the heatmap has exactly 28 entries; the minutes
    of each entry are the total of the sessions of the entry's date (0 when
    there is none) and its level is the highest threshold these minutes
    meet.  Whenever the host's offset from UTC is steady over the 28 days
    and the invocation falls on the same calendar day in UTC as in India,
    entry [k] (from 0) is dated [27 - k] days before that day: the entries
    run over consecutive days, oldest first, and end on the date of the
    invocation. *)
Theorem heatmap_28_days (env : Env) (sessions allSessions : list Session) (targetHours : float) :
  sessions <> [] -> wellFormed sessions = true ->
  exists r, useAnalytics env sessions allSessions targetHours = Some r /\
    List.length (heatmapData r) = 28%nat /\
    (forall c, In c (heatmapData r) ->
       Heat.minutes c = minutesOn (Heat.date c) sessions /\
       Heat.level c = highestThreshold (Heat.minutes c)) /\
    (steadyOffset env -> Calendar.Day (now env) = todayIST env ->
     forall k, (k < 28)%nat ->
       exists c, nth_error (heatmapData r) k = Some c /\
         Heat.date c = Calendar.isoDate (todayIST env - 27 + Z.of_nat k)).
Proof.
  intros Hne Hwf.
  destruct (useAnalytics_run env sessions allSessions targetHours Hne Hwf) as [week [_ Hrun]].
  eexists. split; [exact Hrun|]. cbn [heatmapData]. unfold heatmapOf.
  split; [apply heatLoop_length|]. split.
  - intros c Hc. apply heatLoop_In in Hc. destruct Hc as [k [_ ->]].
    unfold heatCell; cbn [Heat.date Heat.minutes Heat.level].
    split; [apply totalOf_dailyTotals | apply heatLevel_highest].
  - intros Hsteady Hday k Hk. eexists. split; [apply heatLoop_nth; exact Hk|].
    unfold heatCell; cbn [Heat.date].
    rewrite minusDays_steady by (apply Hsteady; lia).
    rewrite Day_minus, Hday. f_equal. lia.
Qed.

Lemma heatmap_28_days_witness :
  exists r, useAnalytics wednesdayNoon [session "2024-01-07" 1704598200000 1704634200000 600]
                         [] 200 = Some r /\
    List.length (heatmapData r) = 28%nat /\
    (forall c, In c (heatmapData r) ->
       Heat.minutes c
       = minutesOn (Heat.date c) [session "2024-01-07" 1704598200000 1704634200000 600] /\
       Heat.level c = highestThreshold (Heat.minutes c)) /\
    (forall k, (k < 28)%nat ->
       exists c, nth_error (heatmapData r) k = Some c /\
         Heat.date c = Calendar.isoDate (todayIST wednesdayNoon - 27 + Z.of_nat k)).
Proof.
  destruct (heatmap_28_days wednesdayNoon
              [session "2024-01-07" 1704598200000 1704634200000 600] [] 200)
    as [r [Hrun [Hlen [Hcells Hdates]]]]; [discriminate | reflexivity |].
  exists r. split; [exact Hrun|]. split; [exact Hlen|]. split; [exact Hcells|].
  apply Hdates; [intros i _; reflexivity | reflexivity].
Defined.

(** On that Wednesday noon the last entry is the Wednesday's. *)
Example heatmap_ends_today :
  option_map (fun r => option_map Heat.date (nth_error (heatmapData r) 27))
             (useAnalytics wednesdayNoon
                [session "2024-01-07" 1704598200000 1704634200000 600] [] 200)
  = Some (Some "2024-01-10"%string).
Proof. vm_compute. reflexivity. Qed.

(** ** Badges *)

(** C5, on the empty input: the early return yields no badge. *)
Lemma badges_empty_input :
  exists r, useAnalytics wednesdayNoon [] [] 200 = Some r /\
            List.length (badges r) <> 4%nat.
Proof.
  exists emptyAnalytics. split; [reflexivity | simpl; discriminate].
Qed.

(** The number of sessions punched in before 9 o'clock, local time. *)
Definition earlyStartsOf (env : Env) (sessions : list Session) : Z :=
  Z.of_nat (List.length (filter (fun s => match punch_in s with
                                          | Some t => getHours env t <? 9
                                          | None => false
                                          end) sessions)).

(** The number of dates whose sessions add up to at least [bound] minutes. *)
Definition daysAtLeast (bound : Z) (sessions : list Session) : Z :=
  Z.of_nat (List.length (filter (fun key => bound <=? minutesOn key sessions)
                                (map fst (dailyTotals sessions)))).

Lemma snd_dailyTotals (sessions : list Session) :
  forall e, In e (dailyTotals sessions) -> snd e = minutesOn (fst e) sessions.
Proof.
  intros [key m] Hin. simpl.
  pose proof (totalOf_dailyTotals key sessions) as Ht.
  unfold totalOf in Ht.
  assert (Hl : lookup key (dailyTotals sessions) = Some m).
  { pose proof (NoDup_keys_sessionsByDate sessions) as Hnd.
    rewrite <- keys_dailyTotals in Hnd.
    revert Hin Hnd. generalize (dailyTotals sessions). intro l.
    induction l as [|[k v] l IH]; simpl; intros Hin Hnd; [contradiction|].
    inversion Hnd as [|? ? Hnotin Hnd']; subst.
    destruct Hin as [[= -> ->]|Hin].
    - now rewrite String.eqb_refl.
    - destruct (String.eqb_spec k key) as [->|_]; [|now apply IH].
      exfalso. apply Hnotin. change key with (fst (key, m)). now apply in_map. }
  rewrite Hl in Ht. exact Ht.
Qed.

Lemma length_filter_ext {A} (p q : A -> bool) (l : list A) :
  (forall x, In x l -> p x = q x) ->
  List.length (filter p l) = List.length (filter q l).
Proof.
  induction l as [|x l IH]; intro H; simpl; [reflexivity|].
  rewrite (H x) by now left.
  destruct (q x); simpl; rewrite IH; auto; intros; apply H; now right.
Qed.

Lemma count_days (bound : Z) (sessions : list Session) :
  countIf (fun m => bound <=? m) (map snd (dailyTotals sessions)) = daysAtLeast bound sessions.
Proof.
  unfold countIf, daysAtLeast. f_equal.
  pose proof (snd_dailyTotals sessions) as H.
  revert H. generalize (dailyTotals sessions). intro l.
  induction l as [|e l IH]; intro H; simpl; [reflexivity|].
  rewrite <- (H e) by now left.
  destruct (bound <=? snd e); simpl; rewrite IH; auto; intros; apply H; now right.
Qed.

(** C5, amended. For every non-empty list of sessions dated by calendar
    dates, the badges are exactly four records with the ids early-bird,
    consistency, overtime, streak in that order. Early Bird is earned iff at
    least 5 sessions were punched in before 9 local time (progress the count
    capped at 5, target 5); Consistency King is earned, and gold, iff at
    least 10 dates total 480 minutes or more (progress capped at 10, target
    10); Overtime Warrior is earned iff at least 3 dates total 600 minutes or
    more (progress capped at 3, target 3); Streak Master is earned, and
    gold, iff the streak is at least 7 (progress capped at 7, target 7). *)
Theorem four_badges (env : Env) (sessions allSessions : list Session) (targetHours : float) :
  sessions <> [] -> wellFormed sessions = true ->
  exists r b1 b2 b3 b4,
    useAnalytics env sessions allSessions targetHours = Some r /\
    badges r = [b1; b2; b3; b4] /\
    (Badge.id b1 = "early-bird"%string /\
     (Badge.earned b1 = true <-> 5 <= earlyStartsOf env sessions) /\
     Badge.progress b1 = Z.min (earlyStartsOf env sessions) 5 /\ Badge.target b1 = 5) /\
    (Badge.id b2 = "consistency"%string /\
     (Badge.earned b2 = true <-> 10 <= daysAtLeast 480 sessions) /\
     (Badge.gold b2 = Some true <-> 10 <= daysAtLeast 480 sessions) /\
     Badge.progress b2 = Z.min (daysAtLeast 480 sessions) 10 /\ Badge.target b2 = 10) /\
    (Badge.id b3 = "overtime"%string /\
     (Badge.earned b3 = true <-> 3 <= daysAtLeast 600 sessions) /\
     Badge.progress b3 = Z.min (daysAtLeast 600 sessions) 3 /\ Badge.target b3 = 3) /\
    (Badge.id b4 = "streak"%string /\
     (Badge.earned b4 = true <-> 7 <= streak r) /\
     (Badge.gold b4 = Some true <-> 7 <= streak r) /\
     Badge.progress b4 = Z.min (streak r) 7 /\ Badge.target b4 = 7).
Proof.
  intros Hne Hwf.
  destruct (useAnalytics_run env sessions allSessions targetHours Hne Hwf) as [week [_ Hrun]].
  do 5 eexists. split; [exact Hrun|]. cbn [badges streak]. unfold badgesOf.
  split; [reflexivity|].
  cbn [Badge.id Badge.earned Badge.gold Badge.progress Badge.target].
  unfold consistentDaysOf, overtimeDaysOf. rewrite !count_days.
  assert (Hg : forall b, Some b = Some true <-> b = true)
    by (intro b; split; [now intros [= ->] | now intros ->]).
  repeat split; try reflexivity; try apply Z.leb_le;
    try (intro H; apply Hg in H; now apply Z.leb_le);
    try (intro H; apply Hg; now apply Z.leb_le).
Qed.

Lemma four_badges_witness :
  exists r b1 b2 b3 b4,
    useAnalytics wednesdayNoon [session "2024-01-07" 1704598200000 1704634200000 600]
                 [] 200 = Some r /\
    badges r = [b1; b2; b3; b4] /\
    (Badge.id b1 = "early-bird"%string /\
     (Badge.earned b1 = true
      <-> 5 <= earlyStartsOf wednesdayNoon
                 [session "2024-01-07" 1704598200000 1704634200000 600]) /\
     Badge.progress b1
     = Z.min (earlyStartsOf wednesdayNoon
                [session "2024-01-07" 1704598200000 1704634200000 600]) 5 /\
     Badge.target b1 = 5) /\
    (Badge.id b2 = "consistency"%string /\
     (Badge.earned b2 = true
      <-> 10 <= daysAtLeast 480 [session "2024-01-07" 1704598200000 1704634200000 600]) /\
     (Badge.gold b2 = Some true
      <-> 10 <= daysAtLeast 480 [session "2024-01-07" 1704598200000 1704634200000 600]) /\
     Badge.progress b2
     = Z.min (daysAtLeast 480 [session "2024-01-07" 1704598200000 1704634200000 600]) 10 /\
     Badge.target b2 = 10) /\
    (Badge.id b3 = "overtime"%string /\
     (Badge.earned b3 = true
      <-> 3 <= daysAtLeast 600 [session "2024-01-07" 1704598200000 1704634200000 600]) /\
     Badge.progress b3
     = Z.min (daysAtLeast 600 [session "2024-01-07" 1704598200000 1704634200000 600]) 3 /\
     Badge.target b3 = 3) /\
    (Badge.id b4 = "streak"%string /\
     (Badge.earned b4 = true <-> 7 <= streak r) /\
     (Badge.gold b4 = Some true <-> 7 <= streak r) /\
     Badge.progress b4 = Z.min (streak r) 7 /\ Badge.target b4 = 7).
Proof.
  apply four_badges; [discriminate | reflexivity].
Defined.

(** ** Streak *)

Lemma ascii_compare_lt_trans (a b c : ascii) :
  Ascii.compare a b = Lt -> Ascii.compare b c = Lt -> Ascii.compare a c = Lt.
Proof.
  unfold Ascii.compare. rewrite !N.compare_lt_iff. lia.
Qed.

Lemma string_compare_refl (s : string) : String.compare s s = Eq.
Proof.
  induction s as [|a s IH]; simpl; [reflexivity|].
  unfold Ascii.compare. now rewrite N.compare_refl.
Qed.

Lemma string_compare_lt_trans (s1 s2 s3 : string) :
  String.compare s1 s2 = Lt -> String.compare s2 s3 = Lt -> String.compare s1 s3 = Lt.
Proof.
  revert s2 s3. induction s1 as [|a s1 IH]; intros [|b s2] [|c s3]; simpl;
    try discriminate; try reflexivity.
  destruct (Ascii.compare a b) eqn:Hab; try discriminate;
    destruct (Ascii.compare b c) eqn:Hbc; try discriminate; intros H1 H2.
  - apply Ascii.compare_eq_iff in Hab, Hbc. subst.
    unfold Ascii.compare. rewrite N.compare_refl. eauto.
  - apply Ascii.compare_eq_iff in Hab. subst. now rewrite Hbc.
  - apply Ascii.compare_eq_iff in Hbc. subst. now rewrite Hab.
  - now rewrite (ascii_compare_lt_trans _ _ _ Hab Hbc).
Qed.

Lemma string_leb_trans (s1 s2 s3 : string) :
  String.leb s1 s2 = true -> String.leb s2 s3 = true -> String.leb s1 s3 = true.
Proof.
  unfold String.leb.
  destruct (String.compare s1 s2) eqn:H12; try discriminate;
    destruct (String.compare s2 s3) eqn:H23; try discriminate; intros _ _.
  - apply String.compare_eq_iff in H12, H23. subst. now rewrite string_compare_refl.
  - apply String.compare_eq_iff in H12. subst. now rewrite H23.
  - apply String.compare_eq_iff in H23. subst. now rewrite H12.
  - now rewrite (string_compare_lt_trans _ _ _ H12 H23).
Qed.

(** [b] comes before [a] in the order of the text: [a] is the later date. *)
Definition later (a b : string) : Prop := String.ltb b a = true.

Lemma leb_neq_ltb (a b : string) : String.leb a b = true -> a <> b -> String.ltb a b = true.
Proof.
  unfold String.leb, String.ltb.
  destruct (String.compare a b) eqn:H; try discriminate; [|reflexivity].
  apply String.compare_eq_iff in H. congruence.
Qed.

Lemma StronglySorted_rev_later (l : list string) :
  StronglySorted (fun a b => is_true (String.leb a b)) l -> NoDup l ->
  StronglySorted later (rev l).
Proof.
  induction 1 as [|a l Hs IH Hall]; intro Hnd; simpl.
  - constructor.
  - inversion Hnd as [|? ? Hnotin Hnd']; subst.
    specialize (IH Hnd').
    assert (Hsnoc : forall l', StronglySorted later l' ->
                      Forall (fun x => later x a) l' -> StronglySorted later (l' ++ [a])).
    { induction 1 as [|x l' Hs' IH' Hall']; intro Hf; simpl.
      - repeat constructor.
      - inversion Hf; subst. constructor; [now apply IH'|].
        apply Forall_app. split; [exact Hall' | now repeat constructor]. }
    apply Hsnoc; [exact IH|].
    apply Forall_forall. intros x Hx. apply in_rev in Hx.
    rewrite Forall_forall in Hall. unfold later.
    apply leb_neq_ltb; [now apply Hall | congruence].
Qed.

(** The dates the walk visits: every bucket key once, latest first. *)
Lemma sortedDates_spec (sessions : list Session) :
  StronglySorted later (sortedDates (dailyTotals sessions)) /\
  NoDup (sortedDates (dailyTotals sessions)) /\
  forall key, In key (sortedDates (dailyTotals sessions))
              <-> exists s, In s sessions /\ date s = key.
Proof.
  unfold sortedDates.
  pose proof (StringSort.Permuted_sort (map fst (dailyTotals sessions))) as Hp.
  pose proof (NoDup_keys_sessionsByDate sessions) as Hnd.
  rewrite <- keys_dailyTotals in Hnd.
  assert (Hnd' : NoDup (StringSort.sort (map fst (dailyTotals sessions))))
    by (eapply Permutation_NoDup; eauto).
  split; [|split].
  - apply StronglySorted_rev_later; [|exact Hnd'].
    apply StringSort.StronglySorted_sort.
    intros a b c. apply string_leb_trans.
  - apply NoDup_rev. exact Hnd'.
  - intro key. rewrite <- in_rev.
    rewrite <- In_keys_sessionsByDate, <- keys_dailyTotals.
    split; intro H.
    + eapply Permutation_in; [apply Permutation_sym; exact Hp | exact H].
    + eapply Permutation_in; [exact Hp | exact H].
Qed.

(** The walk counts the longest run of dates, from the first, whose total is
    at least 360. *)
Lemma streakWalk_spec (totals : list (string * Z)) (dates : list string) :
  exists n, streakWalk totals dates = Z.of_nat n /\
    (n <= List.length dates)%nat /\
    Forall (fun d => 360 <= totalOf totals d) (firstn n dates) /\
    forall n', (n' <= List.length dates)%nat ->
      Forall (fun d => 360 <= totalOf totals d) (firstn n' dates) -> (n' <= n)%nat.
Proof.
  induction dates as [|d rest [n [Hn [Hle [Hall Hmax]]]]].
  - exists 0%nat. simpl. split; [reflexivity|]. split; [lia|]. split; [constructor|].
    intros n' Hn' _. lia.
  - cbn [streakWalk List.length]. unfold totalOf in *.
    destruct (lookup d totals) as [m|] eqn:Hl.
    + destruct (Z.leb_spec 360 m) as [Hm|Hm].
      * exists (S n). rewrite Hn. split; [lia|]. split; [lia|]. split.
        -- simpl. constructor; [now rewrite Hl | exact Hall].
        -- intros [|n'] Hn' Hf; [lia|]. simpl in Hf. inversion Hf; subst.
           apply le_n_S. apply Hmax; [lia | assumption].
      * exists 0%nat. split; [reflexivity|]. split; [lia|]. split; [constructor|].
        intros [|n'] Hn' Hf; [lia|]. simpl in Hf. inversion Hf as [|? ? Hd]; subst.
        rewrite Hl in Hd. lia.
    + exists 0%nat. split; [reflexivity|]. split; [lia|]. split; [constructor|].
      intros [|n'] Hn' Hf; [lia|]. simpl in Hf. inversion Hf as [|? ? Hd]; subst.
      rewrite Hl in Hd. lia.
Qed.

(** C2. For every list of sessions dated by calendar dates, the walk visits
    exactly the dates that have a session (a day without session is never
    visited), each once, in strictly descending order of the text, and the
    streak is the length of the longest prefix of that sequence in which
    every date totals at least 360 minutes. *)
Theorem streak_longest_prefix (env : Env) (sessions allSessions : list Session)
    (targetHours : float) :
  wellFormed sessions = true ->
  exists r visited n,
    useAnalytics env sessions allSessions targetHours = Some r /\
    visited = sortedDates (dailyTotals sessions) /\
    (forall key, In key visited <-> exists s, In s sessions /\ date s = key) /\
    NoDup visited /\
    StronglySorted later visited /\
    streak r = Z.of_nat n /\
    (n <= List.length visited)%nat /\
    Forall (fun d => 360 <= minutesOn d sessions) (firstn n visited) /\
    forall n', (n' <= List.length visited)%nat ->
      Forall (fun d => 360 <= minutesOn d sessions) (firstn n' visited) -> (n' <= n)%nat.
Proof.
  intro Hwf.
  destruct (sortedDates_spec sessions) as [Hsorted [Hnd Hin]].
  destruct (streakWalk_spec (dailyTotals sessions) (sortedDates (dailyTotals sessions)))
    as [n [Hn [Hle [Hall Hmax]]]].
  assert (Hext : forall l, Forall (fun d => 360 <= totalOf (dailyTotals sessions) d) l
                           <-> Forall (fun d => 360 <= minutesOn d sessions) l).
  { intro l. rewrite !Forall_forall.
    split; intros H x Hx; specialize (H x Hx); now rewrite totalOf_dailyTotals in *. }
  assert (Hs : exists r, useAnalytics env sessions allSessions targetHours = Some r /\
                         streak r = streakOf (dailyTotals sessions)).
  { destruct sessions as [|s rest] eqn:E.
    - exists emptyAnalytics. split; reflexivity.
    - rewrite <- E in *.
      destruct (useAnalytics_run env sessions allSessions targetHours) as [week [_ Hrun]];
        [subst; discriminate | exact Hwf |].
      eexists. split; [exact Hrun | reflexivity]. }
  destruct Hs as [r [Hrun Hstreak]].
  exists r, (sortedDates (dailyTotals sessions)), n.
  split; [exact Hrun|]. split; [reflexivity|]. split; [exact Hin|].
  split; [exact Hnd|]. split; [exact Hsorted|].
  split; [rewrite Hstreak; exact Hn|]. split; [exact Hle|].
  split; [now apply Hext|].
  intros n' Hn' Hf. apply Hmax; [exact Hn' | now apply Hext].
Qed.

Lemma streak_longest_prefix_witness :
  wellFormed [session "2024-01-07" 1704598200000 1704634200000 600;
              session "2024-01-03" 1704252600000 1704270600000 300] = true /\
  exists r visited n,
    useAnalytics wednesdayNoon
      [session "2024-01-07" 1704598200000 1704634200000 600;
       session "2024-01-03" 1704252600000 1704270600000 300] [] 200 = Some r /\
    visited = sortedDates (dailyTotals
      [session "2024-01-07" 1704598200000 1704634200000 600;
       session "2024-01-03" 1704252600000 1704270600000 300]) /\
    (forall key, In key visited <->
       exists s, In s [session "2024-01-07" 1704598200000 1704634200000 600;
                       session "2024-01-03" 1704252600000 1704270600000 300] /\
                 date s = key) /\
    NoDup visited /\
    StronglySorted later visited /\
    streak r = Z.of_nat n /\
    (n <= List.length visited)%nat /\
    Forall (fun d => 360 <= minutesOn d
      [session "2024-01-07" 1704598200000 1704634200000 600;
       session "2024-01-03" 1704252600000 1704270600000 300]) (firstn n visited) /\
    forall n', (n' <= List.length visited)%nat ->
      Forall (fun d => 360 <= minutesOn d
        [session "2024-01-07" 1704598200000 1704634200000 600;
         session "2024-01-03" 1704252600000 1704270600000 300]) (firstn n' visited) ->
      (n' <= n)%nat.
Proof.
  split; [reflexivity|].
  apply (streak_longest_prefix wednesdayNoon
           [session "2024-01-07" 1704598200000 1704634200000 600;
            session "2024-01-03" 1704252600000 1704270600000 300] [] 200).
  reflexivity.
Defined.

(** ** Week over week *)

(** C7, at a failing input. On Wednesday 10 January 2024 at noon in India,
    with 600 minutes dated Sunday 7 January and 300 minutes dated Wednesday
    3 January: the week starts on Sunday the 7th, but at the time of day of
    the invocation, so the bucket of that Sunday (UTC midnight) falls before
    it and is added to last week; the comparison is -100 where the two
    windows of the specification (600 this week, 300 last week) give 100. *)
Lemma sunday_bucket_counted_last_week :
  getDay wednesdayNoon (now wednesdayNoon) = 3 /\
  Calendar.isoDate (Calendar.Day (thisWeekStart wednesdayNoon)) = "2024-01-07"%string /\
  getDay wednesdayNoon (thisWeekStart wednesdayNoon) = 0 /\
  weekMinutes wednesdayNoon
    (dailyTotals [session "2024-01-07" 1704598200000 1704634200000 600;
                  session "2024-01-03" 1704252600000 1704270600000 300]) = (0, 900) /\
  exists r,
    useAnalytics wednesdayNoon
      [session "2024-01-07" 1704598200000 1704634200000 600;
       session "2024-01-03" 1704252600000 1704270600000 300] [] 200 = Some r /\
    weekComparison r = (-100)%float /\
    JS.Math_round ((JS.Z2F (600 - 300) / JS.Z2F 300) * 100)%float = 100%float.
Proof.
  repeat split; try reflexivity.
  eexists. split; [vm_compute; reflexivity|]. split; vm_compute; reflexivity.
Qed.

(** ** Dependence on the clock *)

(** C9, refuted as stated: the same sessions and target give different
    results on two consecutive days. *)
Lemma result_depends_on_clock :
  useAnalytics wednesdayNoon [session "2024-01-07" 1704598200000 1704634200000 600] [] 200
  <> useAnalytics thursdayNoon [session "2024-01-07" 1704598200000 1704634200000 600] [] 200.
Proof.
  intro H.
  apply (f_equal (option_map (fun r => map Heat.date (heatmapData r)))) in H.
  vm_compute in H. discriminate H.
Qed.

(** ** Best and worst weekday *)

(** C8, refuted as stated. A single open session (0 minutes) makes one day
    bucket, yet no weekday's mean exceeds the initial 0 and [bestDay] stays
    absent, while [worstDay] is set. And on a host west of UTC the bucket of
    Sunday 7 January 2024, ten hours, is filed under Saturday: the UTC
    midnight of a date falls on the day before there. *)
Lemma bestDay_absent_or_misfiled :
  (dailyTotals [{| date := "2024-01-07"; punch_in := Some 1704598200000;
                   punch_out := None; duration_minutes := Some 0 |}]
   = [("2024-01-07"%string, 0)] /\
   exists r,
     useAnalytics wednesdayNoon
       [{| date := "2024-01-07"; punch_in := Some 1704598200000;
           punch_out := None; duration_minutes := Some 0 |}] [] 200 = Some r /\
     bestDay r = None /\ worstDay r = Some "Sunday"%string) /\
  (option_map weekdayOfDay (Calendar.parseDate "2024-01-07") = Some 0 /\
   dailyTotals [session "2024-01-07" 1704632400000 1704668400000 600]
   = [("2024-01-07"%string, 600)] /\
   exists r,
     useAnalytics wednesdayInNewYork
       [session "2024-01-07" 1704632400000 1704668400000 600] [] 200 = Some r /\
     bestDay r = Some "Saturday"%string /\ worstDay r = Some "Saturday"%string).
Proof.
  split.
  - split; [reflexivity|].
    eexists. split; [vm_compute; reflexivity|]. split; reflexivity.
  - split; [vm_compute; reflexivity|]. split; [reflexivity|].
    eexists. split; [vm_compute; reflexivity|]. split; reflexivity.
Qed.

(** The passes that read the host only through its zone. *)
Section SameZone.
Variables env1 env2 : Env.
Hypothesis same_tz : tz env1 = tz env2.

Lemma getHours_zone (t : Z) : getHours env1 t = getHours env2 t.
Proof. unfold getHours, LocalTime. now rewrite same_tz. Qed.

Lemma getMinutes_zone (t : Z) : getMinutes env1 t = getMinutes env2 t.
Proof. unfold getMinutes, LocalTime. now rewrite same_tz. Qed.

Lemma getDay_zone (t : Z) : getDay env1 t = getDay env2 t.
Proof. unfold getDay, LocalTime. now rewrite same_tz. Qed.

Lemma timesOf_zone (f : Session -> option Z) (sessions : list Session) :
  timesOf env1 f sessions = timesOf env2 f sessions.
Proof.
  induction sessions as [|s l IH]; simpl; [reflexivity|].
  destruct (f s); [|exact IH].
  unfold minuteOfDay. now rewrite IH, getHours_zone, getMinutes_zone.
Qed.

Lemma dayOfWeekTotals_zone (totals : list (string * Z)) (w : list (list Z)) :
  dayOfWeekTotals env1 totals w = dayOfWeekTotals env2 totals w.
Proof.
  revert w. induction totals as [|[key m] rest IH]; intro w; simpl; [reflexivity|].
  unfold weekdayOf. destruct (Calendar.parseDate key); [|reflexivity].
  rewrite getDay_zone. apply IH.
Qed.

Lemma hourlyWork_zone (sessions : list Session) :
  hourlyWork env1 sessions = hourlyWork env2 sessions.
Proof.
  unfold hourlyWork. generalize (repeat 0 24).
  induction sessions as [|s l IH]; intro slots; simpl; [reflexivity|].
  rewrite IH. f_equal. unfold bumpHours.
  destruct (punch_in s), (punch_out s); try reflexivity.
  now rewrite !getHours_zone.
Qed.

Lemma badgesOf_zone (sessions : list Session) (totals : list (string * Z)) (n : Z) :
  badgesOf env1 sessions totals n = badgesOf env2 sessions totals n.
Proof.
  unfold badgesOf.
  assert (E : countIf (isEarly env1) sessions = countIf (isEarly env2) sessions).
  { unfold countIf. f_equal. apply length_filter_ext. intros s _.
    unfold isEarly. destruct (punch_in s); [|reflexivity]. now rewrite getHours_zone. }
  now rewrite E.
Qed.

End SameZone.

(** The fields of a result that the clock reading cannot change. *)
Definition clockFree (r : Analytics) :=
  (streak r, weeklyScore r, badges r, avgStartTime r, avgEndTime r,
   bestDay r, worstDay r, productiveHours r).

(** C9, amended. The outcome is fixed by the sessions, the target, the
    instant the host's clock shows and the host's zone: two invocations
    that agree on these agree on the whole outcome. Between two invocations
    in the same zone at any two instants, the streak, the weekly score, the
    badges, the average start and end times, the best and worst day and the
    productive hours agree as well. *)
Theorem result_fixed_by_inputs_and_clock (env1 env2 : Env)
    (sessions allSessions : list Session) (targetHours : float) :
  tz env1 = tz env2 ->
  (now env1 = now env2 ->
   useAnalytics env1 sessions allSessions targetHours
   = useAnalytics env2 sessions allSessions targetHours) /\
  option_map clockFree (useAnalytics env1 sessions allSessions targetHours)
  = option_map clockFree (useAnalytics env2 sessions allSessions targetHours).
Proof.
  intro Htz. split.
  - intro Hnow. destruct env1 as [n1 z1], env2 as [n2 z2]. simpl in *. now subst.
  - destruct sessions as [|s rest]; [reflexivity|].
    unfold useAnalytics.
    rewrite (dayOfWeekTotals_zone env1 env2 Htz).
    destruct (dayOfWeekTotals env2 (dailyTotals (s :: rest)) emptyWeek); [|reflexivity].
    unfold clockFree, option_map. cbn [streak weeklyScore badges avgStartTime avgEndTime
      bestDay worstDay productiveHours].
    rewrite !(timesOf_zone env1 env2 Htz), (badgesOf_zone env1 env2 Htz).
    unfold productiveHoursOf. rewrite (hourlyWork_zone env1 env2 Htz). reflexivity.
Qed.

Lemma result_fixed_by_inputs_and_clock_witness :
  (now wednesdayNoon = now thursdayNoon ->
   useAnalytics wednesdayNoon [session "2024-01-07" 1704598200000 1704634200000 600] [] 200
   = useAnalytics thursdayNoon [session "2024-01-07" 1704598200000 1704634200000 600] [] 200) /\
  option_map clockFree
    (useAnalytics wednesdayNoon [session "2024-01-07" 1704598200000 1704634200000 600] [] 200)
  = option_map clockFree
    (useAnalytics thursdayNoon [session "2024-01-07" 1704598200000 1704634200000 600] [] 200).
Proof.
  apply (result_fixed_by_inputs_and_clock wednesdayNoon thursdayNoon). reflexivity.
Defined.

(** * Double arithmetic

    The operations of [float] through their values: a finite number is an
    integer multiple of 2^-1074, and each operation returns the exact result
    rounded to 53 significant bits, a tie going to the even mantissa. *)

(** Nearest integer to [a / b], a tie going to the even one ([0 < b]). *)
Definition rne (a b : Z) : Z :=
  match 2 * (a mod b) ?= b with
  | Lt => a / b
  | Eq => if Z.even (a / b) then a / b else a / b + 1
  | Gt => a / b + 1
  end.

Lemma rne_bounds (a b : Z) : 0 < b -> a / b <= rne a b <= a / b + 1.
Proof.
  intro Hb. unfold rne.
  destruct (2 * (a mod b) ?= b); [destruct (Z.even (a / b))| |]; lia.
Qed.

Lemma div_le_cross (a b a' b' : Z) :
  0 < b -> 0 < b' -> a * b' <= a' * b -> a / b <= a' / b'.
Proof.
  intros Hb Hb' H.
  pose proof (Z.div_mod a b ltac:(lia)) as E.
  pose proof (Z.mod_pos_bound a b Hb) as R.
  pose proof (Z.div_mod a' b' ltac:(lia)) as E'.
  pose proof (Z.mod_pos_bound a' b' Hb') as R'.
  destruct (Z_le_gt_dec (a / b) (a' / b')) as [|G]; [assumption|exfalso].
  assert (a' / b' + 1 <= a / b) by lia.
  assert (b * b' * (a' / b' + 1) <= b * b' * (a / b)) by (apply Z.mul_le_mono_nonneg_l; nia).
  nia.
Qed.

Lemma rne_mono (a b a' b' : Z) :
  0 < b -> 0 < b' -> a * b' <= a' * b -> rne a b <= rne a' b'.
Proof.
  intros Hb Hb' H.
  pose proof (div_le_cross a b a' b' Hb Hb' H) as Hm.
  pose proof (rne_bounds a b Hb) as B. pose proof (rne_bounds a' b' Hb') as B'.
  destruct (Z.eq_dec (a / b) (a' / b')) as [E|NE]; [|lia].
  pose proof (Z.div_mod a b ltac:(lia)) as D.
  pose proof (Z.mod_pos_bound a b Hb) as R.
  pose proof (Z.div_mod a' b' ltac:(lia)) as D'.
  pose proof (Z.mod_pos_bound a' b' Hb') as R'.
  assert (Hr : (a mod b) * b' <= (a' mod b') * b) by nia.
  unfold rne. rewrite <- E.
  destruct (Z.compare_spec (2 * (a mod b)) b) as [C|C|C];
    destruct (Z.compare_spec (2 * (a' mod b')) b') as [C'|C'|C'];
    destruct (Z.even (a / b)); try lia; exfalso; nia.
Qed.

Lemma rne_scale (c a b : Z) : 0 < c -> 0 < b -> rne (c * a) (c * b) = rne a b.
Proof.
  intros Hc Hb. apply Z.le_antisymm; apply rne_mono; nia.
Qed.

Lemma rne_ge (a b c : Z) : 0 < b -> c * b <= a -> c <= rne a b.
Proof.
  intros Hb H. pose proof (rne_bounds a b Hb).
  assert (c <= a / b) by (apply Z.div_le_lower_bound; lia). lia.
Qed.

Lemma rne_le (a b c : Z) : 0 < b -> a <= c * b -> rne a b <= c.
Proof.
  intros Hb H.
  assert (E : rne (c * b) b = c).
  { unfold rne. rewrite Z.mod_mul, Z.div_mul by lia. rewrite Z.mul_0_r.
    destruct (Z.compare_spec 0 b); try reflexivity; lia. }
  rewrite <- E. apply rne_mono; nia.
Qed.

Lemma rne_exact (n b : Z) : 0 < b -> rne (n * b) b = n.
Proof.
  intro Hb. apply Z.le_antisymm; [apply rne_le | apply rne_ge]; lia.
Qed.

(** [a / b] rounded to 53 significant bits, on the grid of the integers
    ([0 <= a], [0 < b]). *)
Definition RND (a b : Z) : Z :=
  let k := Z.max (Z.log2 (a / b) - 52) 0 in
  rne a (b * 2 ^ k) * 2 ^ k.

Lemma pow2_pos (k : Z) : 0 <= k -> 0 < 2 ^ k.
Proof. intro. apply Z.pow_pos_nonneg; lia. Qed.

Lemma lt_pow2_log2 (n k : Z) : 0 <= n -> 0 <= k -> Z.log2 n < k -> n < 2 ^ k.
Proof.
  intros Hn Hk H. destruct (Z.eq_dec n 0) as [->|NZ]; [now apply pow2_pos|].
  apply Z.log2_lt_pow2; lia.
Qed.

Lemma RND_mono (a b a' b' : Z) :
  0 <= a -> 0 < b -> 0 < b' -> a * b' <= a' * b -> RND a b <= RND a' b'.
Proof.
  intros Ha Hb Hb' H. unfold RND.
  pose proof (div_le_cross a b a' b' Hb Hb' H) as Hn.
  assert (Hn0 : 0 <= a / b) by (apply Z.div_pos; lia).
  set (k := Z.max (Z.log2 (a / b) - 52) 0).
  set (k' := Z.max (Z.log2 (a' / b') - 52) 0).
  assert (Hk : 0 <= k) by lia. assert (Hk' : 0 <= k') by lia.
  assert (Hkk : k <= k').
  { pose proof (Z.log2_le_mono _ _ Hn). lia. }
  pose proof (pow2_pos k Hk) as Pk. pose proof (pow2_pos k' Hk') as Pk'.
  destruct (Z.eq_dec k k') as [E|NE].
  - rewrite <- E. apply Z.mul_le_mono_nonneg_r; [lia|].
    apply rne_mono; nia.
  - assert (Hlt : k < k') by lia.
    (* the smaller one stays below 2^(53+k) *)
    assert (U : rne a (b * 2 ^ k) <= 2 ^ 53).
    { apply rne_le; [nia|].
      assert (a / b < 2 ^ (k + 53)) by (apply lt_pow2_log2; lia).
      pose proof (Z.div_mod a b ltac:(lia)). pose proof (Z.mod_pos_bound a b Hb).
      rewrite Z.pow_add_r in * by lia. nia. }
    (* the larger one reaches 2^(52+k') *)
    assert (L : 2 ^ 52 <= rne a' (b' * 2 ^ k')).
    { apply rne_ge; [nia|].
      assert (0 < a' / b').
      { destruct (Z.eq_dec (a' / b') 0) as [Z0|]; [|lia].
        exfalso. unfold k' in Hlt. rewrite Z0 in Hlt. simpl in Hlt. lia. }
      assert (2 ^ (k' + 52) <= a' / b').
      { replace (k' + 52) with (Z.log2 (a' / b')) by lia. apply Z.log2_spec. lia. }
      pose proof (Z.div_mod a' b' ltac:(lia)). pose proof (Z.mod_pos_bound a' b' Hb').
      rewrite Z.pow_add_r in * by lia. nia. }
    assert (2 ^ 53 * 2 ^ k <= 2 ^ 52 * 2 ^ k').
    { rewrite <- !Z.pow_add_r by lia. apply Z.pow_le_mono_r; lia. }
    assert (0 <= rne a (b * 2 ^ k)).
    { pose proof (rne_bounds a (b * 2 ^ k) ltac:(nia)).
      assert (0 <= a / (b * 2 ^ k)) by (apply Z.div_pos; nia). lia. }
    nia.
Qed.

Lemma RND_nonneg (a b : Z) : 0 <= a -> 0 < b -> 0 <= RND a b.
Proof.
  intros Ha Hb. unfold RND.
  set (k := Z.max (Z.log2 (a / b) - 52) 0).
  assert (Hk : 0 <= k) by lia. pose proof (pow2_pos k Hk).
  pose proof (rne_bounds a (b * 2 ^ k) ltac:(nia)).
  assert (0 <= a / (b * 2 ^ k)) by (apply Z.div_pos; nia). nia.
Qed.

(** A value with at most 53 significant bits rounds to itself. *)
Lemma RND_exact (m j b : Z) :
  0 <= m < 2 ^ 53 -> 0 <= j -> 0 < b -> RND (m * 2 ^ j * b) b = m * 2 ^ j.
Proof.
  intros Hm Hj Hb. unfold RND. rewrite Z.div_mul by lia.
  set (k := Z.max (Z.log2 (m * 2 ^ j) - 52) 0).
  assert (Hk : 0 <= k <= j).
  { unfold k. destruct (Z.eq_dec m 0) as [->|NZ]; [simpl; lia|].
    rewrite Z.log2_mul_pow2 by lia.
    assert (Z.log2 m < 53) by (apply Z.log2_lt_pow2; lia). lia. }
  pose proof (pow2_pos k ltac:(lia)).
  replace (m * 2 ^ j * b) with ((m * 2 ^ (j - k)) * (b * 2 ^ k)).
  - rewrite rne_exact by nia. rewrite <- Z.mul_assoc, <- Z.pow_add_r by lia.
    do 2 f_equal. lia.
  - replace j with ((j - k) + k) at 2 by lia. rewrite Z.pow_add_r by lia. ring.
Qed.

(** ** The rounding algorithm of the binary64 specification *)

Lemma fexp_eq (e : Z) : fexp prec emax e = Z.max (e - 53) (-1074).
Proof. reflexivity. Qed.

Lemma digits2_size (p : positive) : digits2_pos p = Pos.size p.
Proof. induction p; simpl; congruence. Qed.

Lemma Zdigits2_log2 (p : positive) : Zdigits2 (Zpos p) = Z.log2 (Zpos p) + 1.
Proof.
  unfold Zdigits2. rewrite digits2_size.
  destruct p; simpl; try reflexivity; now rewrite Pos.add_1_r.
Qed.

Lemma Zdigits2_bounds (m : Z) : 0 < m -> 2 ^ (Zdigits2 m - 1) <= m < 2 ^ Zdigits2 m.
Proof.
  intro Hm. destruct m as [|p|p]; try lia.
  rewrite Zdigits2_log2. replace (Z.log2 (Z.pos p) + 1 - 1) with (Z.log2 (Z.pos p)) by lia.
  replace (Z.log2 (Z.pos p) + 1) with (Z.succ (Z.log2 (Z.pos p))) by lia.
  apply Z.log2_spec. lia.
Qed.

Lemma Zdigits2_nonneg (m : Z) : 0 <= Zdigits2 m.
Proof. destruct m; simpl; lia. Qed.

Lemma Zdigits2_pos (m : Z) : 0 < m -> 0 < Zdigits2 m.
Proof. destruct m; simpl; lia. Qed.

(** Where the remainder [R] of a division by [E] lies: the round and sticky
    bits of a shift record. *)
Definition locBits (R E : Z) (r s : bool) : Prop :=
  match r, s with
  | false, false => R = 0
  | false, true => 0 < R /\ 2 * R < E
  | true, false => 2 * R = E
  | true, true => E < 2 * R
  end.

Definition located (R E : Z) (l : location) : Prop :=
  match l with
  | loc_Exact => R = 0
  | loc_Inexact Lt => 0 < R /\ 2 * R < E
  | loc_Inexact Eq => 2 * R = E
  | loc_Inexact Gt => E < 2 * R
  end.

(** The record [mrs] is the quotient of [N] by [E] with its remainder's
    position. *)
Definition shifted (N E : Z) (mrs : shr_record) : Prop :=
  shr_m mrs = N / E /\ locBits (N mod E) E (shr_r mrs) (shr_s mrs).

Lemma shifted_of_loc (N E : Z) (l : location) :
  located (N mod E) E l -> shifted N E (shr_record_of_loc (N / E) l).
Proof.
  unfold shifted. destruct l as [|[| |]]; simpl; auto.
Qed.

Lemma shr_1_shifted (N E : Z) (mrs : shr_record) :
  0 <= N -> 0 < E -> shifted N E mrs -> shifted N (2 * E) (shr_1 mrs).
Proof.
  intros HN HE [Hm Hl]. destruct mrs as [m r s]. simpl in Hm, Hl.
  pose proof (Z.div_mod N E ltac:(lia)) as D.
  pose proof (Z.mod_pos_bound N E HE) as B.
  assert (Hm0 : 0 <= m) by (subst m; apply Z.div_pos; lia).
  assert (Hq : forall p b, m = 2 * p + b -> 0 <= b < 2 ->
             N / (2 * E) = p /\ N mod (2 * E) = N mod E + b * E).
  { intros p b Hp Hb.
    assert (N = (2 * E) * p + (N mod E + b * E)) by nia.
    split; [symmetry; eapply Z.div_unique_pos | symmetry; eapply Z.mod_unique_pos];
      try eassumption; nia. }
  unfold shifted.
  destruct m as [|[p|p|]|p]; try lia; cbn [shr_1 shr_m shr_r shr_s].
  - destruct (Hq 0 0 ltac:(lia) ltac:(lia)) as [-> ->]. split; [reflexivity|].
    destruct r, s; unfold locBits in *; cbn [orb] in *; lia.
  - destruct (Hq (Zpos p) 1 ltac:(lia) ltac:(lia)) as [-> ->]. split; [reflexivity|].
    destruct r, s; unfold locBits in *; cbn [orb] in *; lia.
  - destruct (Hq (Zpos p) 0 ltac:(lia) ltac:(lia)) as [-> ->]. split; [reflexivity|].
    destruct r, s; unfold locBits in *; cbn [orb] in *; lia.
  - destruct (Hq 0 1 ltac:(lia) ltac:(lia)) as [-> ->]. split; [reflexivity|].
    destruct r, s; unfold locBits in *; cbn [orb] in *; lia.
Qed.

Lemma pow2_xO (p : positive) : 2 ^ Zpos p~0 = 2 ^ Zpos p * 2 ^ Zpos p.
Proof.
  replace (Z.pos p~0) with (Z.pos p + Z.pos p) by lia.
  apply Z.pow_add_r; lia.
Qed.

Lemma pow2_xI (p : positive) : 2 ^ Zpos p~1 = 2 * (2 ^ Zpos p * 2 ^ Zpos p).
Proof.
  replace (Z.pos p~1) with (1 + (Z.pos p + Z.pos p)) by lia.
  rewrite !Z.pow_add_r by lia. reflexivity.
Qed.

Lemma iter_shr_shifted (N : Z) (HN : 0 <= N) (p : positive) :
  forall E mrs, 0 < E -> shifted N E mrs ->
    shifted N (E * 2 ^ Zpos p) (iter_pos shr_1 p mrs).
Proof.
  induction p as [p IH|p IH|]; intros E mrs HE H; simpl iter_pos.
  - pose proof (pow2_pos (Zpos p) ltac:(lia)) as P.
    apply shr_1_shifted in H; try assumption.
    apply IH in H; [|lia]. apply IH in H; [|nia].
    replace (E * 2 ^ Z.pos p~1) with (2 * E * 2 ^ Z.pos p * 2 ^ Z.pos p); [exact H|].
    rewrite pow2_xI. ring.
  - pose proof (pow2_pos (Zpos p) ltac:(lia)) as P.
    apply IH in H; [|lia]. apply IH in H; [|nia].
    replace (E * 2 ^ Z.pos p~0) with (E * 2 ^ Z.pos p * 2 ^ Z.pos p); [exact H|].
    rewrite pow2_xO. ring.
  - apply shr_1_shifted in H; try assumption.
    replace (E * 2 ^ 1) with (2 * E) by lia. exact H.
Qed.

Lemma shr_shifted (N E : Z) (mrs : shr_record) (e n : Z) :
  0 <= N -> 0 < E -> shifted N E mrs ->
  shifted N (E * 2 ^ Z.max n 0) (fst (shr mrs e n)) /\ snd (shr mrs e n) = e + Z.max n 0.
Proof.
  intros HN HE H. destruct n as [|p|p]; simpl.
  - rewrite Z.mul_1_r. split; [exact H | lia].
  - split; [|reflexivity]. now apply iter_shr_shifted.
  - rewrite Z.mul_1_r. split; [exact H | lia].
Qed.

Lemma round_shifted (N E : Z) (mrs : shr_record) :
  0 < E -> shifted N E mrs ->
  round_nearest_even (shr_m mrs) (loc_of_shr_record mrs) = rne N E.
Proof.
  intros HE [Hm Hl]. destruct mrs as [m r s].
  cbn [shr_m shr_r shr_s] in *. subst m.
  pose proof (Z.mod_pos_bound N E HE) as B.
  unfold rne, locBits in *.
  destruct r, s; cbn [loc_of_shr_record round_nearest_even];
    destruct (Z.compare_spec (2 * (N mod E)) E); try lia; reflexivity.
Qed.

Lemma div_pow2_lt (m d n : Z) :
  0 <= m < 2 ^ d -> 0 <= n -> d <= n + 53 -> m / 2 ^ n < 2 ^ 53.
Proof.
  intros Hm Hn Hd. pose proof (pow2_pos n Hn).
  apply Z.div_lt_upper_bound; [lia|].
  rewrite <- Z.pow_add_r by lia.
  assert (2 ^ d <= 2 ^ (n + 53)) by (apply Z.pow_le_mono_r; lia). lia.
Qed.

Lemma shr_exact_noop (m e n : Z) :
  n <= 0 -> shr (shr_record_of_loc m loc_Exact) e n = (shr_record_of_loc m loc_Exact, e).
Proof. destruct n; simpl; try lia; reflexivity. Qed.

(** What [binary_round_aux] returns, in units of 2^-1074: the located
    value [N / D * 2^ex] goes to the exponent [e1] of its format and its
    mantissa is rounded to nearest even there. *)
Lemma binary_round_aux_spec (sx : bool) (N D ex : Z) (lx : location) :
  0 <= N -> 0 < D -> located (N mod D) D lx ->
  ex <= fexp prec emax (Zdigits2 (N / D) + ex) ->
  let e1 := fexp prec emax (Zdigits2 (N / D) + ex) in
  let R := rne N (D * 2 ^ (e1 - ex)) * 2 ^ (e1 + 1074) in
  match binary_round_aux prec emax sx (N / D) ex lx with
  | S754_zero s => s = sx /\ R = 0
  | S754_finite s m e =>
      s = sx /\ -1074 <= e /\ Zpos m * 2 ^ (e + 1074) = R /\ R < 2 ^ 2098
  | S754_infinity s => s = sx /\ 2 ^ 2098 <= R
  | S754_nan => False
  end.
Proof.
  intros HN HD Hloc Hpre e1 R.
  set (mx := N / D) in *.
  assert (Hmx : 0 <= mx) by (apply Z.div_pos; lia).
  assert (He1 : e1 = Z.max (Zdigits2 mx + ex - 53) (-1074)) by reflexivity.
  pose proof (Zdigits2_nonneg mx) as Hd0.
  set (n1 := e1 - ex) in *.
  assert (Hn1 : 0 <= n1) by (unfold n1; lia).
  pose proof (pow2_pos n1 Hn1) as Pn1.
  pose proof (pow2_pos (e1 + 1074) ltac:(lia)) as Pe1.
  (* first shift *)
  unfold binary_round_aux, shr_fexp. fold e1. fold n1.
  pose proof (shr_shifted N D (shr_record_of_loc mx lx) ex n1 HN HD
                (shifted_of_loc N D lx Hloc)) as [Hsh He'].
  destruct (shr (shr_record_of_loc mx lx) ex n1) as [mrs' e'] eqn:Es.
  cbn [fst snd] in Hsh, He'. rewrite Z.max_l in Hsh, He' by lia.
  assert (Ee' : e' = e1) by (unfold n1 in He'; lia). clear He' Es. subst e'.
  rewrite (round_shifted N (D * 2 ^ n1) mrs' ltac:(nia) Hsh).
  set (m2 := rne N (D * 2 ^ n1)) in *.
  (* the rounded mantissa has at most 53 bits, or is 2^53 *)
  assert (Hm1 : N / (D * 2 ^ n1) = mx / 2 ^ n1)
    by (unfold mx; rewrite Z.div_div by lia; reflexivity).
  assert (Hm1lt : mx / 2 ^ n1 < 2 ^ 53).
  { destruct (Z.eq_dec mx 0) as [E0|NZ].
    - rewrite E0, Z.div_0_l by lia. lia.
    - apply div_pow2_lt with (d := Zdigits2 mx); try lia.
      pose proof (Zdigits2_bounds mx ltac:(lia)). lia. }
  assert (Hm1nn : 0 <= mx / 2 ^ n1) by (apply Z.div_pos; lia).
  pose proof (rne_bounds N (D * 2 ^ n1) ltac:(nia)) as Hb. fold m2 in Hb.
  rewrite Hm1 in Hb.
  assert (Hm2 : 0 <= m2 <= 2 ^ 53) by lia.
  (* a result at a large exponent is normal *)
  assert (Hnorm : -1074 < e1 -> 2 ^ 52 <= m2).
  { intro Hbig.
    assert (Hmx0 : 0 < mx).
    { destruct (Z.eq_dec mx 0) as [E0|]; [|lia]. exfalso.
      rewrite E0 in He1, Hpre. simpl in He1. change (Zdigits2 0) with 0 in Hpre.
      rewrite fexp_eq in Hpre. lia. }
    pose proof (Zdigits2_bounds mx Hmx0) as Bd.
    assert (En : n1 = Zdigits2 mx - 53) by (unfold n1; lia).
    assert (2 ^ 52 <= mx / 2 ^ n1); [|lia].
    apply Z.div_le_lower_bound; [lia|].
    rewrite <- Z.pow_add_r by lia.
    replace (n1 + 52) with (Zdigits2 mx - 1) by lia. lia. }
  (* second shift *)
  assert (ER : R = m2 * 2 ^ (e1 + 1074)) by reflexivity.
  clearbody R m2.
  destruct (Z.eq_dec m2 (2 ^ 53)) as [Ecarry|Ncarry].
  - assert (Ed : Zdigits2 m2 = 54) by (rewrite Ecarry; reflexivity).
    rewrite Ed. rewrite fexp_eq.
    replace (Z.max (54 + e1 - 53) (-1074) - e1) with 1 by lia.
    rewrite Ecarry. cbn [shr shr_record_of_loc iter_pos shr_1].
    change (2 ^ 53) with (Zpos (xO (2 ^ 52)%positive)).
    cbn [shr_1 shr_m fst snd]. change (Z.pos (2 ^ 52)) with (2 ^ 52).
    rewrite Ecarry in ER.
    destruct (Z.leb_spec (e1 + 1) (emax - prec)) as [Hle|Hgt];
      change (emax - prec) with 971 in *.
    + split; [reflexivity|]. split; [lia|]. split.
      * rewrite ER. replace (e1 + 1 + 1074) with (1 + (e1 + 1074)) by lia.
        rewrite Z.pow_add_r by lia.
        replace (2 ^ 53) with (Z.pos (2 ^ 52) * 2 ^ 1) by reflexivity. ring.
      * rewrite ER. rewrite <- Z.pow_add_r by lia. apply Z.pow_lt_mono_r; lia.
    + split; [reflexivity|]. rewrite ER. rewrite <- Z.pow_add_r by lia.
      apply Z.pow_le_mono_r; lia.
  - assert (Hlt : m2 < 2 ^ 53) by lia.
    assert (Hn2 : fexp prec emax (Zdigits2 m2 + e1) - e1 <= 0).
    { rewrite fexp_eq. destruct (Z.eq_dec m2 0) as [E0|NZ].
      - rewrite E0. change (Zdigits2 0) with 0. lia.
      - pose proof (Zdigits2_bounds m2 ltac:(lia)) as Bd.
        assert (Zdigits2 m2 <= 53); [|lia].
        destruct (Z_le_gt_dec (Zdigits2 m2) 53) as [|G]; [assumption|exfalso].
        assert (2 ^ 53 <= 2 ^ (Zdigits2 m2 - 1)) by (apply Z.pow_le_mono_r; lia). lia. }
    rewrite shr_exact_noop by exact Hn2. cbn [shr_record_of_loc shr_m].
    destruct m2 as [|m|m]; try lia.
    + split; [reflexivity|]. rewrite ER. reflexivity.
    + destruct (Z.leb_spec e1 (emax - prec)) as [Hle|Hgt];
        change (emax - prec) with 971 in *.
      * split; [reflexivity|]. split; [lia|]. split; [now rewrite ER|].
        rewrite ER.
        assert (2 ^ (e1 + 1074) <= 2 ^ 2045) by (apply Z.pow_le_mono_r; lia).
        replace (2 ^ 2098) with (2 ^ 53 * 2 ^ 2045) by reflexivity. nia.
      * split; [reflexivity|]. rewrite ER.
        specialize (Hnorm ltac:(lia)).
        assert (2 ^ 2046 <= 2 ^ (e1 + 1074)) by (apply Z.pow_le_mono_r; lia).
        replace (2 ^ 2098) with (2 ^ 52 * 2 ^ 2046) by reflexivity. nia.
Qed.

(** The same value in units of 2^-1074, as a fraction [a / b]. *)
Definition scaledNum (N ex : Z) : Z := N * 2 ^ Z.max (ex + 1074) 0.
Definition scaledDen (D ex : Z) : Z := D * 2 ^ Z.max (- (ex + 1074)) 0.

Lemma RND_ext (a b a' b' : Z) :
  0 <= a -> 0 <= a' -> 0 < b -> 0 < b' -> a * b' = a' * b -> RND a b = RND a' b'.
Proof.
  intros. apply Z.le_antisymm; apply RND_mono; lia.
Qed.

Lemma rne_ext (a b a' b' : Z) :
  0 < b -> 0 < b' -> a * b' = a' * b -> rne a b = rne a' b'.
Proof.
  intros. apply Z.le_antisymm; apply rne_mono; lia.
Qed.

Lemma log2_between (n d : Z) : 0 <= d -> 2 ^ d <= n < 2 ^ (d + 1) -> Z.log2 n = d.
Proof.
  intros Hd H. apply Z.log2_unique; [lia|]. replace (Z.succ d) with (d + 1) by lia. exact H.
Qed.

Lemma round_aux_RND (N D ex : Z) :
  0 <= N -> 0 < D ->
  ex <= fexp prec emax (Zdigits2 (N / D) + ex) ->
  let e1 := fexp prec emax (Zdigits2 (N / D) + ex) in
  rne N (D * 2 ^ (e1 - ex)) * 2 ^ (e1 + 1074) = RND (scaledNum N ex) (scaledDen D ex).
Proof.
  intros HN HD Hpre e1.
  set (mx := N / D) in *.
  assert (Hmx : 0 <= mx) by (apply Z.div_pos; lia).
  assert (He1 : e1 = Z.max (Zdigits2 mx + ex - 53) (-1074)) by reflexivity.
  rewrite fexp_eq in Hpre.
  pose proof (Zdigits2_nonneg mx) as Hd0.
  set (s := ex + 1074) in *.
  unfold RND, scaledNum, scaledDen. fold s.
  set (p := Z.max s 0). set (q := Z.max (- s) 0).
  pose proof (pow2_pos p ltac:(lia)) as Pp. pose proof (pow2_pos q ltac:(lia)) as Pq.
  pose proof (Z.div_mod N D ltac:(lia)) as DM. fold mx in DM.
  pose proof (Z.mod_pos_bound N D HD) as MB.
  assert (Hk : Z.max (Z.log2 (N * 2 ^ p / (D * 2 ^ q)) - 52) 0 = e1 + 1074).
  { destruct (Z_le_gt_dec 0 s) as [Hs|Hs].
    - (* the value is at or above the grid's unit exponent *)
      assert (Ep : p = s) by lia. assert (Eq0 : q = 0) by lia.
      rewrite Ep, Eq0, Z.pow_0_r, Z.mul_1_r.
      pose proof (pow2_pos s Hs) as Ps.
      destruct (Z.eq_dec mx 0) as [E0|NZ].
      + rewrite E0 in *. change (Zdigits2 0) with 0 in *.
        assert (s = 0) by lia.
        replace s with 0 by lia. rewrite Z.pow_0_r, Z.mul_1_r.
        fold mx. rewrite E0. simpl. lia.
      + pose proof (Zdigits2_bounds mx ltac:(lia)) as Bd.
        pose proof (Zdigits2_pos mx ltac:(lia)) as Pd.
        assert (Hq : mx * 2 ^ s <= N * 2 ^ s / D < (mx + 1) * 2 ^ s).
        { split.
          - apply Z.div_le_lower_bound; nia.
          - apply Z.div_lt_upper_bound; nia. }
        rewrite (log2_between _ (Zdigits2 mx - 1 + s)); [lia | lia |].
        replace (Zdigits2 mx - 1 + s + 1) with (Zdigits2 mx + s) by lia.
        rewrite !Z.pow_add_r by lia. nia.
    - (* below it: the quotient is a right shift of the mantissa *)
      assert (Ep : p = 0) by lia. assert (Eq0 : q = - s) by lia.
      rewrite Ep, Eq0, Z.pow_0_r, Z.mul_1_r.
      rewrite <- Z.div_div by (try apply pow2_pos; lia). fold mx.
      rewrite <- Z.shiftr_div_pow2 by lia.
      destruct (Z.eq_dec mx 0) as [E0|NZ].
      + rewrite E0, Z.shiftr_0_l in *. change (Zdigits2 0) with 0 in *. simpl. lia.
      + rewrite Z.log2_shiftr by lia.
        rewrite <- (Z.add_simpl_r (Z.log2 mx) 1) at 1.
        destruct mx as [|pm|pm]; try lia.
        rewrite <- Zdigits2_log2. lia. }
  rewrite Hk. f_equal.
  apply rne_ext.
  - pose proof (pow2_pos (e1 - ex) ltac:(lia)). nia.
  - pose proof (pow2_pos (e1 + 1074) ltac:(lia)). nia.
  - assert (E : 2 ^ q * 2 ^ (e1 + 1074) = 2 ^ p * 2 ^ (e1 - ex)).
    { rewrite <- !Z.pow_add_r by lia. f_equal. unfold p, q, s. lia. }
    transitivity (N * D * (2 ^ q * 2 ^ (e1 + 1074))); [ring|]. rewrite E. ring.
Qed.

(** ** Values *)

Definition top : Z := 2 ^ 2098.

(** The value of a number in units of 2^-1074; the infinities stand at
    [top] and [- top], beyond every finite value. *)
Definition SFV (x : spec_float) : option Z :=
  match x with
  | S754_zero _ => Some 0
  | S754_infinity s => Some (if s then - top else top)
  | S754_nan => None
  | S754_finite s m e => Some (cond_Zopp s (Zpos m * 2 ^ (e + 1074)))
  end.

(** Rounding of any fraction [a / b] ([0 < b]) to a value. *)
Definition rnd (a b : Z) : Z :=
  if a <? 0 then Z.max (- top) (- RND (- a) b) else Z.min top (RND a b).

Lemma rnd_mono (a b a' b' : Z) :
  0 < b -> 0 < b' -> a * b' <= a' * b -> rnd a b <= rnd a' b'.
Proof.
  intros Hb Hb' H. unfold rnd.
  assert (0 < top) by (apply pow2_pos; lia).
  destruct (Z.ltb_spec a 0), (Z.ltb_spec a' 0).
  - assert (RND (- a') b' <= RND (- a) b) by (apply RND_mono; nia). lia.
  - pose proof (RND_nonneg (- a) b ltac:(lia) Hb).
    pose proof (RND_nonneg a' b' ltac:(lia) Hb'). lia.
  - exfalso. nia.
  - assert (RND a b <= RND a' b') by (apply RND_mono; nia). lia.
Qed.

Lemma rnd_ext (a b a' b' : Z) :
  0 < b -> 0 < b' -> a * b' = a' * b -> rnd a b = rnd a' b'.
Proof.
  intros. apply Z.le_antisymm; apply rnd_mono; lia.
Qed.

Lemma rnd_range (a b : Z) : 0 < b -> - top <= rnd a b <= top.
Proof.
  intro Hb. unfold rnd. assert (0 < top) by (apply pow2_pos; lia).
  destruct (Z.ltb_spec a 0).
  - pose proof (RND_nonneg (- a) b ltac:(lia) Hb). lia.
  - pose proof (RND_nonneg a b ltac:(lia) Hb). lia.
Qed.

Lemma RND_0 (b : Z) : 0 < b -> RND 0 b = 0.
Proof.
  intro Hb. replace 0 with (0 * 2 ^ 0 * b) at 1 by reflexivity.
  rewrite RND_exact; lia.
Qed.

Lemma rnd_0 (b : Z) : 0 < b -> rnd 0 b = 0.
Proof.
  intro Hb. unfold rnd. simpl. rewrite RND_0 by assumption.
  assert (0 < top) by (apply pow2_pos; lia). lia.
Qed.

(** How a result of [binary_round_aux] reads as a value. *)
Lemma SFV_round_aux (sx : bool) (N D ex : Z) (lx : location) :
  0 <= N -> 0 < D -> located (N mod D) D lx ->
  ex <= fexp prec emax (Zdigits2 (N / D) + ex) ->
  SFV (binary_round_aux prec emax sx (N / D) ex lx)
  = Some (cond_Zopp sx (Z.min top (RND (scaledNum N ex) (scaledDen D ex)))).
Proof.
  intros HN HD Hloc Hpre.
  pose proof (binary_round_aux_spec sx N D ex lx HN HD Hloc Hpre) as H.
  cbv zeta in H. rewrite round_aux_RND in H by assumption.
  assert (0 < top) by (apply pow2_pos; lia).
  fold top in H.
  destruct (binary_round_aux prec emax sx (N / D) ex lx) as [s|s| |s m e]; cbn [SFV].
  - destruct H as [_ ->]. rewrite Z.min_r by lia. now destruct sx.
  - destruct H as [-> H]. rewrite Z.min_l by lia. now destruct sx.
  - contradiction.
  - destruct H as [-> [_ [E H]]]. rewrite E, Z.min_r by lia. reflexivity.
Qed.

(** ** The arithmetic of finite numbers *)

Lemma valid_finite (s : bool) (m : positive) (e : Z) :
  valid_binary (S754_finite s m e) = true ->
  e = Z.max (Zdigits2 (Zpos m) + e - 53) (-1074) /\ e <= 971 /\ Zpos m < 2 ^ 53.
Proof.
  unfold SpecFloat.valid_binary, bounded, canonical_mantissa. rewrite andb_true_iff.
  intros [H1 H2]. apply Z.eqb_eq in H1. apply Z.leb_le in H2.
  rewrite fexp_eq in H1. change (emax - prec) with 971 in H2.
  change (Z.pos (digits2_pos m)) with (Zdigits2 (Zpos m)) in H1.
  split; [lia|]. split; [lia|].
  pose proof (Zdigits2_bounds (Zpos m) ltac:(lia)) as B.
  assert (2 ^ Zdigits2 (Zpos m) <= 2 ^ 53) by (apply Z.pow_le_mono_r; lia). lia.
Qed.

Lemma rnd_signed (s : bool) (M b : Z) :
  0 <= M -> 0 < b -> rnd (cond_Zopp s M) b = cond_Zopp s (Z.min top (RND M b)).
Proof.
  intros HM Hb. unfold rnd.
  destruct s; cbn [cond_Zopp].
  - destruct (Z.ltb_spec (- M) 0).
    + rewrite Z.opp_involutive. lia.
    + replace M with 0 by lia. simpl. rewrite RND_0 by assumption.
      assert (0 < top) by (apply pow2_pos; lia). lia.
  - destruct (Z.ltb_spec M 0); [lia | reflexivity].
Qed.

Lemma cond_Zopp_mul (s1 s2 : bool) (a b : Z) :
  cond_Zopp s1 a * cond_Zopp s2 b = cond_Zopp (xorb s1 s2) (a * b).
Proof. destruct s1, s2; cbn [cond_Zopp xorb]; ring. Qed.

Lemma Zdigits2_mul_ge (a b : Z) :
  0 < a -> 0 < b -> Zdigits2 a + Zdigits2 b - 1 <= Zdigits2 (a * b).
Proof.
  intros Ha Hb.
  pose proof (Zdigits2_bounds a Ha) as Ba. pose proof (Zdigits2_bounds b Hb) as Bb.
  pose proof (Zdigits2_bounds (a * b) ltac:(nia)) as Bab.
  pose proof (Zdigits2_pos a Ha). pose proof (Zdigits2_pos b Hb).
  destruct (Z_le_gt_dec (Zdigits2 a + Zdigits2 b - 1) (Zdigits2 (a * b))) as [|G];
    [assumption|exfalso].
  assert (2 ^ Zdigits2 (a * b) <= 2 ^ (Zdigits2 a - 1 + (Zdigits2 b - 1)))
    by (apply Z.pow_le_mono_r; lia).
  rewrite Z.pow_add_r in * by lia. nia.
Qed.

Lemma SFV_mul_finite (sx sy : bool) (mx my : positive) (ex ey : Z) :
  valid_binary (S754_finite sx mx ex) = true ->
  valid_binary (S754_finite sy my ey) = true ->
  SFV (SF64mul (S754_finite sx mx ex) (S754_finite sy my ey))
  = Some (rnd (cond_Zopp sx (Zpos mx * 2 ^ (ex + 1074))
               * cond_Zopp sy (Zpos my * 2 ^ (ey + 1074))) (2 ^ 1074)).
Proof.
  intros Vx Vy.
  apply valid_finite in Vx, Vy. destruct Vx as [Cx [Ex Mx]], Vy as [Cy [Ey My]].
  unfold SF64mul, SFmul.
  set (N := Zpos (mx * my)).
  assert (EN : N = Zpos mx * Zpos my) by reflexivity.
  replace N with (N / 1) at 1 by apply Z.div_1_r.
  rewrite SFV_round_aux.
  - f_equal. rewrite cond_Zopp_mul.
    pose proof (pow2_pos (ex + 1074) ltac:(lia)). pose proof (pow2_pos (ey + 1074) ltac:(lia)).
    rewrite rnd_signed by (try apply pow2_pos; nia).
    do 2 f_equal. unfold scaledNum, scaledDen.
    set (s := ex + ey + 1074).
    pose proof (pow2_pos (Z.max s 0) ltac:(lia)). pose proof (pow2_pos (Z.max (- s) 0) ltac:(lia)).
    apply RND_ext; try nia; try (apply pow2_pos; lia).
    rewrite EN.
    transitivity (Zpos mx * Zpos my * (2 ^ Z.max s 0 * 2 ^ 1074)); [ring|].
    transitivity (Zpos mx * Zpos my
                  * (2 ^ (ex + 1074) * 2 ^ (ey + 1074) * 2 ^ Z.max (- s) 0)); [|ring].
    f_equal. rewrite <- !Z.pow_add_r by lia. f_equal. unfold s. lia.
  - lia.
  - lia.
  - rewrite Z.mod_1_r. exact eq_refl.
  - rewrite Z.div_1_r, fexp_eq. rewrite EN.
    pose proof (Zdigits2_mul_ge (Zpos mx) (Zpos my) ltac:(lia) ltac:(lia)).
    pose proof (Zdigits2_pos (Zpos mx) ltac:(lia)).
    pose proof (Zdigits2_pos (Zpos my) ltac:(lia)). lia.
Qed.

Lemma new_location_located (m r : Z) :
  0 < m -> 0 <= r < m -> located r m (new_location m r).
Proof.
  intros Hm Hr. unfold new_location, new_location_even, new_location_odd.
  destruct (Z.even m) eqn:Ev.
  - destruct (Z.eqb_spec r 0) as [->|NZ]; [reflexivity|].
    destruct (Z.compare_spec (2 * r) m); cbn [located]; lia.
  - destruct (Z.eqb_spec r 0) as [->|NZ]; [reflexivity|].
    assert (Odd : Z.odd m = true) by (rewrite <- Z.negb_even, Ev; reflexivity).
    apply Z.odd_spec in Odd. destruct Odd as [k Hk].
    destruct (Z.compare_spec (2 * r + 1) m); cbn [located]; lia.
Qed.

Lemma div_eucl_div_mod (a b : Z) : Z.div_eucl a b = (a / b, a mod b).
Proof. unfold Z.div, Z.modulo. now destruct (Z.div_eucl a b). Qed.

Lemma SFdiv_core_spec (mx my : positive) (ex ey : Z) :
  let e' := Z.min (fexp prec emax (Zdigits2 (Zpos mx) + ex - (Zdigits2 (Zpos my) + ey)))
                  (ex - ey) in
  let N := Zpos mx * 2 ^ (ex - ey - e') in
  SFdiv_core_binary prec emax (Zpos mx) ex (Zpos my) ey
  = (N / Zpos my, e', new_location (Zpos my) (N mod Zpos my)).
Proof.
  intros e' N. unfold SFdiv_core_binary. fold e'.
  assert (Hs : 0 <= ex - ey - e') by (unfold e'; lia).
  assert (EN : match ex - ey - e' with
               | 0 => Zpos mx
               | Zpos _ => Z.shiftl (Zpos mx) (ex - ey - e')
               | Zneg _ => 0
               end = N).
  { unfold N. destruct (ex - ey - e') as [|p|p] eqn:E; try lia.
    rewrite Z.shiftl_mul_pow2 by lia. reflexivity. }
  rewrite EN, div_eucl_div_mod. reflexivity.
Qed.

Lemma SFV_div_finite (sx sy : bool) (mx my : positive) (ex ey : Z) :
  valid_binary (S754_finite sx mx ex) = true ->
  valid_binary (S754_finite sy my ey) = true ->
  SFV (SF64div (S754_finite sx mx ex) (S754_finite sy my ey))
  = Some (rnd (cond_Zopp (xorb sx sy) (Zpos mx * 2 ^ (ex + 1074) * 2 ^ 1074))
              (Zpos my * 2 ^ (ey + 1074))).
Proof.
  intros Vx Vy.
  apply valid_finite in Vx, Vy. destruct Vx as [Cx [Ex Mx]], Vy as [Cy [Ey My]].
  unfold SF64div, SFdiv. rewrite SFdiv_core_spec.
  set (d1 := Zdigits2 (Zpos mx)) in *. set (d2 := Zdigits2 (Zpos my)) in *.
  set (e' := Z.min (fexp prec emax (d1 + ex - (d2 + ey))) (ex - ey)).
  set (s := ex - ey - e').
  assert (Hs : 0 <= s) by (unfold s, e'; lia).
  pose proof (pow2_pos s Hs) as Ps.
  set (N := Zpos mx * 2 ^ s).
  assert (HN : 0 < N) by (unfold N; nia).
  pose proof (Zdigits2_bounds (Zpos mx) ltac:(lia)) as B1. fold d1 in B1.
  pose proof (Zdigits2_bounds (Zpos my) ltac:(lia)) as B2. fold d2 in B2.
  pose proof (Zdigits2_pos (Zpos mx) ltac:(lia)) as P1. fold d1 in P1.
  pose proof (Zdigits2_pos (Zpos my) ltac:(lia)) as P2. fold d2 in P2.
  pose proof (pow2_pos (ex + 1074) ltac:(lia)) as Px.
  pose proof (pow2_pos (ey + 1074) ltac:(lia)) as Py.
  rewrite SFV_round_aux.
  - f_equal. rewrite rnd_signed by (try apply pow2_pos; nia).
    do 2 f_equal. unfold scaledNum, scaledDen.
    set (t := e' + 1074).
    pose proof (pow2_pos (Z.max t 0) ltac:(lia)). pose proof (pow2_pos (Z.max (- t) 0) ltac:(lia)).
    apply RND_ext; try nia.
    unfold N.
    transitivity (Zpos mx * Zpos my * (2 ^ s * 2 ^ Z.max t 0 * 2 ^ (ey + 1074))); [ring|].
    transitivity (Zpos mx * Zpos my * (2 ^ (ex + 1074) * 2 ^ 1074 * 2 ^ Z.max (- t) 0)); [|ring].
    f_equal. rewrite <- !Z.pow_add_r by lia. f_equal. unfold s, t. lia.
  - lia.
  - lia.
  - apply new_location_located; [lia|]. apply Z.mod_pos_bound. lia.
  - (* the quotient has enough digits for the chosen exponent *)
    set (q := N / Zpos my).
    assert (Hq0 : 0 <= q) by (apply Z.div_pos; lia).
    pose proof (Zdigits2_nonneg q) as Hdq.
    assert (Hdig : d1 + s - d2 <= Zdigits2 q).
    { destruct (Z_le_gt_dec (d1 + s - d2) (Zdigits2 q)) as [|G]; [assumption|exfalso].
      assert (Hq1 : q + 1 <= 2 ^ Zdigits2 q).
      { destruct (Z.eq_dec q 0) as [->|NZ]; [simpl; lia|].
        pose proof (Zdigits2_bounds q ltac:(lia)). lia. }
      pose proof (Z.div_mod N (Zpos my) ltac:(lia)) as DM. fold q in DM.
      pose proof (Z.mod_pos_bound N (Zpos my) ltac:(lia)) as MB.
      assert (Hlow : 2 ^ (Zdigits2 q + d2) <= 2 ^ (d1 - 1 + s))
        by (apply Z.pow_le_mono_r; lia).
      rewrite !Z.pow_add_r in Hlow by lia.
      pose proof (pow2_pos (Zdigits2 q) Hdq). pose proof (pow2_pos d2 ltac:(lia)).
      unfold N in *. nia. }
    clearbody q N. clear B1 B2 Px Py Ps.
    unfold s, e' in *. rewrite !fexp_eq in *. lia.
Qed.

Lemma Pos_iter_xO (m d : positive) : Zpos (Pos.iter xO m d) = Zpos m * 2 ^ Zpos d.
Proof.
  induction d as [|d IH] using Pos.peano_ind.
  - change (Pos.iter xO m 1) with (m~0)%positive. lia.
  - rewrite Pos.iter_succ, Pos2Z.inj_xO, IH, Pos2Z.inj_succ, Z.pow_succ_r by lia. ring.
Qed.

Lemma shl_align_spec (mx : positive) (ex ex' : Z) :
  snd (shl_align mx ex ex') = Z.min ex ex' /\
  Zpos (fst (shl_align mx ex ex')) = Zpos mx * 2 ^ (ex - Z.min ex ex').
Proof.
  unfold shl_align. destruct (ex' - ex) as [|p|p] eqn:E; cbn [fst snd].
  - split; [lia|]. replace (ex - Z.min ex ex') with 0 by lia. lia.
  - split; [lia|]. replace (ex - Z.min ex ex') with 0 by lia. lia.
  - split; [lia|]. rewrite Pos_iter_xO. f_equal. f_equal. lia.
Qed.

Lemma Zdigits2_shift (m : positive) (k : Z) :
  0 <= k -> Zdigits2 (Zpos m * 2 ^ k) = Zdigits2 (Zpos m) + k.
Proof.
  intro Hk. pose proof (pow2_pos k Hk).
  destruct (Zpos m * 2 ^ k) as [|p|p] eqn:E; try lia.
  rewrite !Zdigits2_log2, <- E, Z.log2_mul_pow2 by lia. lia.
Qed.

Lemma SFV_binary_round (s : bool) (m : positive) (e : Z) :
  -1074 <= e ->
  SFV (binary_round prec emax s m e)
  = Some (cond_Zopp s (Z.min top (RND (Zpos m * 2 ^ (e + 1074)) 1))).
Proof.
  intro He. unfold binary_round.
  pose proof (shl_align_spec m e (fexp prec emax (Zpos (digits2_pos m) + e))) as [E1 E2].
  destruct (shl_align m e (fexp prec emax (Z.pos (digits2_pos m) + e))) as [mz ez].
  cbn [fst snd] in E1, E2.
  change (Z.pos (digits2_pos m)) with (Zdigits2 (Zpos m)) in E1, E2.
  rewrite fexp_eq in E1, E2.
  assert (Hez : -1074 <= ez <= e) by lia.
  replace (Zpos mz) with (Zpos mz / 1) at 1 by apply Z.div_1_r.
  rewrite SFV_round_aux.
  - do 3 f_equal. unfold scaledNum, scaledDen.
    rewrite Z.max_l, Z.max_r by lia. rewrite Z.pow_0_r, E2, <- E1. f_equal.
    rewrite <- Z.mul_assoc, <- Z.pow_add_r by lia. do 2 f_equal. lia.
  - lia.
  - lia.
  - rewrite Z.mod_1_r. exact eq_refl.
  - rewrite Z.div_1_r, E2, Zdigits2_shift, fexp_eq by lia. lia.
Qed.

Lemma SFV_binary_normalize (n e : Z) :
  -1074 <= e ->
  SFV (binary_normalize prec emax n e false) = Some (rnd (n * 2 ^ (e + 1074)) 1).
Proof.
  intro He. pose proof (pow2_pos (e + 1074) ltac:(lia)) as P.
  destruct n as [|p|p]; cbn [binary_normalize].
  - cbn [SFV]. rewrite Z.mul_0_l, rnd_0 by lia. reflexivity.
  - rewrite SFV_binary_round by exact He.
    rewrite <- (rnd_signed false) by nia. reflexivity.
  - rewrite SFV_binary_round by exact He.
    rewrite <- (rnd_signed true) by nia. cbn [cond_Zopp].
    do 2 f_equal. lia.
Qed.

Lemma SFV_add_finite (sx sy : bool) (mx my : positive) (ex ey : Z) :
  valid_binary (S754_finite sx mx ex) = true ->
  valid_binary (S754_finite sy my ey) = true ->
  SFV (SF64add (S754_finite sx mx ex) (S754_finite sy my ey))
  = Some (rnd (cond_Zopp sx (Zpos mx * 2 ^ (ex + 1074))
               + cond_Zopp sy (Zpos my * 2 ^ (ey + 1074))) 1).
Proof.
  intros Vx Vy.
  apply valid_finite in Vx, Vy. destruct Vx as [Cx [Ex Mx]], Vy as [Cy [Ey My]].
  unfold SF64add, SFadd.
  set (ez := Z.min ex ey).
  pose proof (shl_align_spec mx ex ez) as [_ E1].
  pose proof (shl_align_spec my ey ez) as [_ E2].
  rewrite E1, E2, SFV_binary_normalize by (unfold ez; lia).
  f_equal. f_equal.
  replace (Z.min ex ez) with ez by (unfold ez; lia).
  replace (Z.min ey ez) with ez by (unfold ez; lia).
  assert (Hx : 2 ^ (ex + 1074) = 2 ^ (ex - ez) * 2 ^ (ez + 1074))
    by (rewrite <- Z.pow_add_r by (unfold ez; lia); f_equal; lia).
  assert (Hy : 2 ^ (ey + 1074) = 2 ^ (ey - ez) * 2 ^ (ez + 1074))
    by (rewrite <- Z.pow_add_r by (unfold ez; lia); f_equal; lia).
  rewrite Hx, Hy. destruct sx, sy; cbn [cond_Zopp]; ring.
Qed.

(** ** Order *)

Lemma finite_value_range (s : bool) (m : positive) (e : Z) :
  valid_binary (S754_finite s m e) = true ->
  0 < Zpos m * 2 ^ (e + 1074) < top.
Proof.
  intro V. apply valid_finite in V. destruct V as [C [E M]].
  pose proof (pow2_pos (e + 1074) ltac:(lia)) as P.
  split; [nia|].
  assert (2 ^ (e + 1074) <= 2 ^ 2045) by (apply Z.pow_le_mono_r; lia).
  unfold top. replace (2 ^ 2098) with (2 ^ 53 * 2 ^ 2045) by reflexivity. nia.
Qed.

Lemma finite_value_exp_lt (s1 s2 : bool) (m1 m2 : positive) (e1 e2 : Z) :
  valid_binary (S754_finite s1 m1 e1) = true ->
  valid_binary (S754_finite s2 m2 e2) = true ->
  e1 < e2 -> Zpos m1 * 2 ^ (e1 + 1074) < Zpos m2 * 2 ^ (e2 + 1074).
Proof.
  intros V1 V2 H. apply valid_finite in V1, V2.
  destruct V1 as [C1 [E1 M1]], V2 as [C2 [E2 M2]].
  pose proof (Zdigits2_bounds (Zpos m2) ltac:(lia)) as B2.
  assert (D2 : Zdigits2 (Zpos m2) = 53) by lia.
  rewrite D2 in B2. change (2 ^ (53 - 1)) with (2 ^ 52) in B2.
  pose proof (pow2_pos (e1 + 1074) ltac:(lia)) as P1.
  assert (2 * 2 ^ (e1 + 1074) <= 2 ^ (e2 + 1074)).
  { replace (2 * 2 ^ (e1 + 1074)) with (2 ^ (e1 + 1 + 1074)).
    - apply Z.pow_le_mono_r; lia.
    - replace (e1 + 1 + 1074) with (1 + (e1 + 1074)) by lia.
      rewrite Z.pow_add_r by lia. reflexivity. }
  change (2 ^ 53) with (2 * 2 ^ 52) in M1. nia.
Qed.

Lemma SFcompare_finite (s1 s2 : bool) (m1 m2 : positive) (e1 e2 : Z) :
  valid_binary (S754_finite s1 m1 e1) = true ->
  valid_binary (S754_finite s2 m2 e2) = true ->
  SFcompare (S754_finite s1 m1 e1) (S754_finite s2 m2 e2)
  = Some (cond_Zopp s1 (Zpos m1 * 2 ^ (e1 + 1074))
          ?= cond_Zopp s2 (Zpos m2 * 2 ^ (e2 + 1074))).
Proof.
  intros V1 V2.
  pose proof (finite_value_range _ _ _ V1) as R1.
  pose proof (finite_value_range _ _ _ V2) as R2.
  pose proof (finite_value_exp_lt s1 s2 m1 m2 e1 e2 V1 V2) as L12.
  pose proof (finite_value_exp_lt s2 s1 m2 m1 e2 e1 V2 V1) as L21.
  assert (Eqe : e1 = e2 ->
                (Zpos m1 * 2 ^ (e1 + 1074) ?= Zpos m2 * 2 ^ (e2 + 1074)) = (m1 ?= m2)%positive).
  { intros ->.
    assert (2 ^ (e2 + 1074) > 0)
      by (apply Z.lt_gt, pow2_pos; apply valid_finite in V2; lia).
    rewrite <- Zmult_compare_compat_r by assumption. reflexivity. }
  assert (Sw : forall c : comparison, Pos.switch_Eq Eq c = c) by (now intros []).
  cbn [SFcompare]. f_equal. rewrite Pos.compare_cont_spec, Sw.
  destruct s1, s2; cbn [cond_Zopp].
  - destruct (Z.compare_spec e1 e2) as [E|E|E].
    + rewrite <- (Eqe E), Z.compare_opp. symmetry. apply Z.compare_antisym.
    + specialize (L12 E). symmetry. apply Z.compare_gt_iff. lia.
    + specialize (L21 E). symmetry. apply Z.compare_lt_iff. lia.
  - symmetry. apply Z.compare_lt_iff. lia.
  - symmetry. apply Z.compare_gt_iff. lia.
  - destruct (Z.compare_spec e1 e2) as [E|E|E].
    + now rewrite (Eqe E).
    + specialize (L12 E). symmetry. apply Z.compare_lt_iff. lia.
    + specialize (L21 E). symmetry. apply Z.compare_gt_iff. lia.
Qed.

Lemma SFcompare_SFV (x y : spec_float) (a b : Z) :
  valid_binary x = true -> valid_binary y = true ->
  SFV x = Some a -> SFV y = Some b ->
  SFcompare x y = Some (a ?= b).
Proof.
  intros Vx Vy Hx Hy.
  assert (0 < top) by (apply pow2_pos; lia).
  destruct x as [sx|sx| |sx mx ex], y as [sy|sy| |sy my ey];
    cbn [SFV] in Hx, Hy; try discriminate;
    apply (f_equal (fun o => match o with Some v => v | None => 0 end)) in Hx, Hy;
    cbv beta iota in Hx, Hy; subst a b;
    try pose proof (finite_value_range _ _ _ Vx);
    try pose proof (finite_value_range _ _ _ Vy).
  - reflexivity.
  - cbn [SFcompare]. f_equal. symmetry.
    destruct sy; [apply Z.compare_gt_iff | apply Z.compare_lt_iff]; lia.
  - cbn [SFcompare]. f_equal. symmetry.
    destruct sy; cbn [cond_Zopp]; [apply Z.compare_gt_iff | apply Z.compare_lt_iff]; lia.
  - cbn [SFcompare]. f_equal. symmetry.
    destruct sx; [apply Z.compare_lt_iff | apply Z.compare_gt_iff]; lia.
  - cbn [SFcompare]. f_equal. symmetry.
    destruct sx, sy; try apply Z.compare_refl;
      [apply Z.compare_lt_iff | apply Z.compare_gt_iff]; lia.
  - cbn [SFcompare]. f_equal. symmetry.
    destruct sx, sy; cbn [cond_Zopp];
      first [apply Z.compare_lt_iff; lia | apply Z.compare_gt_iff; lia].
  - cbn [SFcompare]. f_equal. symmetry.
    destruct sx; cbn [cond_Zopp]; [apply Z.compare_lt_iff | apply Z.compare_gt_iff]; lia.
  - cbn [SFcompare]. f_equal. symmetry.
    destruct sx, sy; cbn [cond_Zopp];
      first [apply Z.compare_lt_iff; lia | apply Z.compare_gt_iff; lia].
  - now apply SFcompare_finite.
Qed.

(** ** Primitive floats *)

Definition FV (x : float) : option Z := SFV (Prim2SF x).

Lemma SFV_None (x : spec_float) : SFV x = None -> x = S754_nan.
Proof. destruct x; cbn [SFV]; congruence. Qed.

Lemma FV_compare (x y : float) :
  SFcompare (Prim2SF x) (Prim2SF y)
  = match FV x, FV y with
    | Some a, Some b => Some (a ?= b)
    | _, _ => None
    end.
Proof.
  unfold FV.
  destruct (SFV (Prim2SF x)) as [a|] eqn:Hx.
  - destruct (SFV (Prim2SF y)) as [b|] eqn:Hy.
    + apply SFcompare_SFV; auto using Prim2SF_valid.
    + apply SFV_None in Hy. rewrite Hy. now destruct (Prim2SF x).
  - apply SFV_None in Hx. now rewrite Hx.
Qed.

Lemma FV_ltb (x y : float) :
  (x <? y)%float
  = match FV x, FV y with Some a, Some b => a <? b | _, _ => false end.
Proof.
  rewrite FloatAxioms.ltb_spec. unfold SFltb. rewrite FV_compare.
  destruct (FV x), (FV y); reflexivity.
Qed.

Lemma FV_leb (x y : float) :
  (x <=? y)%float
  = match FV x, FV y with Some a, Some b => a <=? b | _, _ => false end.
Proof.
  rewrite FloatAxioms.leb_spec. unfold SFleb. rewrite FV_compare.
  destruct (FV x) as [a|], (FV y) as [b|]; reflexivity.
Qed.

Lemma FV_eqb (x y : float) :
  (x =? y)%float
  = match FV x, FV y with Some a, Some b => a =? b | _, _ => false end.
Proof.
  rewrite FloatAxioms.eqb_spec. unfold SFeqb. rewrite FV_compare.
  destruct (FV x) as [a|], (FV y) as [b|]; try reflexivity.
  destruct (Z.compare_spec a b), (Z.eqb_spec a b); reflexivity || lia.
Qed.

Lemma FV_range (x : float) (a : Z) : FV x = Some a -> - top <= a <= top.
Proof.
  unfold FV. pose proof (Prim2SF_valid x) as V.
  assert (0 < top) by (apply pow2_pos; lia).
  destruct (Prim2SF x) as [s|s| |s m e]; cbn [SFV]; try discriminate;
    intro E; apply (f_equal (fun o => match o with Some v => v | None => 0 end)) in E;
    cbv beta iota in E; subst a.
  - lia.
  - destruct s; lia.
  - pose proof (finite_value_range _ _ _ V). destruct s; cbn [cond_Zopp]; lia.
Qed.

(** A value a number has is kept by rounding. *)
Lemma rnd_value (s : bool) (m : positive) (e : Z) :
  valid_binary (S754_finite s m e) = true ->
  rnd (cond_Zopp s (Zpos m * 2 ^ (e + 1074))) 1 = cond_Zopp s (Zpos m * 2 ^ (e + 1074)).
Proof.
  intro V. pose proof (finite_value_range _ _ _ V) as R.
  apply valid_finite in V. destruct V as [C [E M]].
  rewrite rnd_signed by lia. f_equal.
  rewrite <- (Z.mul_1_r (Zpos m * 2 ^ (e + 1074))) at 1.
  rewrite RND_exact by lia. lia.
Qed.

Ltac sfv_inj H a :=
  apply (f_equal (fun o => match o with Some v => v | None => 0 end)) in H;
  cbv beta iota in H; subst a.

Lemma FV_add (x y : float) (a b : Z) :
  FV x = Some a -> FV y = Some b -> - top < a < top -> - top < b < top ->
  FV (x + y) = Some (rnd (a + b) 1).
Proof.
  unfold FV. rewrite FloatAxioms.add_spec.
  pose proof (Prim2SF_valid x) as Vx. pose proof (Prim2SF_valid y) as Vy.
  destruct (Prim2SF x) as [sx|sx| |sx mx ex], (Prim2SF y) as [sy|sy| |sy my ey];
    cbn [SFV]; try discriminate; intros Hx Hy Ra Rb; sfv_inj Hx a; sfv_inj Hy b;
    try (destruct sx; lia); try (destruct sy; lia).
  - rewrite rnd_0 by lia. destruct sx, sy; reflexivity.
  - unfold SF64add, SFadd. cbn [SFV]. now rewrite Z.add_0_l, rnd_value.
  - unfold SF64add, SFadd. cbn [SFV]. now rewrite Z.add_0_r, rnd_value.
  - now apply SFV_add_finite.
Qed.

Lemma RND_top (b : Z) : 0 < b -> RND (top * b) b = top.
Proof.
  intro Hb. unfold top.
  replace (2 ^ 2098 * b) with (1 * 2 ^ 2098 * b) by ring.
  rewrite RND_exact; lia.
Qed.

Lemma rnd_overflow (a b : Z) : 0 < b -> top * b <= a -> rnd a b = top.
Proof.
  intros Hb H. assert (0 < top) by (apply pow2_pos; lia).
  unfold rnd. destruct (Z.ltb_spec a 0); [nia|].
  assert (top <= RND a b); [|lia].
  rewrite <- (RND_top b Hb). apply RND_mono; nia.
Qed.

Lemma rnd_underflow (a b : Z) : 0 < b -> a <= - top * b -> rnd a b = - top.
Proof.
  intros Hb H. assert (0 < top) by (apply pow2_pos; lia).
  unfold rnd. destruct (Z.ltb_spec a 0); [|nia].
  assert (top <= RND (- a) b); [|lia].
  rewrite <- (RND_top b Hb). apply RND_mono; nia.
Qed.

(** Multiplication by a number that is at least 1. *)
Lemma FV_mul (x y : float) (a b : Z) :
  FV x = Some a -> FV y = Some b -> 2 ^ 1074 <= b < top ->
  FV (x * y) = Some (rnd (a * b) (2 ^ 1074)).
Proof.
  unfold FV. rewrite FloatAxioms.mul_spec.
  pose proof (Prim2SF_valid x) as Vx. pose proof (Prim2SF_valid y) as Vy.
  assert (0 < top) by (apply pow2_pos; lia).
  assert (P : 0 < 2 ^ 1074) by (apply pow2_pos; lia).
  destruct (Prim2SF x) as [sx|sx| |sx mx ex], (Prim2SF y) as [sy|sy| |sy my ey];
    cbn [SFV]; try discriminate; intros Hx Hy Rb; sfv_inj Hx a; sfv_inj Hy b;
    try lia; try (destruct sy; lia).
  - unfold SF64mul, SFmul. cbn [SFV]. now rewrite Z.mul_0_l, rnd_0.
  - pose proof (finite_value_range _ _ _ Vy).
    assert (sy = false) by (destruct sy; cbn [cond_Zopp] in Rb; [lia | reflexivity]).
    subst sy. cbn [cond_Zopp] in *.
    unfold SF64mul, SFmul. cbn [SFV xorb]. rewrite xorb_false_r.
    destruct sx.
    + rewrite rnd_underflow; [reflexivity | lia | nia].
    + rewrite rnd_overflow; [reflexivity | lia | nia].
  - now apply SFV_mul_finite.
Qed.

(** Division by a positive finite number. *)
Lemma FV_div (x y : float) (a b : Z) :
  FV x = Some a -> FV y = Some b -> - top < a < top -> 0 < b < top ->
  FV (x / y) = Some (rnd (a * 2 ^ 1074) b).
Proof.
  unfold FV. rewrite FloatAxioms.div_spec.
  pose proof (Prim2SF_valid x) as Vx. pose proof (Prim2SF_valid y) as Vy.
  destruct (Prim2SF x) as [sx|sx| |sx mx ex], (Prim2SF y) as [sy|sy| |sy my ey];
    cbn [SFV]; try discriminate; intros Hx Hy Ra Rb; sfv_inj Hx a; sfv_inj Hy b;
    try lia; try (destruct sx; lia); try (destruct sy; lia).
  - unfold SF64div, SFdiv. cbn [SFV]. now rewrite Z.mul_0_l, rnd_0.
  - pose proof (finite_value_range _ _ _ Vy).
    assert (sy = false) by (destruct sy; cbn [cond_Zopp] in Rb; [lia | reflexivity]).
    subst sy. cbn [cond_Zopp] in *.
    rewrite SFV_div_finite by assumption. rewrite xorb_false_r.
    do 2 f_equal. destruct sx; cbn [cond_Zopp]; ring.
Qed.

(** Division of a finite number by +infinity. *)
Lemma FV_div_inf (x y : float) (a : Z) :
  FV x = Some a -> FV y = Some top -> - top < a < top -> FV (x / y) = Some 0.
Proof.
  unfold FV. rewrite FloatAxioms.div_spec.
  pose proof (Prim2SF_valid y) as Vy.
  assert (0 < top) by (apply pow2_pos; lia).
  destruct (Prim2SF x) as [sx|sx| |sx mx ex], (Prim2SF y) as [sy|sy| |sy my ey];
    cbn [SFV]; try discriminate; intros Hx Hy Ra; sfv_inj Hx a;
    try (destruct sx; lia);
    try (apply (f_equal (fun o => match o with Some v => v | None => 0 end)) in Hy;
         cbv beta iota in Hy);
    try lia; try reflexivity;
    try (pose proof (finite_value_range _ _ _ Vy); destruct sy; cbn [cond_Zopp] in Hy; lia).
Qed.

(** ** The numbers of the engine *)

Lemma SFopp_round_aux (mx ex : Z) (lx : location) :
  binary_round_aux prec emax true mx ex lx
  = SFopp (binary_round_aux prec emax false mx ex lx).
Proof.
  unfold binary_round_aux.
  destruct (shr_fexp prec emax mx ex lx) as [mrs' e'].
  destruct (shr_fexp prec emax _ e' loc_Exact) as [mrs'' e''].
  destruct (shr_m mrs''); try reflexivity.
  now destruct (e'' <=? emax - prec).
Qed.

Lemma valid_SFopp (x : spec_float) : valid_binary (SFopp x) = valid_binary x.
Proof. now destruct x. Qed.

Lemma valid_normalize (n : Z) :
  - 2 ^ 63 < n < 2 ^ 63 -> valid_binary (binary_normalize prec emax n 0 false) = true.
Proof.
  intro Hn.
  assert (Hpos : forall p, Zpos p < 2 ^ 63 ->
            valid_binary (binary_normalize prec emax (Zpos p) 0 false) = true).
  { intros p Hp.
    pose proof (of_uint63_spec (Uint63.of_Z (Zpos p))) as S.
    rewrite Uint63.of_Z_spec, Z.mod_small in S by (change Uint63.wB with (2 ^ 63); lia).
    rewrite <- S. apply Prim2SF_valid. }
  destruct n as [|p|p].
  - reflexivity.
  - apply Hpos. lia.
  - specialize (Hpos p ltac:(lia)). cbn [binary_normalize] in *.
    unfold binary_round in *.
    destruct (shl_align p 0 (fexp prec emax (Z.pos (digits2_pos p) + 0))) as [mz ez].
    now rewrite SFopp_round_aux, valid_SFopp.
Qed.

Lemma FV_Z2F (n : Z) : - 2 ^ 53 <= n <= 2 ^ 53 -> FV (JS.Z2F n) = Some (n * 2 ^ 1074).
Proof.
  intro Hn. unfold FV, JS.Z2F.
  rewrite Prim2SF_SF2Prim by (apply valid_normalize; lia).
  rewrite SFV_binary_normalize by lia. f_equal.
  change (0 + 1074) with 1074.
  assert (P : 0 < 2 ^ 1074) by (apply pow2_pos; lia).
  assert (E : forall m, 0 <= m <= 2 ^ 53 -> Z.min top (RND (m * 2 ^ 1074) 1) = m * 2 ^ 1074).
  { intros m Hm. destruct (Z.eq_dec m (2 ^ 53)) as [->|NE].
    - replace (2 ^ 53 * 2 ^ 1074) with (1 * 2 ^ 1127 * 1) by reflexivity.
      rewrite RND_exact by lia. reflexivity.
    - rewrite <- (Z.mul_1_r (m * 2 ^ 1074)) at 1. rewrite RND_exact by lia.
      assert (m * 2 ^ 1074 < top); [|lia].
      unfold top. replace (2 ^ 2098) with (2 ^ 1024 * 2 ^ 1074) by reflexivity.
      assert (2 ^ 53 < 2 ^ 1024) by reflexivity. nia. }
  destruct (Z_lt_ge_dec n 0) as [Neg|Pos].
  - replace (n * 2 ^ 1074) with (cond_Zopp true ((- n) * 2 ^ 1074)) by (cbn [cond_Zopp]; ring).
    rewrite rnd_signed by nia. now rewrite E by lia.
  - change (n * 2 ^ 1074) with (cond_Zopp false (n * 2 ^ 1074)) at 1.
    rewrite rnd_signed by nia. now rewrite E by lia.
Qed.

Lemma FV_not_nan (x : float) (a : Z) : FV x = Some a -> is_nan x = false.
Proof.
  intro H. unfold is_nan. rewrite FV_eqb, H. now rewrite Z.eqb_refl.
Qed.

Lemma FV_min (x y : float) (a b : Z) :
  FV x = Some a -> FV y = Some b -> FV (JS.Math_min x y) = Some (Z.min a b).
Proof.
  intros Hx Hy. unfold JS.Math_min.
  rewrite (FV_not_nan x a Hx), (FV_not_nan y b Hy). cbn [orb].
  rewrite !FV_ltb, Hx, Hy.
  destruct (Z.ltb_spec a b); [rewrite Hx; f_equal; lia|].
  destruct (Z.ltb_spec b a); [rewrite Hy; f_equal; lia|].
  destruct (get_sign x); [rewrite Hx | rewrite Hy]; f_equal; lia.
Qed.

(** [Math.round] on values: the nearest multiple of one, a half going up. *)
Definition roundv (a : Z) : Z := (2 * a + 2 ^ 1074) / 2 ^ 1075 * 2 ^ 1074.

Lemma roundv_mono (a a' : Z) : a <= a' -> roundv a <= roundv a'.
Proof.
  intro H. unfold roundv.
  apply Z.mul_le_mono_nonneg_r; [apply Z.pow_nonneg; lia|].
  apply Z.div_le_mono; [apply pow2_pos; lia | lia].
Qed.

Lemma roundv_int (n : Z) : roundv (n * 2 ^ 1074) = n * 2 ^ 1074.
Proof.
  unfold roundv. f_equal.
  assert (P : 0 < 2 ^ 1074) by (apply pow2_pos; lia).
  replace (2 * (n * 2 ^ 1074) + 2 ^ 1074) with ((2 * n + 1) * 2 ^ 1074) by ring.
  replace (2 ^ 1075) with (2 * 2 ^ 1074) by reflexivity.
  rewrite Z.div_mul_cancel_r by lia.
  symmetry. apply (Z.div_unique_pos _ _ _ 1); lia.
Qed.

Lemma FV_signedZero (s : bool) : FV (JS.signedZero s) = Some 0.
Proof. destruct s; reflexivity. Qed.

Lemma FV_round (x : float) (a : Z) :
  FV x = Some a -> - top < a < top -> FV (JS.Math_round x) = Some (roundv a).
Proof.
  unfold FV, JS.Math_round. intros Hx Ra.
  pose proof (Prim2SF_valid x) as V.
  assert (Ht : 0 < top) by (apply pow2_pos; lia).
  destruct (Prim2SF x) as [s|s| |s m e] eqn:E; cbn [SFV] in Hx; try discriminate;
    sfv_inj Hx a.
  - rewrite E. reflexivity.
  - destruct s; lia.
  - pose proof (valid_finite _ _ _ V) as [C [Ee M]].
    set (v := if s then Zneg m else Zpos m).
    assert (Ev : cond_Zopp s (Zpos m * 2 ^ (e + 1074)) = v * 2 ^ (e + 1074))
      by (unfold v; destruct s; cbn [cond_Zopp]; lia).
    assert (Hv : - 2 ^ 53 < v < 2 ^ 53) by (unfold v; destruct s; lia).
    destruct (Z.leb_spec 0 e) as [He|He].
    + rewrite E. cbn [SFV]. f_equal. rewrite Ev.
      replace (v * 2 ^ (e + 1074)) with (v * 2 ^ e * 2 ^ 1074)
        by (rewrite Z.pow_add_r by lia; ring).
      now rewrite roundv_int.
    + set (k := - e).
      assert (Hk : 0 < k <= 1074) by (unfold k; lia).
      pose proof (pow2_pos k ltac:(lia)) as Pk.
      pose proof (pow2_pos (1074 - k) ltac:(lia)) as Pk'.
      set (n := (2 * v + 2 ^ k) / 2 ^ (k + 1)).
      assert (En : roundv (cond_Zopp s (Zpos m * 2 ^ (e + 1074))) = n * 2 ^ 1074).
      { rewrite Ev. unfold roundv. f_equal. unfold n.
        replace (e + 1074) with (1074 - k) by (unfold k; lia).
        replace (2 * (v * 2 ^ (1074 - k)) + 2 ^ 1074)
          with ((2 * v + 2 ^ k) * 2 ^ (1074 - k)).
        - replace (2 ^ 1075) with (2 ^ (k + 1) * 2 ^ (1074 - k)).
          + apply Z.div_mul_cancel_r; [apply Z.pow_nonzero; lia | lia].
          + rewrite <- Z.pow_add_r by lia. f_equal. lia.
        - replace (2 ^ 1074) with (2 ^ k * 2 ^ (1074 - k)).
          + ring.
          + rewrite <- Z.pow_add_r by lia. f_equal. lia. }
      rewrite En.
      assert (Hn : - 2 ^ 53 <= n <= 2 ^ 53).
      { unfold n. rewrite Z.pow_add_r by lia. change (2 ^ 1) with 2.
        split.
        - apply Z.div_le_lower_bound; nia.
        - apply Z.div_le_upper_bound; nia. }
      fold n. destruct (Z.eqb_spec n 0) as [E0|NE].
      * rewrite E0. apply FV_signedZero.
      * apply FV_Z2F. exact Hn.
Qed.

(** An integral value is the integer [JS.toZ] reads. *)
Lemma toZ_value (x : float) (n : Z) :
  - 2 ^ 1024 < n < 2 ^ 1024 -> FV x = Some (n * 2 ^ 1074) -> JS.toZ x = Some n.
Proof.
  unfold FV, JS.toZ. pose proof (Prim2SF_valid x) as V.
  assert (P : 0 < 2 ^ 1074) by (apply pow2_pos; lia).
  assert (Ht : 0 < top) by (apply pow2_pos; lia).
  intro Hn.
  destruct (Prim2SF x) as [s|s| |s m e]; cbn [SFV]; try discriminate; intro H;
    apply (f_equal (fun o => match o with Some v => v | None => 0 end)) in H;
    cbv beta iota in H.
  - f_equal. nia.
  - exfalso.
    assert (top = 2 ^ 1024 * 2 ^ 1074) by reflexivity.
    destruct s; nia.
  - pose proof (valid_finite _ _ _ V) as [C [Ee M]].
    set (v := if s then Zneg m else Zpos m).
    assert (Ev : cond_Zopp s (Zpos m * 2 ^ (e + 1074)) = v * 2 ^ (e + 1074))
      by (unfold v; destruct s; cbn [cond_Zopp]; lia).
    rewrite Ev in H.
    destruct (Z.leb_spec 0 e) as [He|He].
    + f_equal. rewrite Z.pow_add_r in H by lia. nia.
    + set (k := - e) in *.
      assert (Hk : 0 < k <= 1074) by (unfold k; lia).
      pose proof (pow2_pos k ltac:(lia)) as Pk.
      pose proof (pow2_pos (1074 - k) ltac:(lia)) as Pk'.
      assert (Hv : v = n * 2 ^ k).
      { replace (e + 1074) with (1074 - k) in H by (unfold k; lia).
        replace (2 ^ 1074) with (2 ^ k * 2 ^ (1074 - k)) in H
          by (rewrite <- Z.pow_add_r by lia; f_equal; lia).
        nia. }
      assert (Hm : Zpos m mod 2 ^ k = 0).
      { replace (Zpos m) with (Z.abs v) by (unfold v; destruct s; reflexivity).
        rewrite Hv, Z.abs_mul, (Z.abs_eq (2 ^ k)) by lia. apply Z.mod_mul. lia. }
      rewrite Hm. cbn [Z.eqb]. f_equal. rewrite Hv. apply Z.div_mul. lia.
Qed.


(** ** Weekly score *)

(** One, in units of 2^-1074. *)
Definition unit : Z := 2 ^ 1074.

Lemma FV_consts :
  FV 60 = Some (60 * unit) /\ FV 50 = Some (50 * unit) /\ FV 30 = Some (30 * unit) /\
  FV 20 = Some (20 * unit) /\ FV 15 = Some (15 * unit) /\ FV 7 = Some (7 * unit) /\
  FV 0 = Some 0 /\ FV infinity = Some top.
Proof. repeat split; vm_compute; reflexivity. Qed.

(** The value of [min(n / d * c, c)] for an integer [n] and constants [d], [c]. *)
Definition ratioValue (n d c : Z) : Z :=
  Z.min (rnd (rnd (n * unit * unit) (d * unit) * (c * unit)) unit) (c * unit).

(** The value of the weekly score, from the value [h] of the target, the
    total minutes, the number of consistent days and the streak. *)
Definition scoreValue (h total consistentDays streak : Z) : Z :=
  let targetMinutes := rnd (h * (60 * unit)) unit in
  let quotient := if targetMinutes <? top then rnd (total * unit * unit) targetMinutes else 0 in
  let progressScore := Z.min (rnd (quotient * (50 * unit)) unit) (50 * unit) in
  roundv (rnd (rnd (progressScore + ratioValue consistentDays 15 30) 1
               + ratioValue streak 7 20) 1).

Lemma unit_pos : 0 < unit.
Proof. apply pow2_pos. lia. Qed.

Lemma top_unit : top = 2 ^ 1024 * unit.
Proof. reflexivity. Qed.

Lemma rnd_nonneg (a b : Z) : 0 <= a -> 0 < b -> 0 <= rnd a b.
Proof.
  intros Ha Hb. rewrite <- (rnd_0 b Hb). apply rnd_mono; lia.
Qed.

(** An integer of at most 53 bits, over any denominator, rounds to itself. *)
Lemma rnd_int (n b : Z) :
  - 2 ^ 53 <= n <= 2 ^ 53 -> 0 < b -> rnd (n * unit * b) b = n * unit.
Proof.
  intros Hn Hb. pose proof unit_pos as U.
  assert (E : forall m, 0 <= m <= 2 ^ 53 -> Z.min top (RND (m * unit * b) b) = m * unit).
  { intros m Hm. unfold unit. destruct (Z.eq_dec m (2 ^ 53)) as [->|NE].
    - replace (2 ^ 53 * 2 ^ 1074 * b) with (1 * 2 ^ 1127 * b) by reflexivity.
      rewrite RND_exact by lia. reflexivity.
    - rewrite RND_exact by lia.
      assert (m * 2 ^ 1074 < top); [|lia].
      unfold top. replace (2 ^ 2098) with (2 ^ 1024 * 2 ^ 1074) by reflexivity.
      assert (2 ^ 53 < 2 ^ 1024) by reflexivity. nia. }
  destruct (Z_lt_ge_dec n 0) as [Neg|Pos].
  - replace (n * unit * b) with (cond_Zopp true ((- n) * unit * b)) by (cbn [cond_Zopp]; ring).
    rewrite rnd_signed by nia. rewrite E by lia. cbn [cond_Zopp]. ring.
  - change (n * unit * b) with (cond_Zopp false (n * unit * b)).
    rewrite rnd_signed by nia. now rewrite E by lia.
Qed.

Lemma rnd_int1 (n : Z) : - 2 ^ 53 <= n <= 2 ^ 53 -> rnd (n * unit) 1 = n * unit.
Proof.
  intro Hn. rewrite <- (rnd_int n 1) at 2 by lia. now rewrite Z.mul_1_r.
Qed.

Lemma ratioValue_range (n d c : Z) :
  0 <= n -> 0 < d -> 0 <= c -> 0 <= ratioValue n d c <= c * unit.
Proof.
  intros Hn Hd Hc. pose proof unit_pos as U. unfold ratioValue.
  assert (0 <= rnd (n * unit * unit) (d * unit)) by (apply rnd_nonneg; nia).
  assert (0 <= rnd (rnd (n * unit * unit) (d * unit) * (c * unit)) unit)
    by (apply rnd_nonneg; nia).
  nia.
Qed.

Lemma ratioValue_mono (n n' d c : Z) :
  n <= n' -> 0 < d -> 0 <= c -> ratioValue n d c <= ratioValue n' d c.
Proof.
  intros Hn Hd Hc. pose proof unit_pos as U. unfold ratioValue.
  apply Z.min_le_compat_r. apply rnd_mono; try lia.
  apply Z.mul_le_mono_nonneg_r; [lia|].
  apply Z.mul_le_mono_nonneg_r; [nia|].
  apply rnd_mono; [nia | nia |].
  apply Z.mul_le_mono_nonneg_r; [nia|].
  apply Z.mul_le_mono_nonneg_r; [lia|].
  apply Z.mul_le_mono_nonneg_r; lia.
Qed.

Lemma FV_ratio (n d c : Z) (D C : float) :
  - 2 ^ 53 <= n <= 2 ^ 53 ->
  FV D = Some (d * unit) -> 0 < d -> d * unit < top ->
  FV C = Some (c * unit) -> 1 <= c -> c * unit < top ->
  FV (JS.Math_min (JS.Z2F n / D * C) C) = Some (ratioValue n d c).
Proof.
  intros Hn HD Hd Hdt HC Hc Hct. pose proof unit_pos as U.
  assert (Hq : FV (JS.Z2F n / D) = Some (rnd (n * unit * unit) (d * unit))).
  { apply (FV_div _ _ (n * unit) (d * unit)); [now apply FV_Z2F | exact HD | | nia].
    rewrite top_unit. assert (2 ^ 53 < 2 ^ 1024) by reflexivity. nia. }
  pose proof (FV_mul _ _ _ _ Hq HC ltac:(unfold unit in *; nia)) as Hm.
  change (2 ^ 1074) with unit in Hm.
  apply (FV_min _ _ _ _ Hm HC).
Qed.

(** The value of the quotient [total / targetMinutes]. *)
Definition quotientValue (h total : Z) : Z :=
  let targetMinutes := rnd (h * (60 * unit)) unit in
  if targetMinutes <? top then rnd (total * unit * unit) targetMinutes else 0.

Lemma targetMinutes_pos (h : Z) : 0 < h -> 0 < rnd (h * (60 * unit)) unit <= top.
Proof.
  intro Hh. pose proof unit_pos as U. split.
  - assert (H : rnd (1 * 2 ^ 0 * unit) unit <= rnd (h * (60 * unit)) unit)
      by (apply rnd_mono; nia).
    unfold rnd at 1 in H. rewrite RND_exact in H by lia.
    assert (0 < top) by (apply pow2_pos; lia).
    destruct (Z.ltb_spec (1 * 2 ^ 0 * unit) 0); lia.
  - apply rnd_range. lia.
Qed.

Lemma FV_quotient (th : float) (h total : Z) :
  FV th = Some h -> 0 < h -> - 2 ^ 53 <= total <= 2 ^ 53 ->
  FV (JS.Z2F total / (th * 60)) = Some (quotientValue h total).
Proof.
  intros Hth Hh Ht. pose proof unit_pos as U.
  destruct FV_consts as [H60 _].
  pose proof (FV_mul _ _ _ _ Hth H60 ltac:(unfold unit in *; rewrite top_unit; unfold unit;
    assert (2 ^ 6 < 2 ^ 1024) by reflexivity; nia)) as Htm.
  change (2 ^ 1074) with unit in Htm.
  pose proof (targetMinutes_pos h Hh) as Rtm.
  pose proof (FV_Z2F total Ht) as HT. change (2 ^ 1074) with unit in HT.
  assert (Rt : - top < total * unit < top).
  { rewrite top_unit. assert (2 ^ 53 < 2 ^ 1024) by reflexivity. nia. }
  unfold quotientValue.
  destruct (Z.ltb_spec (rnd (h * (60 * unit)) unit) top) as [Fin|Inf].
  - apply (FV_div _ _ (total * unit) _ HT Htm Rt). lia.
  - replace (rnd (h * (60 * unit)) unit) with top in Htm by lia.
    apply (FV_div_inf _ _ (total * unit) HT Htm Rt).
Qed.

Lemma quotientValue_mono (h total total' : Z) :
  0 < h -> total <= total' -> quotientValue h total <= quotientValue h total'.
Proof.
  intros Hh Ht. pose proof unit_pos as U. pose proof (targetMinutes_pos h Hh).
  unfold quotientValue. cbv zeta. destruct (_ <? top); [|lia].
  apply rnd_mono; [lia | lia |].
  apply Z.mul_le_mono_nonneg_r; [lia|].
  apply Z.mul_le_mono_nonneg_r; [lia|].
  apply Z.mul_le_mono_nonneg_r; lia.
Qed.

Lemma quotientValue_nonneg (h total : Z) : 0 < h -> 0 <= total -> 0 <= quotientValue h total.
Proof.
  intros Hh Ht. pose proof unit_pos as U. pose proof (targetMinutes_pos h Hh).
  unfold quotientValue. cbv zeta. destruct (_ <? top); [|lia].
  apply rnd_nonneg; [|lia].
  apply Z.mul_nonneg_nonneg; [|lia]. apply Z.mul_nonneg_nonneg; lia.
Qed.

Lemma scoreValue_eq (h total consistentDays streak : Z) :
  scoreValue h total consistentDays streak
  = roundv (rnd (rnd (Z.min (rnd (quotientValue h total * (50 * unit)) unit) (50 * unit)
                      + ratioValue consistentDays 15 30) 1
                 + ratioValue streak 7 20) 1).
Proof. reflexivity. Qed.

(** The sum of the three scores, before [Math.round]. *)
Definition sumValue (h total consistentDays streak : Z) : Z :=
  rnd (rnd (Z.min (rnd (quotientValue h total * (50 * unit)) unit) (50 * unit)
            + ratioValue consistentDays 15 30) 1
       + ratioValue streak 7 20) 1.

Lemma sumValue_range (h total cd st : Z) :
  0 < h -> 0 <= total -> 0 <= cd -> 0 <= st ->
  0 <= Z.min (rnd (quotientValue h total * (50 * unit)) unit) (50 * unit) <= 50 * unit /\
  0 <= rnd (Z.min (rnd (quotientValue h total * (50 * unit)) unit) (50 * unit)
            + ratioValue cd 15 30) 1 <= 80 * unit /\
  0 <= sumValue h total cd st <= 100 * unit.
Proof.
  intros Hh Ht Hc Hs. pose proof unit_pos as U.
  pose proof (quotientValue_nonneg h total Hh Ht) as Q.
  pose proof (ratioValue_range cd 15 30 Hc ltac:(lia) ltac:(lia)) as Rc.
  pose proof (ratioValue_range st 7 20 Hs ltac:(lia) ltac:(lia)) as Rs.
  assert (P : 0 <= rnd (quotientValue h total * (50 * unit)) unit)
    by (apply rnd_nonneg; nia).
  set (p := Z.min (rnd (quotientValue h total * (50 * unit)) unit) (50 * unit)) in *.
  assert (Hp : 0 <= p <= 50 * unit) by (unfold p; lia).
  assert (S53 : - 2 ^ 53 < 0 /\ 100 < 2 ^ 53) by (split; reflexivity).
  assert (H80 : rnd (80 * unit) 1 = 80 * unit) by (apply rnd_int1; lia).
  assert (H100 : rnd (100 * unit) 1 = 100 * unit) by (apply rnd_int1; lia).
  assert (Hpc : 0 <= rnd (p + ratioValue cd 15 30) 1 <= 80 * unit).
  { split; [apply rnd_nonneg; lia|]. rewrite <- H80. apply rnd_mono; lia. }
  split; [exact Hp|]. split; [exact Hpc|].
  unfold sumValue. fold p.
  split; [apply rnd_nonneg; lia|]. rewrite <- H100. apply rnd_mono; lia.
Qed.

Lemma FV_weeklyScore (totals : list (string * Z)) (st : Z) (th : float) (h : Z) :
  FV th = Some h -> 0 < h ->
  0 <= sumZ (map snd totals) <= 2 ^ 53 ->
  0 <= consistentDaysOf totals <= 2 ^ 53 ->
  0 <= st <= 2 ^ 53 ->
  FV (weeklyScoreOf totals st th)
  = Some (scoreValue h (sumZ (map snd totals)) (consistentDaysOf totals) st).
Proof.
  intros Hth Hh Ht Hc Hs. pose proof unit_pos as U.
  set (T := sumZ (map snd totals)) in *. set (cd := consistentDaysOf totals) in *.
  destruct FV_consts as [_ [H50 [H30 [H20 [H15 [H7 _]]]]]].
  assert (Small : forall k, 1 <= k <= 100 -> k * unit < top).
  { intros k Hk. rewrite top_unit. assert (2 ^ 7 < 2 ^ 1024) by reflexivity. nia. }
  pose proof (sumValue_range h T cd st Hh ltac:(lia) ltac:(lia) ltac:(lia))
    as [Rp [Rpc Rsum]].
  pose proof (ratioValue_range cd 15 30 ltac:(lia) ltac:(lia) ltac:(lia)) as Rc.
  pose proof (ratioValue_range st 7 20 ltac:(lia) ltac:(lia) ltac:(lia)) as Rs.
  pose proof (Small 100 ltac:(lia)) as S100.
  pose proof (FV_quotient th h T Hth Hh ltac:(lia)) as Hq.
  pose proof (FV_mul _ _ _ _ Hq H50 ltac:(unfold unit at 1; fold unit;
    split; [lia | apply Small; lia])) as Hx.
  change (2 ^ 1074) with unit in Hx.
  pose proof (FV_min _ _ _ _ Hx H50) as Hp.
  pose proof (FV_ratio cd 15 30 15 30 ltac:(lia) H15 ltac:(lia) (Small 15 ltac:(lia))
                H30 ltac:(lia) (Small 30 ltac:(lia))) as Hcs.
  pose proof (FV_ratio st 7 20 7 20 ltac:(lia) H7 ltac:(lia) (Small 7 ltac:(lia))
                H20 ltac:(lia) (Small 20 ltac:(lia))) as Hss.
  pose proof (FV_add _ _ _ _ Hp Hcs ltac:(lia) ltac:(lia)) as Hpc.
  pose proof (FV_add _ _ _ _ Hpc Hss ltac:(lia) ltac:(lia)) as Hsum.
  unfold weeklyScoreOf. fold T. fold cd.
  rewrite scoreValue_eq.
  apply FV_round; [exact Hsum|]. fold (sumValue h T cd st). lia.
Qed.

Lemma scoreValue_range (h total cd st : Z) :
  0 < h -> 0 <= total -> 0 <= cd -> 0 <= st ->
  exists n, 0 <= n <= 100 /\ scoreValue h total cd st = n * unit.
Proof.
  intros Hh Ht Hc Hs. pose proof unit_pos as U.
  pose proof (sumValue_range h total cd st Hh Ht Hc Hs) as [_ [_ R]].
  rewrite scoreValue_eq. fold (sumValue h total cd st).
  set (a := sumValue h total cd st) in *.
  exists ((2 * a + 2 ^ 1074) / 2 ^ 1075). split; [|reflexivity].
  pose proof (roundv_mono 0 a ltac:(lia)) as L.
  pose proof (roundv_mono a (100 * unit) ltac:(lia)) as Up.
  change 0 with (0 * 2 ^ 1074) in L at 1. rewrite roundv_int in L.
  unfold unit in Up. rewrite roundv_int in Up.
  unfold roundv in L, Up. fold unit in *. nia.
Qed.

Lemma scoreValue_mono (h total total' cd cd' st st' : Z) :
  0 < h -> total <= total' -> cd <= cd' -> st <= st' ->
  scoreValue h total cd st <= scoreValue h total' cd' st'.
Proof.
  intros Hh Ht Hc Hs. pose proof unit_pos as U.
  rewrite !scoreValue_eq. apply roundv_mono.
  apply rnd_mono; try lia. rewrite !Z.mul_1_r.
  apply Z.add_le_mono; [|apply ratioValue_mono; lia].
  apply rnd_mono; try lia. rewrite !Z.mul_1_r.
  apply Z.add_le_mono; [|apply ratioValue_mono; lia].
  apply Z.min_le_compat_r. apply rnd_mono; try lia.
  apply Z.mul_le_mono_nonneg_r; [lia|].
  apply Z.mul_le_mono_nonneg_r; [nia|].
  now apply quotientValue_mono.
Qed.

(** ** The inputs of the data model *)

Definition minutesOf (s : Session) : Z := orZero (duration_minutes s).

(** Calendar dates, non-negative durations whose sum is an integer that a
    double holds exactly, in an array (fewer than 2^32 elements). *)
Definition inDomain (sessions : list Session) : bool :=
  wellFormed sessions
  && forallb (fun s => 0 <=? minutesOf s) sessions
  && (sumZ (map minutesOf sessions) <? 2 ^ 53)
  && (Z.of_nat (List.length sessions) <? 2 ^ 32).

Lemma inDomain_spec (sessions : list Session) :
  inDomain sessions = true ->
  wellFormed sessions = true /\
  Forall (fun s => 0 <= minutesOf s) sessions /\
  sumZ (map minutesOf sessions) < 2 ^ 53 /\
  Z.of_nat (List.length sessions) < 2 ^ 32.
Proof.
  unfold inDomain. rewrite !andb_true_iff.
  intros [[[H1 H2] H3] H4].
  split; [exact H1|]. split.
  - apply Forall_forall. intros s Hs. rewrite forallb_forall in H2.
    apply Z.leb_le. now apply H2.
  - split; [now apply Z.ltb_lt in H3 | now apply Z.ltb_lt in H4].
Qed.

Lemma sumZ_nonneg (l : list Z) : Forall (fun x => 0 <= x) l -> 0 <= sumZ l.
Proof.
  induction 1 as [|x l Hx _ IH]; [reflexivity|]. rewrite sumZ_cons. lia.
Qed.

Lemma dayTotal_snoc (b : list Session) (s : Session) :
  dayTotal (b ++ [s]) = dayTotal b + minutesOf s.
Proof. unfold dayTotal. now rewrite fold_left_app. Qed.

Lemma sum_pushTo (k : string) (s : Session) (m : list (string * list Session)) :
  sumZ (map (fun e => dayTotal (snd e)) (pushTo k s m))
  = sumZ (map (fun e => dayTotal (snd e)) m) + minutesOf s.
Proof.
  induction m as [|[k' v] m IH]; cbn [pushTo map snd].
  - rewrite !sumZ_cons. unfold dayTotal, minutesOf, sumZ. cbn [fold_left]. lia.
  - destruct (String.eqb k' k); cbn [map snd]; rewrite !sumZ_cons.
    + rewrite dayTotal_snoc. lia.
    + rewrite IH. lia.
Qed.

(** The day totals add up to the minutes of all sessions. *)
Lemma sum_dailyTotals (sessions : list Session) :
  sumZ (map snd (dailyTotals sessions)) = sumZ (map minutesOf sessions).
Proof.
  unfold dailyTotals. rewrite map_map. cbn [snd].
  induction sessions as [|s l IH] using rev_ind.
  - reflexivity.
  - rewrite sessionsByDate_snoc, sum_pushTo, IH, map_app, sumZ_app. simpl.
    rewrite sumZ_cons. unfold sumZ at 3. simpl. lia.
Qed.

Lemma length_pushTo (k : string) (s : Session) (m : list (string * list Session)) :
  (List.length (pushTo k s m) <= S (List.length m))%nat.
Proof.
  induction m as [|[k' v] m IH]; simpl; [lia|].
  destruct (String.eqb k' k); simpl; lia.
Qed.

Lemma length_dailyTotals (sessions : list Session) :
  (List.length (dailyTotals sessions) <= List.length sessions)%nat.
Proof.
  unfold dailyTotals. rewrite length_map.
  induction sessions as [|s l IH] using rev_ind; [simpl; lia|].
  rewrite sessionsByDate_snoc, length_app. simpl.
  pose proof (length_pushTo (date s) s (sessionsByDate l)). lia.
Qed.

Lemma countIf_range {A} (p : A -> bool) (l : list A) :
  0 <= countIf p l <= Z.of_nat (List.length l).
Proof.
  unfold countIf. pose proof (filter_length_le p l). lia.
Qed.

Lemma streakWalk_range (totals : list (string * Z)) (dates : list string) :
  0 <= streakWalk totals dates <= Z.of_nat (List.length dates).
Proof.
  induction dates as [|d rest IH]; cbn [streakWalk List.length]; [lia|].
  destruct (lookup d totals) as [m|]; [|lia].
  destruct (360 <=? m); lia.
Qed.

Lemma length_sortedDates (totals : list (string * Z)) :
  List.length (sortedDates totals) = List.length totals.
Proof.
  unfold sortedDates. rewrite length_rev.
  rewrite <- (Permutation_length (StringSort.Permuted_sort (map fst totals))).
  apply length_map.
Qed.

Lemma counters_small (sessions : list Session) :
  Z.of_nat (List.length sessions) < 2 ^ 32 ->
  0 <= consistentDaysOf (dailyTotals sessions) <= 2 ^ 53 /\
  0 <= streakOf (dailyTotals sessions) <= 2 ^ 53.
Proof.
  intro Hlen.
  pose proof (length_dailyTotals sessions) as L.
  pose proof (countIf_range (fun m => 480 <=? m) (map snd (dailyTotals sessions))) as C.
  rewrite length_map in C.
  pose proof (streakWalk_range (dailyTotals sessions) (sortedDates (dailyTotals sessions))) as S.
  rewrite length_sortedDates in S.
  assert (2 ^ 32 < 2 ^ 53) by reflexivity.
  unfold consistentDaysOf, streakOf. lia.
Qed.

Lemma positive_target (th : float) :
  (0 <? th)%float = true -> exists h, FV th = Some h /\ 0 < h.
Proof.
  rewrite FV_ltb. destruct FV_consts as [_ [_ [_ [_ [_ [_ [H0 _]]]]]]].
  rewrite H0. destruct (FV th) as [h|]; [|discriminate].
  intro H. apply Z.ltb_lt in H. eauto.
Qed.

Lemma scoreValue_zero (h : Z) : 0 < h -> scoreValue h 0 0 0 = 0.
Proof.
  intro Hh. pose proof unit_pos as U. pose proof (targetMinutes_pos h Hh) as T.
  rewrite scoreValue_eq. unfold quotientValue, ratioValue. cbv zeta.
  assert (Q : (if rnd (h * (60 * unit)) unit <? top
               then rnd (0 * unit * unit) (rnd (h * (60 * unit)) unit) else 0) = 0).
  { destruct (_ <? top); [|reflexivity]. rewrite !Z.mul_0_l. apply rnd_0. lia. }
  rewrite Q. repeat (rewrite ?Z.mul_0_l; rewrite ?rnd_0 by lia).
  unfold roundv. rewrite Z.mul_0_r. cbn [Z.add].
  rewrite Z.div_small; [reflexivity|]. split; [apply Z.pow_nonneg; lia|].
  apply Z.pow_lt_mono_r; lia.
Qed.

(** C3. For every input of the data model (non-negative durations) and
    every positive target, the weekly score is the number
    [round(min(total / (targetHours * 60) * 50, 50) + min(consistent / 15 * 30, 30)
     + min(streak / 7 * 20, 20))] of double arithmetic, where [total] is the
    sum of all day totals, which is the sum of all sessions' minutes, and
    [consistent] is the number of days that total 480 minutes or more; it is
    an integer between 0 and 100, and 0 for the empty input. *)
Theorem weeklyScore_formula_range (env : Env) (sessions allSessions : list Session)
    (targetHours : float) :
  inDomain sessions = true -> (0 <? targetHours)%float = true ->
  exists r n,
    useAnalytics env sessions allSessions targetHours = Some r /\
    sumZ (map (fun key => minutesOn key sessions) (map fst (dailyTotals sessions)))
    = sumZ (map minutesOf sessions) /\
    (weeklyScore r
     =? JS.Math_round
          (JS.Math_min (JS.Z2F (sumZ (map minutesOf sessions)) / (targetHours * 60) * 50) 50
           + JS.Math_min (JS.Z2F (daysAtLeast 480 sessions) / 15 * 30) 30
           + JS.Math_min (JS.Z2F (streak r) / 7 * 20) 20))%float = true /\
    JS.toZ (weeklyScore r) = Some n /\ 0 <= n <= 100 /\
    (sessions = [] -> n = 0).
Proof.
  intros Hdom Hpos.
  apply inDomain_spec in Hdom. destruct Hdom as [Hwf [Hnn [Hsum Hlen]]].
  destruct (positive_target targetHours Hpos) as [h [Hth Hh]].
  pose proof unit_pos as U.
  assert (Hsum0 : 0 <= sumZ (map minutesOf sessions)).
  { apply sumZ_nonneg. apply Forall_map. exact Hnn. }
  assert (Hkeys : sumZ (map (fun key => minutesOn key sessions) (map fst (dailyTotals sessions)))
                  = sumZ (map minutesOf sessions)).
  { rewrite <- sum_dailyTotals. f_equal. rewrite map_map.
    apply map_ext_in. intros e He. symmetry. now apply snd_dailyTotals. }
  assert (Big : forall k, 0 <= k <= 100 -> - 2 ^ 1024 < k < 2 ^ 1024).
  { intros k Hk. assert (100 < 2 ^ 1024) by reflexivity. lia. }
  destruct sessions as [|s0 rest] eqn:Es.
  - (* the early return *)
    exists emptyAnalytics, 0. split; [reflexivity|]. split; [exact Hkeys|].
    split; [|split; [reflexivity | split; [lia | reflexivity]]].
    pose proof (FV_weeklyScore [] 0 targetHours h Hth Hh ltac:(cbn; lia) ltac:(cbn; lia)
                  ltac:(lia)) as Hw.
    change (sumZ (map snd [])) with 0 in Hw. change (consistentDaysOf []) with 0 in Hw.
    rewrite (scoreValue_zero h Hh) in Hw.
    rewrite FV_eqb. destruct FV_consts as [_ [_ [_ [_ [_ [_ [H0 _]]]]]]].
    cbn [weeklyScore emptyAnalytics]. rewrite H0.
    match goal with
    | |- context [FV (JS.Math_round ?t)] =>
        change (JS.Math_round t) with (weeklyScoreOf [] 0 targetHours)
    end.
    rewrite Hw. reflexivity.
  - rewrite <- Es in *.
    destruct (useAnalytics_run env sessions allSessions targetHours) as [week [_ Hrun]];
      [subst; discriminate | exact Hwf |].
    destruct (counters_small sessions Hlen) as [Hc Hs].
    pose proof (FV_weeklyScore (dailyTotals sessions) (streakOf (dailyTotals sessions))
                  targetHours h Hth Hh
                  ltac:(rewrite sum_dailyTotals; lia) Hc Hs) as Hw.
    destruct (scoreValue_range h (sumZ (map snd (dailyTotals sessions)))
                (consistentDaysOf (dailyTotals sessions)) (streakOf (dailyTotals sessions))
                Hh ltac:(rewrite sum_dailyTotals; lia) ltac:(lia) ltac:(lia))
      as [n [Hn En]].
    eexists. exists n. split; [exact Hrun|]. split; [exact Hkeys|].
    cbn [weeklyScore streak].
    split; [|split; [|split; [exact Hn | subst; discriminate]]].
    + rewrite FV_eqb.
      unfold weeklyScoreOf in *. unfold consistentDaysOf in *.
      rewrite count_days, sum_dailyTotals in *.
      rewrite Hw. apply Z.eqb_refl.
    + apply toZ_value; [apply Big; exact Hn|]. rewrite Hw, En. reflexivity.
Qed.

Lemma weeklyScore_formula_range_witness :
  exists r n,
    useAnalytics wednesdayNoon
      [session "2024-01-07" 1704598200000 1704634200000 600;
       session "2024-01-03" 1704252600000 1704270600000 300] [] 200 = Some r /\
    sumZ (map (fun key => minutesOn key
                 [session "2024-01-07" 1704598200000 1704634200000 600;
                  session "2024-01-03" 1704252600000 1704270600000 300])
              (map fst (dailyTotals
                 [session "2024-01-07" 1704598200000 1704634200000 600;
                  session "2024-01-03" 1704252600000 1704270600000 300])))
    = sumZ (map minutesOf
              [session "2024-01-07" 1704598200000 1704634200000 600;
               session "2024-01-03" 1704252600000 1704270600000 300]) /\
    (weeklyScore r
     =? JS.Math_round
          (JS.Math_min
             (JS.Z2F (sumZ (map minutesOf
                [session "2024-01-07" 1704598200000 1704634200000 600;
                 session "2024-01-03" 1704252600000 1704270600000 300]))
              / (200 * 60) * 50) 50
           + JS.Math_min
               (JS.Z2F (daysAtLeast 480
                  [session "2024-01-07" 1704598200000 1704634200000 600;
                   session "2024-01-03" 1704252600000 1704270600000 300]) / 15 * 30) 30
           + JS.Math_min (JS.Z2F (streak r) / 7 * 20) 20))%float = true /\
    JS.toZ (weeklyScore r) = Some n /\ 0 <= n <= 100 /\
    ([session "2024-01-07" 1704598200000 1704634200000 600;
      session "2024-01-03" 1704252600000 1704270600000 300] = [] -> n = 0).
Proof.
  apply (weeklyScore_formula_range wednesdayNoon
           [session "2024-01-07" 1704598200000 1704634200000 600;
            session "2024-01-03" 1704252600000 1704270600000 300] [] 200);
    reflexivity.
Defined.

(** The score is a number of double arithmetic: with 3480 minutes over
    eight days of 435 against 200 hours, the progress term is a double just
    below 14.5 and the score is 14, where the same expression over the
    rationals is 14.5 and rounds to 15. *)
Example score_in_double_arithmetic :
  (JS.Z2F 3480 / (200 * 60) * 50 <? 14.5)%float = true /\
  weeklyScoreOf (map (fun key => (key, 435))
                   ["2024-01-01"; "2024-01-02"; "2024-01-03"; "2024-01-04";
                    "2024-01-05"; "2024-01-08"; "2024-01-09"; "2024-01-10"]%string)
                0 200 = 14%float /\
  (2 * (3480 * 50) + 200 * 60) / (2 * (200 * 60)) = 15.
Proof. repeat split; vm_compute; reflexivity. Qed.

(** ** Monotonicity *)

(** The keys of the buckets, from the dates alone. *)
Definition keysOf (dates : list string) : list string :=
  fold_left (fun ks d => if existsb (String.eqb d) ks then ks else ks ++ [d]) dates [].

Lemma keys_by_dates (sessions : list Session) :
  map fst (sessionsByDate sessions) = keysOf (map date sessions).
Proof.
  unfold keysOf.
  induction sessions as [|s l IH] using rev_ind; [reflexivity|].
  rewrite sessionsByDate_snoc, keys_pushTo, map_app, fold_left_app, <- IH. reflexivity.
Qed.

(** Every bucket is its key with the minutes of that date. *)
Lemma dailyTotals_by_keys (sessions : list Session) :
  dailyTotals sessions
  = map (fun key => (key, minutesOn key sessions)) (map fst (dailyTotals sessions)).
Proof.
  rewrite map_map. rewrite <- (map_id (dailyTotals sessions)) at 1.
  apply map_ext_in. intros [k m] He. cbn [fst].
  f_equal. exact (snd_dailyTotals sessions (k, m) He).
Qed.

Section OneSessionLonger.
Variables (before after : list Session) (s s' : Session).
Hypothesis same_date : date s' = date s.
Hypothesis same_in : punch_in s' = punch_in s.
Hypothesis same_out : punch_out s' = punch_out s.
Hypothesis longer : minutesOf s <= minutesOf s'.

Let sessions := before ++ s :: after.
Let sessions' := before ++ s' :: after.

Lemma same_dates : map date sessions' = map date sessions.
Proof. unfold sessions, sessions'. rewrite !map_app. cbn [map]. now rewrite same_date. Qed.

Lemma same_keys : map fst (dailyTotals sessions') = map fst (dailyTotals sessions).
Proof. now rewrite !keys_dailyTotals, !keys_by_dates, same_dates. Qed.

Lemma minutesOn_longer (key : string) : minutesOn key sessions <= minutesOn key sessions'.
Proof.
  unfold minutesOn, sessions, sessions'. rewrite !filter_app. cbn [filter].
  rewrite same_date.
  destruct (String.eqb (date s) key); rewrite !map_app, !sumZ_app; cbn [map];
    rewrite ?sumZ_cons; fold (minutesOf s) (minutesOf s'); lia.
Qed.

Lemma total_longer : sumZ (map minutesOf sessions) <= sumZ (map minutesOf sessions').
Proof.
  unfold sessions, sessions'. rewrite !map_app, !sumZ_app. cbn [map].
  rewrite !sumZ_cons. lia.
Qed.

Lemma same_lookup_shape (key : string) :
  match lookup key (dailyTotals sessions), lookup key (dailyTotals sessions') with
  | Some m, Some m' => m <= m'
  | None, None => True
  | _, _ => False
  end.
Proof.
  rewrite !lookup_dailyTotals.
  assert (E : existsb (fun x => String.eqb (date x) key) sessions'
              = existsb (fun x => String.eqb (date x) key) sessions).
  { unfold sessions, sessions'. rewrite !existsb_app. cbn [existsb]. now rewrite same_date. }
  rewrite E. destruct (existsb _ sessions); [apply minutesOn_longer | exact I].
Qed.

Lemma streak_longer : streakOf (dailyTotals sessions) <= streakOf (dailyTotals sessions').
Proof.
  unfold streakOf, sortedDates. rewrite same_keys.
  generalize (rev (StringSort.sort (map fst (dailyTotals sessions)))). intro dates.
  induction dates as [|d rest IH]; cbn [streakWalk]; [lia|].
  pose proof (same_lookup_shape d) as H.
  pose proof (streakWalk_range (dailyTotals sessions') rest) as R.
  destruct (lookup d (dailyTotals sessions)) as [m|],
           (lookup d (dailyTotals sessions')) as [m'|]; try contradiction; [|lia].
  destruct (Z.leb_spec 360 m), (Z.leb_spec 360 m'); lia.
Qed.

Lemma length_filter_mono {A} (p q : A -> bool) (l : list A) :
  (forall x, In x l -> p x = true -> q x = true) ->
  (List.length (filter p l) <= List.length (filter q l))%nat.
Proof.
  induction l as [|x l IH]; intro H; cbn [filter]; [lia|].
  assert (IH' : (List.length (filter p l) <= List.length (filter q l))%nat)
    by (apply IH; intros y Hy; apply H; now right).
  destruct (p x) eqn:Px.
  - rewrite (H x (or_introl eq_refl) Px). cbn [List.length]. lia.
  - destruct (q x); cbn [List.length]; lia.
Qed.

Lemma days_longer (bound : Z) : daysAtLeast bound sessions <= daysAtLeast bound sessions'.
Proof.
  unfold daysAtLeast. rewrite same_keys. apply inj_le.
  apply length_filter_mono. intros key _ H.
  apply Z.leb_le in H. apply Z.leb_le. pose proof (minutesOn_longer key). lia.
Qed.

Lemma same_early (env : Env) :
  countIf (isEarly env) sessions' = countIf (isEarly env) sessions.
Proof.
  unfold countIf, sessions, sessions'. rewrite !filter_app. cbn [filter].
  assert (E : isEarly env s' = isEarly env s) by (unfold isEarly; now rewrite same_in).
  rewrite E, !length_app. destruct (isEarly env s); reflexivity.
Qed.

End OneSessionLonger.

(** C6. For every input of the data model and every positive target,
    lengthening one session, all else unchanged, lowers neither the weekly
    score, nor the streak, nor the progress of any of the four badges. *)
Theorem longer_session_never_lowers (env : Env) (before after : list Session)
    (s s' : Session) (allSessions : list Session) (targetHours : float) :
  date s' = date s -> punch_in s' = punch_in s -> punch_out s' = punch_out s ->
  minutesOf s <= minutesOf s' ->
  inDomain (before ++ s :: after) = true ->
  inDomain (before ++ s' :: after) = true ->
  (0 <? targetHours)%float = true ->
  exists r r',
    useAnalytics env (before ++ s :: after) allSessions targetHours = Some r /\
    useAnalytics env (before ++ s' :: after) allSessions targetHours = Some r' /\
    (weeklyScore r <=? weeklyScore r')%float = true /\
    streak r <= streak r' /\
    Forall2 (fun b b' => Badge.id b = Badge.id b' /\ Badge.progress b <= Badge.progress b')
            (badges r) (badges r').
Proof.
  intros Hdate Hin Hout Hlonger Hdom Hdom' Hpos.
  apply inDomain_spec in Hdom, Hdom'.
  destruct Hdom as [Hwf [Hnn [Hsum Hlen]]], Hdom' as [Hwf' [Hnn' [Hsum' Hlen']]].
  destruct (positive_target targetHours Hpos) as [h [Hth Hh]].
  set (sessions := before ++ s :: after) in *.
  set (sessions' := before ++ s' :: after) in *.
  assert (Hne : sessions <> []) by (unfold sessions; destruct before; discriminate).
  assert (Hne' : sessions' <> []) by (unfold sessions'; destruct before; discriminate).
  destruct (useAnalytics_run env sessions allSessions targetHours Hne Hwf)
    as [week [_ Hrun]].
  destruct (useAnalytics_run env sessions' allSessions targetHours Hne' Hwf')
    as [week' [_ Hrun']].
  pose proof (streak_longer before after s s' Hdate Hlonger) as Hstreak.
  fold sessions sessions' in Hstreak.
  assert (Hsum0 : 0 <= sumZ (map minutesOf sessions))
    by (apply sumZ_nonneg, Forall_map; exact Hnn).
  assert (Hsum0' : 0 <= sumZ (map minutesOf sessions'))
    by (apply sumZ_nonneg, Forall_map; exact Hnn').
  destruct (counters_small sessions Hlen) as [Hc Hs].
  destruct (counters_small sessions' Hlen') as [Hc' Hs'].
  pose proof (FV_weeklyScore (dailyTotals sessions) (streakOf (dailyTotals sessions))
                targetHours h Hth Hh ltac:(rewrite sum_dailyTotals; lia) Hc Hs) as Hw.
  pose proof (FV_weeklyScore (dailyTotals sessions') (streakOf (dailyTotals sessions'))
                targetHours h Hth Hh ltac:(rewrite sum_dailyTotals; lia) Hc' Hs') as Hw'.
  do 2 eexists. split; [exact Hrun|]. split; [exact Hrun'|].
  cbn [weeklyScore streak badges].
  split; [|split; [exact Hstreak|]].
  - rewrite FV_leb, Hw, Hw'. apply Z.leb_le.
    apply scoreValue_mono; [exact Hh | | | exact Hstreak].
    + rewrite !sum_dailyTotals. now apply total_longer.
    + unfold consistentDaysOf. rewrite !count_days. now apply days_longer.
  - unfold badgesOf, consistentDaysOf, overtimeDaysOf. rewrite !count_days.
    fold sessions sessions'.
    rewrite (same_early before after s s' Hin env : countIf (isEarly env) sessions' = _).
    fold sessions.
    pose proof (days_longer before after s s' Hdate Hlonger 480) as D480.
    pose proof (days_longer before after s s' Hdate Hlonger 600) as D600.
    fold sessions sessions' in D480, D600.
    repeat (apply Forall2_cons; [split; [reflexivity | cbn [Badge.progress]; lia]|]).
    apply Forall2_nil.
Qed.

Lemma longer_session_never_lowers_witness :
  exists r r',
    useAnalytics wednesdayNoon
      ([session "2024-01-07" 1704598200000 1704634200000 600]
       ++ session "2024-01-03" 1704252600000 1704270600000 300 :: []) [] 200 = Some r /\
    useAnalytics wednesdayNoon
      ([session "2024-01-07" 1704598200000 1704634200000 600]
       ++ session "2024-01-03" 1704252600000 1704270600000 480 :: []) [] 200 = Some r' /\
    (weeklyScore r <=? weeklyScore r')%float = true /\
    streak r <= streak r' /\
    Forall2 (fun b b' => Badge.id b = Badge.id b' /\ Badge.progress b <= Badge.progress b')
            (badges r) (badges r').
Proof.
  apply (longer_session_never_lowers wednesdayNoon
           [session "2024-01-07" 1704598200000 1704634200000 600] []
           (session "2024-01-03" 1704252600000 1704270600000 300)
           (session "2024-01-03" 1704252600000 1704270600000 480) [] 200);
    try reflexivity.
  vm_compute. discriminate.
Defined.

(** ** Best and worst weekday *)

(** The value of the mean of a non-empty list of day totals. *)
Definition meanValue (l : list Z) : Z :=
  rnd (sumZ l * unit * unit) (Z.of_nat (List.length l) * unit).

Lemma rnd_one (b : Z) : 0 < b -> rnd b b = 1.
Proof.
  intro Hb. assert (0 < top) by (apply pow2_pos; lia).
  unfold rnd. destruct (Z.ltb_spec b 0); [lia|].
  replace b with (1 * 2 ^ 0 * b) at 1 by ring. rewrite RND_exact by lia. lia.
Qed.

(** Day totals whose mean is computed exactly as the model has it. *)
Definition smallList (l : list Z) : Prop :=
  Forall (fun x => 0 <= x) l /\ sumZ l < 2 ^ 53 /\ Z.of_nat (List.length l) < 2 ^ 32.

Lemma FV_mean (l : list Z) :
  l <> [] -> smallList l ->
  FV (mean l) = Some (meanValue l) /\ 0 <= meanValue l < top /\
  (0 < meanValue l <-> 0 < sumZ l).
Proof.
  intros Hne [Hnn [Hsum Hlen]]. pose proof unit_pos as U.
  pose proof (sumZ_nonneg l Hnn) as H0.
  assert (HL : 0 < Z.of_nat (List.length l)) by (destruct l; [congruence | cbn; lia]).
  assert (S32 : 2 ^ 32 < 2 ^ 53) by reflexivity.
  assert (S53 : 2 ^ 53 < 2 ^ 1024) by reflexivity.
  assert (Hup : meanValue l <= sumZ l * unit).
  { unfold meanValue. rewrite <- (rnd_int1 (sumZ l)) at 2 by lia.
    apply rnd_mono; [nia | lia |].
    rewrite Z.mul_1_r.
    replace (sumZ l * unit * (Z.of_nat (List.length l) * unit))
      with (sumZ l * unit * unit * Z.of_nat (List.length l)) by ring.
    rewrite <- (Z.mul_1_r (sumZ l * unit * unit)) at 1.
    apply Z.mul_le_mono_nonneg_l; [|lia].
    apply Z.mul_nonneg_nonneg; [apply Z.mul_nonneg_nonneg|]; lia. }
  assert (Hlow : 0 <= meanValue l) by (unfold meanValue; apply rnd_nonneg; nia).
  split; [|split].
  - unfold mean, meanValue.
    pose proof (FV_Z2F (sumZ l) ltac:(lia)) as HS.
    pose proof (FV_Z2F (Z.of_nat (List.length l)) ltac:(lia)) as HN.
    change (2 ^ 1074) with unit in HS, HN.
    apply (FV_div _ _ _ _ HS HN); rewrite top_unit; nia.
  - rewrite top_unit. nia.
  - split; intro H.
    + destruct (Z.eq_dec (sumZ l) 0) as [E|]; [|lia].
      rewrite E in Hup. lia.
    + assert (1 <= meanValue l); [|lia].
      unfold meanValue.
      rewrite <- (rnd_one (Z.of_nat (List.length l) * unit)) by nia.
      apply rnd_mono; try nia.
      assert (Z.of_nat (List.length l) <= unit).
      { unfold unit. assert (2 ^ 32 < 2 ^ 1074) by reflexivity. lia. }
      apply Z.mul_le_mono_nonneg_r; [nia|].
      replace (Z.of_nat (List.length l) * unit) with (1 * (Z.of_nat (List.length l)) * unit)
        by ring.
      apply Z.mul_le_mono_nonneg_r; [lia|]. nia.
Qed.

Lemma step_best (st : BestWorst) (day : nat) (l : list Z) :
  (best (bestWorstStep st day l), bestAvg (bestWorstStep st day l))
  = if (0 <? List.length l)%nat && (bestAvg st <? mean l)%float
    then (Some (nth day dayNames ""%string), mean l)
    else (best st, bestAvg st).
Proof.
  unfold bestWorstStep.
  destruct (0 <? List.length l)%nat; [|reflexivity]. cbn [andb].
  destruct (bestAvg st <? mean l)%float;
    match goal with |- context [if ?c then _ else _] => destruct c end; reflexivity.
Qed.

Lemma step_worst (st : BestWorst) (day : nat) (l : list Z) :
  (worst (bestWorstStep st day l), worstAvg (bestWorstStep st day l))
  = if (0 <? List.length l)%nat && (mean l <? worstAvg st)%float
    then (Some (nth day dayNames ""%string), mean l)
    else (worst st, worstAvg st).
Proof.
  unfold bestWorstStep.
  destruct (0 <? List.length l)%nat; [|reflexivity]. cbn [andb].
  destruct (bestAvg st <? mean l)%float; cbn [worstAvg worst];
    destruct (mean l <? worstAvg st)%float; reflexivity.
Qed.

Lemma nonempty_length (l : list Z) : (0 <? List.length l)%nat = negb (match l with [] => true | _ => false end).
Proof. now destruct l. Qed.

(** The loop keeps the highest mean seen so far above the initial one, with
    the first weekday that reached it. *)
Lemma loop_best (w : list (list Z)) :
  Forall (fun l => l <> [] -> smallList l) w ->
  forall (day : nat) (st : BestWorst) (B : Z),
    FV (bestAvg st) = Some B ->
    exists B', FV (bestAvg (bestWorstLoop st day w)) = Some B' /\
      (forall k l, nth_error w k = Some l -> l <> [] -> meanValue l <= B') /\
      ((best (bestWorstLoop st day w) = best st /\ B' = B) \/
       (exists k l, nth_error w k = Some l /\ l <> [] /\
          best (bestWorstLoop st day w) = Some (nth (day + k) dayNames ""%string) /\
          meanValue l = B' /\ B < B' /\
          forall j l', (j < k)%nat -> nth_error w j = Some l' -> l' <> [] ->
                       meanValue l' < B')).
Proof.
  induction 1 as [|l w Hl Hw IH]; intros day st B HB; cbn [bestWorstLoop].
  - exists B. split; [exact HB|]. split; [intros [|k] l' E; discriminate E|]. now left.
  - pose proof (step_best st day l) as Hstep.
    destruct l as [|x l0] eqn:El.
    + (* a weekday without bucket *)
      cbn [List.length Nat.ltb Nat.leb andb] in Hstep.
      pose proof (f_equal fst Hstep) as Hb. pose proof (f_equal snd Hstep) as Ha.
      cbn [fst snd] in Hb, Ha.
      destruct (IH (S day) (bestWorstStep st day []) B ltac:(now rewrite Ha))
        as [B' [HB' [Hall Hcase]]].
      exists B'. split; [exact HB'|]. split.
      * intros [|k] l' E Hne; cbn [nth_error] in E; [congruence | eauto].
      * destruct Hcase as [[Hbest ->]|[k [l' [E [Hne [Hbest [Hm [Hlt Hfirst]]]]]]]].
        -- left. split; [congruence | reflexivity].
        -- right. exists (S k), l'. cbn [nth_error].
           repeat split; try assumption.
           ++ rewrite Hbest. f_equal. f_equal. lia.
           ++ intros [|j] l'' Hj E' Hne'; cbn [nth_error] in E'; [congruence|].
              apply (Hfirst j l''); [lia | assumption | assumption].
    + rewrite <- El in *.
      assert (Hne : l <> []) by (subst; discriminate).
      destruct (FV_mean l Hne (Hl Hne)) as [Hmean [Hrange _]].
      assert (Hlen : (0 <? List.length l)%nat = true) by (subst; reflexivity).
      rewrite Hlen, FV_ltb, HB, Hmean in Hstep. cbn [andb] in Hstep.
      destruct (Z.ltb_spec B (meanValue l)) as [Hlt|Hge];
        pose proof (f_equal fst Hstep) as Hb; pose proof (f_equal snd Hstep) as Ha;
        cbn [fst snd] in Hb, Ha.
      * destruct (IH (S day) (bestWorstStep st day l) (meanValue l)
                    ltac:(now rewrite Ha)) as [B' [HB' [Hall Hcase]]].
        exists B'. split; [exact HB'|].
        destruct Hcase as [[Hbest ->]|[k [l' [E [Hne' [Hbest [Hm [Hlt' Hfirst]]]]]]]].
        -- split.
           ++ intros [|k] l' E Hne'; cbn [nth_error] in E; [|eauto].
              injection E as <-. lia.
           ++ right. exists 0%nat, l. cbn [nth_error].
              repeat split; try assumption; try reflexivity.
              ** rewrite Hbest, Hb. f_equal. f_equal. lia.
              ** intros j l' Hj. lia.
        -- split.
           ++ intros [|k0] l0' E0 Hne0; cbn [nth_error] in E0; [|eauto].
              injection E0 as <-. lia.
           ++ right. exists (S k), l'. cbn [nth_error].
              repeat split; try assumption; try lia.
              ** rewrite Hbest. f_equal. f_equal. lia.
              ** intros [|j] l'' Hj E' Hne''; cbn [nth_error] in E'.
                 --- injection E' as <-. lia.
                 --- apply (Hfirst j l''); [lia | assumption | assumption].
      * destruct (IH (S day) (bestWorstStep st day l) B ltac:(now rewrite Ha))
          as [B' [HB' [Hall Hcase]]].
        exists B'. split; [exact HB'|].
        destruct Hcase as [[Hbest ->]|[k [l' [E [Hne' [Hbest [Hm [Hlt' Hfirst]]]]]]]].
        -- split.
           ++ intros [|k] l' E Hne'; cbn [nth_error] in E; [|eauto].
              injection E as <-. lia.
           ++ left. split; [congruence | reflexivity].
        -- split.
           ++ intros [|k0] l0' E0 Hne0; cbn [nth_error] in E0; [|eauto].
              injection E0 as <-. lia.
           ++ right. exists (S k), l'. cbn [nth_error].
              repeat split; try assumption; try lia.
              ** rewrite Hbest. f_equal. f_equal. lia.
              ** intros [|j] l'' Hj E' Hne''; cbn [nth_error] in E'.
                 --- injection E' as <-. lia.
                 --- apply (Hfirst j l''); [lia | assumption | assumption].
Qed.

(** The loop keeps the lowest mean seen so far below the initial one, with
    the first weekday that reached it. *)
Lemma loop_worst (w : list (list Z)) :
  Forall (fun l => l <> [] -> smallList l) w ->
  forall (day : nat) (st : BestWorst) (W : Z),
    FV (worstAvg st) = Some W ->
    exists W', FV (worstAvg (bestWorstLoop st day w)) = Some W' /\
      (forall k l, nth_error w k = Some l -> l <> [] -> W' <= meanValue l) /\
      ((worst (bestWorstLoop st day w) = worst st /\ W' = W) \/
       (exists k l, nth_error w k = Some l /\ l <> [] /\
          worst (bestWorstLoop st day w) = Some (nth (day + k) dayNames ""%string) /\
          meanValue l = W' /\ W' < W /\
          forall j l', (j < k)%nat -> nth_error w j = Some l' -> l' <> [] ->
                       W' < meanValue l')).
Proof.
  induction 1 as [|l w Hl Hw IH]; intros day st W HW; cbn [bestWorstLoop].
  - exists W. split; [exact HW|]. split; [intros [|k] l' E; discriminate E|]. now left.
  - pose proof (step_worst st day l) as Hstep.
    destruct l as [|x l0] eqn:El.
    + cbn [List.length Nat.ltb Nat.leb andb] in Hstep.
      pose proof (f_equal fst Hstep) as Hb. pose proof (f_equal snd Hstep) as Ha.
      cbn [fst snd] in Hb, Ha.
      destruct (IH (S day) (bestWorstStep st day []) W ltac:(now rewrite Ha))
        as [W' [HW' [Hall Hcase]]].
      exists W'. split; [exact HW'|]. split.
      * intros [|k] l' E Hne; cbn [nth_error] in E; [congruence | eauto].
      * destruct Hcase as [[Hworst ->]|[k [l' [E [Hne [Hworst [Hm [Hlt Hfirst]]]]]]]].
        -- left. split; [congruence | reflexivity].
        -- right. exists (S k), l'. cbn [nth_error].
           repeat split; try assumption.
           ++ rewrite Hworst. f_equal. f_equal. lia.
           ++ intros [|j] l'' Hj E' Hne'; cbn [nth_error] in E'; [congruence|].
              apply (Hfirst j l''); [lia | assumption | assumption].
    + rewrite <- El in *.
      assert (Hne : l <> []) by (subst; discriminate).
      destruct (FV_mean l Hne (Hl Hne)) as [Hmean [Hrange _]].
      assert (Hlen : (0 <? List.length l)%nat = true) by (subst; reflexivity).
      rewrite Hlen, FV_ltb, HW, Hmean in Hstep. cbn [andb] in Hstep.
      destruct (Z.ltb_spec (meanValue l) W) as [Hlt|Hge];
        pose proof (f_equal fst Hstep) as Hb; pose proof (f_equal snd Hstep) as Ha;
        cbn [fst snd] in Hb, Ha.
      * destruct (IH (S day) (bestWorstStep st day l) (meanValue l)
                    ltac:(now rewrite Ha)) as [W' [HW' [Hall Hcase]]].
        exists W'. split; [exact HW'|].
        destruct Hcase as [[Hworst ->]|[k [l' [E [Hne' [Hworst [Hm [Hlt' Hfirst]]]]]]]].
        -- split.
           ++ intros [|k] l' E Hne'; cbn [nth_error] in E; [|eauto].
              injection E as <-. lia.
           ++ right. exists 0%nat, l. cbn [nth_error].
              repeat split; try assumption; try reflexivity.
              ** rewrite Hworst, Hb. f_equal. f_equal. lia.
              ** intros j l' Hj. lia.
        -- split.
           ++ intros [|k0] l0' E0 Hne0; cbn [nth_error] in E0; [|eauto].
              injection E0 as <-. lia.
           ++ right. exists (S k), l'. cbn [nth_error].
              repeat split; try assumption; try lia.
              ** rewrite Hworst. f_equal. f_equal. lia.
              ** intros [|j] l'' Hj E' Hne''; cbn [nth_error] in E'.
                 --- injection E' as <-. lia.
                 --- apply (Hfirst j l''); [lia | assumption | assumption].
      * destruct (IH (S day) (bestWorstStep st day l) W ltac:(now rewrite Ha))
          as [W' [HW' [Hall Hcase]]].
        exists W'. split; [exact HW'|].
        destruct Hcase as [[Hworst ->]|[k [l' [E [Hne' [Hworst [Hm [Hlt' Hfirst]]]]]]]].
        -- split.
           ++ intros [|k] l' E Hne'; cbn [nth_error] in E; [|eauto].
              injection E as <-. lia.
           ++ left. split; [congruence | reflexivity].
        -- split.
           ++ intros [|k0] l0' E0 Hne0; cbn [nth_error] in E0; [|eauto].
              injection E0 as <-. lia.
           ++ right. exists (S k), l'. cbn [nth_error].
              repeat split; try assumption; try lia.
              ** rewrite Hworst. f_equal. f_equal. lia.
              ** intros [|j] l'' Hj E' Hne''; cbn [nth_error] in E'.
                 --- injection E' as <-. lia.
                 --- apply (Hfirst j l''); [lia | assumption | assumption].
Qed.

(** The day totals filed under weekday [i] (0 is Sunday), in bucket order,
    and their mean. *)
Definition weekdayTotals (env : Env) (sessions : list Session) (i : nat) : list Z :=
  map snd (filter (onWeekday env i) (dailyTotals sessions)).

Definition weekdayMean (env : Env) (sessions : list Session) (i : nat) : float :=
  mean (weekdayTotals env sessions i).

Lemma minutesOn_nonneg (key : string) (sessions : list Session) :
  Forall (fun s => 0 <= minutesOf s) sessions -> 0 <= minutesOn key sessions.
Proof.
  intro H. unfold minutesOn. apply sumZ_nonneg.
  apply Forall_forall. intros x Hx. apply in_map_iff in Hx.
  destruct Hx as [s [<- Hs]]. apply filter_In in Hs.
  rewrite Forall_forall in H. apply (H s), Hs.
Qed.

Lemma dailyTotals_nonneg (sessions : list Session) :
  Forall (fun s => 0 <= minutesOf s) sessions ->
  Forall (fun e => 0 <= snd e) (dailyTotals sessions).
Proof.
  intro H. apply Forall_forall. intros e He.
  rewrite (snd_dailyTotals sessions e He). now apply minutesOn_nonneg.
Qed.

Lemma sum_filter_le (p : string * Z -> bool) (l : list (string * Z)) :
  Forall (fun e => 0 <= snd e) l ->
  0 <= sumZ (map snd (filter p l)) <= sumZ (map snd l).
Proof.
  induction 1 as [|e l He Hl IH]; cbn [filter map].
  - unfold sumZ. simpl. lia.
  - rewrite sumZ_cons. destruct (p e); cbn [map]; rewrite ?sumZ_cons; lia.
Qed.

Lemma sum_zero_all (l : list Z) :
  Forall (fun x => 0 <= x) l -> sumZ l = 0 -> forall x, In x l -> x = 0.
Proof.
  induction 1 as [|y l Hy Hl IH]; intros Hs x Hx; [destruct Hx|].
  rewrite sumZ_cons in Hs. pose proof (sumZ_nonneg l Hl).
  destruct Hx as [<-|Hx]; [lia|]. apply IH; [lia | exact Hx].
Qed.

Lemma weekdayTotals_small (env : Env) (sessions : list Session) (i : nat) :
  inDomain sessions = true -> smallList (weekdayTotals env sessions i).
Proof.
  intro Hin. destruct (inDomain_spec sessions Hin) as [Hwf [Hnn [Hsum Hlen]]].
  pose proof (dailyTotals_nonneg sessions Hnn) as Hd.
  unfold smallList, weekdayTotals. split; [|split].
  - apply Forall_forall. intros x Hx. apply in_map_iff in Hx.
    destruct Hx as [e [<- He]]. apply filter_In in He.
    rewrite Forall_forall in Hd. apply (Hd e), He.
  - pose proof (sum_filter_le (onWeekday env i) _ Hd). rewrite sum_dailyTotals in H. lia.
  - rewrite length_map.
    pose proof (filter_length_le (onWeekday env i) (dailyTotals sessions)).
    pose proof (length_dailyTotals sessions). lia.
Qed.

(** Every session is in the bucket of its date, and that bucket is filed
    under a weekday. *)
Lemma bucket_of_session (env : Env) (sessions : list Session) (s : Session) :
  wellFormed sessions = true -> In s sessions ->
  exists i, (i < 7)%nat /\
    In (minutesOn (date s) sessions) (weekdayTotals env sessions i).
Proof.
  intros Hwf Hs.
  assert (Hl : lookup (date s) (dailyTotals sessions) = Some (minutesOn (date s) sessions)).
  { rewrite lookup_dailyTotals.
    replace (existsb (fun s0 => String.eqb (date s0) (date s)) sessions) with true;
      [reflexivity|].
    symmetry. apply existsb_exists. exists s. split; [exact Hs | apply String.eqb_refl]. }
  assert (He : In (date s, minutesOn (date s) sessions) (dailyTotals sessions)).
  { revert Hl. generalize (minutesOn (date s) sessions) as m.
    generalize (dailyTotals sessions) as l.
    induction l as [|[k v] l IH]; intros m Hl; cbn [lookup] in Hl; [discriminate|].
    destruct (String.eqb k (date s)) eqn:E.
    - apply String.eqb_eq in E. injection Hl as ->. left. now rewrite E.
    - right. now apply IH. }
  unfold wellFormed in Hwf. rewrite forallb_forall in Hwf. specialize (Hwf s Hs).
  destruct (weekdayOf env (date s)) as [d|] eqn:Hd.
  - pose proof (weekdayOf_range _ _ _ Hd) as Hr.
    exists (Z.to_nat d). split; [lia|].
    unfold weekdayTotals. apply in_map_iff.
    exists (date s, minutesOn (date s) sessions). split; [reflexivity|].
    apply filter_In. split; [exact He|].
    unfold onWeekday. cbn [fst]. rewrite Hd. apply Nat.eqb_refl.
  - unfold weekdayOf in Hd. destruct (Calendar.parseDate (date s)); discriminate.
Qed.

Lemma week_slots (env : Env) (sessions : list Session) (week : list (list Z)) :
  dayOfWeekTotals env (dailyTotals sessions) emptyWeek = Some week ->
  (forall k l, nth_error week k = Some l ->
               (k < 7)%nat /\ l = weekdayTotals env sessions k) /\
  (forall k, (k < 7)%nat -> nth_error week k = Some (weekdayTotals env sessions k)).
Proof.
  intro Hweek.
  destruct (dayOfWeekTotals_spec env _ emptyWeek week eq_refl Hweek) as [Hlen Hnth].
  assert (Hslot : forall k, nth k week [] = weekdayTotals env sessions k).
  { intro k. rewrite Hnth. unfold weekdayTotals.
    replace (nth k emptyWeek []) with (@nil Z); [reflexivity|].
    do 7 (destruct k as [|k]; [reflexivity|]). now destruct k. }
  split.
  - intros k l E. split.
    + rewrite <- Hlen. apply nth_error_Some. congruence.
    + rewrite <- Hslot. symmetry. now apply nth_error_nth.
  - intros k Hk. rewrite <- Hslot. apply nth_error_nth'. lia.
Qed.

(** Whether the date of the bucket [e] falls on weekday [i] of the
    calendar. *)
Definition onDateWeekday (i : nat) (e : string * Z) : bool :=
  match Calendar.parseDate (fst e) with
  | Some d => (Z.to_nat (weekdayOfDay d) =? i)%nat
  | None => false
  end.

(** The day totals whose date falls on weekday [i] (0 is Sunday), in bucket
    order, and their mean. *)
Definition dateWeekdayTotals (sessions : list Session) (i : nat) : list Z :=
  map snd (filter (onDateWeekday i) (dailyTotals sessions)).

Definition dateWeekdayMean (sessions : list Session) (i : nat) : float :=
  mean (dateWeekdayTotals sessions i).

(** A host at or east of UTC, less than a day ahead: the UTC midnight of a
    date falls on that date locally. *)
Definition eastOfUTC (env : Env) : Prop :=
  forall t, 0 <= tz env t true < Calendar.msPerDay.

Lemma weekdayOf_date (env : Env) (key : string) :
  eastOfUTC env ->
  weekdayOf env key = option_map weekdayOfDay (Calendar.parseDate key).
Proof.
  intro Heast. unfold weekdayOf.
  destruct (Calendar.parseDate key) as [d|]; [|reflexivity].
  cbn [option_map]. f_equal. unfold getDay, weekdayOfDay, LocalTime.
  specialize (Heast (d * Calendar.msPerDay)).
  f_equal. f_equal. unfold Calendar.msPerDay in *.
  symmetry. apply (Z.div_unique _ _ _ (tz env (d * 86400000) true)); lia.
Qed.

Lemma weekdayTotals_by_date (env : Env) (sessions : list Session) (i : nat) :
  eastOfUTC env -> weekdayTotals env sessions i = dateWeekdayTotals sessions i.
Proof.
  intro Heast. unfold weekdayTotals, dateWeekdayTotals. f_equal.
  apply filter_ext. intros [key m]. unfold onWeekday, onDateWeekday. cbn [fst].
  rewrite (weekdayOf_date env key Heast).
  destruct (Calendar.parseDate key); reflexivity.
Qed.

(** C8, amended. On a host at or east of UTC, every day total is filed
    under the weekday of its date. On a non-empty input of the input domain
    [worstDay] is then present and names the first weekday (Sunday first)
    among those with a bucket whose mean of day totals is the lowest.
    [bestDay] is absent when every session has 0 minutes; otherwise it names
    the first weekday among those with a bucket whose mean is the highest,
    and that mean is above 0.  On the empty input both are absent. *)
Theorem best_and_worst_weekday (env : Env) (sessions allSessions : list Session)
    (targetHours : float) :
  eastOfUTC env -> inDomain sessions = true ->
  exists r,
    useAnalytics env sessions allSessions targetHours = Some r /\
    (sessions = [] -> bestDay r = None /\ worstDay r = None) /\
    (sessions <> [] ->
     (exists i, (i < 7)%nat /\
        worstDay r = Some (nth i dayNames ""%string) /\
        dateWeekdayTotals sessions i <> [] /\
        (forall j, (j < 7)%nat -> dateWeekdayTotals sessions j <> [] ->
           (dateWeekdayMean sessions j <? dateWeekdayMean sessions i)%float = false) /\
        (forall j, (j < i)%nat -> dateWeekdayTotals sessions j <> [] ->
           (dateWeekdayMean sessions i <? dateWeekdayMean sessions j)%float = true)) /\
     ((bestDay r = None /\ forall s, In s sessions -> minutesOf s = 0) \/
      (exists i, (i < 7)%nat /\
         bestDay r = Some (nth i dayNames ""%string) /\
         dateWeekdayTotals sessions i <> [] /\
         (0 <? dateWeekdayMean sessions i)%float = true /\
         (forall j, (j < 7)%nat -> dateWeekdayTotals sessions j <> [] ->
            (dateWeekdayMean sessions i <? dateWeekdayMean sessions j)%float = false) /\
         (forall j, (j < i)%nat -> dateWeekdayTotals sessions j <> [] ->
            (dateWeekdayMean sessions j <? dateWeekdayMean sessions i)%float = true)))).
Proof.
  intros Heast Hin.
  assert (Edate : forall i, weekdayTotals env sessions i = dateWeekdayTotals sessions i)
    by (intro i; now apply weekdayTotals_by_date).
  assert (Hsm : forall i, smallList (dateWeekdayTotals sessions i))
    by (intro i; rewrite <- Edate; now apply weekdayTotals_small).
  destruct sessions as [|s0 rest] eqn:Es.
  { eexists. split; [reflexivity|]. split; [intros _; split; reflexivity|].
    intro H. congruence. }
  rewrite <- Es in *.
  assert (Hne : sessions <> []) by (subst; discriminate).
  destruct (inDomain_spec sessions Hin) as [Hwf [Hnn [Hsum Hlen]]].
  destruct (useAnalytics_run env sessions allSessions targetHours Hne Hwf)
    as [week [Hweek Hrun]].
  assert (Hbucket : forall s, In s sessions -> exists i, (i < 7)%nat /\
            In (minutesOn (date s) sessions) (dateWeekdayTotals sessions i)).
  { intros s Hs. destruct (bucket_of_session env sessions s Hwf Hs) as [i [Hi Hmem]].
    exists i. split; [exact Hi|]. now rewrite <- Edate. }
  assert (Hslot : forall k l, nth_error week k = Some l ->
            (k < 7)%nat /\ l = dateWeekdayTotals sessions k).
  { intros k l Hk. destruct (week_slots env sessions week Hweek) as [H1 _].
    destruct (H1 k l Hk) as [Hk7 ->]. split; [exact Hk7 | apply Edate]. }
  assert (Hnth : forall k, (k < 7)%nat ->
            nth_error week k = Some (dateWeekdayTotals sessions k)).
  { intros k Hk. destruct (week_slots env sessions week Hweek) as [_ H2].
    rewrite <- Edate. now apply H2. }
  assert (Hsmall : Forall (fun l => l <> [] -> smallList l) week).
  { apply Forall_forall. intros l Hl _. apply In_nth_error in Hl.
    destruct Hl as [k Hk]. destruct (Hslot k l Hk) as [_ ->].
    apply Hsm. }
  assert (Hmean : forall j, dateWeekdayTotals sessions j <> [] ->
            FV (dateWeekdayMean sessions j) = Some (meanValue (dateWeekdayTotals sessions j)) /\
            0 <= meanValue (dateWeekdayTotals sessions j) < top /\
            (0 < meanValue (dateWeekdayTotals sessions j)
             <-> 0 < sumZ (dateWeekdayTotals sessions j))).
  { intros j Hj. apply FV_mean; [exact Hj | apply Hsm]. }
  eexists. split; [exact Hrun|]. cbn [bestDay worstDay].
  split; [intro; congruence|]. intros _. split.
  - destruct (loop_worst week Hsmall 0%nat
                {| best := None; worst := None; bestAvg := 0; worstAvg := infinity |}
                top eq_refl) as [W' [_ [Hall Hcase]]].
    fold (bestWorst week) in Hcase.
    destruct Hcase as [[_ ->]|[k [l [E [Hl [Hworst [Hm [Hlt Hfirst]]]]]]]].
    + exfalso.
      assert (Hs0 : In s0 sessions) by (subst; now left).
      destruct (Hbucket s0 Hs0) as [i [Hi Hmem]].
      assert (Hi' : dateWeekdayTotals sessions i <> []).
      { intro E. rewrite E in Hmem. exact Hmem. }
      pose proof (Hall i _ (Hnth i Hi) Hi').
      destruct (Hmean i Hi') as [_ [Hr _]]. lia.
    + destruct (Hslot k l E) as [Hk ->].
      exists k. split; [exact Hk|]. split; [exact Hworst|]. split; [exact Hl|].
      destruct (Hmean k Hl) as [Fk _]. split.
      * intros j Hj Hjne. destruct (Hmean j Hjne) as [Fj _].
        rewrite FV_ltb, Fj, Fk. apply Z.ltb_ge.
        pose proof (Hall j _ (Hnth j Hj) Hjne). lia.
      * intros j Hj Hjne. destruct (Hmean j Hjne) as [Fj _].
        rewrite FV_ltb, Fj, Fk. apply Z.ltb_lt.
        pose proof (Hfirst j _ Hj (Hnth j ltac:(lia)) Hjne). lia.
  - destruct (loop_best week Hsmall 0%nat
                {| best := None; worst := None; bestAvg := 0; worstAvg := infinity |}
                0 eq_refl) as [B' [_ [Hall Hcase]]].
    fold (bestWorst week) in Hcase.
    destruct Hcase as [[Hbest ->]|[k [l [E [Hl [Hbest [Hm [Hlt Hfirst]]]]]]]].
    + left. split; [exact Hbest|].
      intros s Hs.
      destruct (Hbucket s Hs) as [i [Hi Hmem]].
      assert (Hi' : dateWeekdayTotals sessions i <> []).
      { intro E. rewrite E in Hmem. exact Hmem. }
      pose proof (Hall i _ (Hnth i Hi) Hi') as Hle.
      destruct (Hmean i Hi') as [_ [_ Hpos]].
      destruct (Hsm i) as [Hnn' _].
      pose proof (sumZ_nonneg _ Hnn') as H0.
      assert (Hz : sumZ (dateWeekdayTotals sessions i) = 0).
      { destruct (Z.eq_dec (sumZ (dateWeekdayTotals sessions i)) 0) as [|N]; [assumption|].
        assert (0 < meanValue (dateWeekdayTotals sessions i)) by (apply Hpos; lia). lia. }
      pose proof (sum_zero_all _ Hnn' Hz _ Hmem) as Hday.
      unfold minutesOn in Hday.
      apply (sum_zero_all (map (fun s => orZero (duration_minutes s))
                 (filter (fun s1 => String.eqb (date s1) (date s)) sessions))).
      * apply Forall_forall. intros x Hx. apply in_map_iff in Hx.
        destruct Hx as [s1 [<- Hs1]]. apply filter_In in Hs1.
        rewrite Forall_forall in Hnn. apply (Hnn s1), Hs1.
      * exact Hday.
      * apply in_map_iff. exists s. split; [reflexivity|].
        apply filter_In. split; [exact Hs | apply String.eqb_refl].
    + right. destruct (Hslot k l E) as [Hk ->].
      exists k. split; [exact Hk|]. split; [exact Hbest|]. split; [exact Hl|].
      destruct (Hmean k Hl) as [Fk _]. split; [|split].
      * rewrite FV_ltb, Fk. change (FV 0) with (Some 0). apply Z.ltb_lt. lia.
      * intros j Hj Hjne. destruct (Hmean j Hjne) as [Fj _].
        rewrite FV_ltb, Fj, Fk. apply Z.ltb_ge.
        pose proof (Hall j _ (Hnth j Hj) Hjne). lia.
      * intros j Hj Hjne. destruct (Hmean j Hjne) as [Fj _].
        rewrite FV_ltb, Fj, Fk. apply Z.ltb_lt.
        pose proof (Hfirst j _ Hj (Hnth j ltac:(lia)) Hjne). lia.
Qed.

(** A Sunday of ten hours and a Wednesday of five. *)
Definition twoDays : list Session :=
  [session "2024-01-07" 1704598200000 1704634200000 600;
   session "2024-01-03" 1704252600000 1704270600000 300].

Lemma india_eastOfUTC (env : Env) : tz env = fixedZone 330 -> eastOfUTC env.
Proof.
  intros Hz t. rewrite Hz. unfold fixedZone, Calendar.msPerMinute, Calendar.msPerDay. lia.
Qed.

Lemma best_and_worst_weekday_witness :
  exists r,
    useAnalytics wednesdayNoon twoDays [] 200 = Some r /\
    (twoDays = [] -> bestDay r = None /\ worstDay r = None) /\
    (twoDays <> [] ->
     (exists i, (i < 7)%nat /\
        worstDay r = Some (nth i dayNames ""%string) /\
        dateWeekdayTotals twoDays i <> [] /\
        (forall j, (j < 7)%nat -> dateWeekdayTotals twoDays j <> [] ->
           (dateWeekdayMean twoDays j <? dateWeekdayMean twoDays i)%float = false) /\
        (forall j, (j < i)%nat -> dateWeekdayTotals twoDays j <> [] ->
           (dateWeekdayMean twoDays i <? dateWeekdayMean twoDays j)%float = true)) /\
     ((bestDay r = None /\ forall s, In s twoDays -> minutesOf s = 0) \/
      (exists i, (i < 7)%nat /\
         bestDay r = Some (nth i dayNames ""%string) /\
         dateWeekdayTotals twoDays i <> [] /\
         (0 <? dateWeekdayMean twoDays i)%float = true /\
         (forall j, (j < 7)%nat -> dateWeekdayTotals twoDays j <> [] ->
            (dateWeekdayMean twoDays i <? dateWeekdayMean twoDays j)%float = false) /\
         (forall j, (j < i)%nat -> dateWeekdayTotals twoDays j <> [] ->
            (dateWeekdayMean twoDays j <? dateWeekdayMean twoDays i)%float = true)))).
Proof.
  apply (best_and_worst_weekday wednesdayNoon twoDays [] 200);
    [apply india_eastOfUTC; reflexivity | reflexivity].
Defined.

(** On that input the best weekday is the Sunday and the worst the
    Wednesday. *)
Example best_sunday_worst_wednesday :
  option_map (fun r => (bestDay r, worstDay r)) (useAnalytics wednesdayNoon twoDays [] 200)
  = Some (Some "Sunday"%string, Some "Wednesday"%string).
Proof. vm_compute. reflexivity. Qed.

(** * Further properties of the engine *)

(** ** Floors, ceilings and rounded quotients of small integers *)

(** [Math.floor] and [Math.ceil] on values. *)
Definition floorv (a : Z) : Z := a / 2 ^ 1074 * 2 ^ 1074.
Definition ceilv (a : Z) : Z := - ((- a) / 2 ^ 1074) * 2 ^ 1074.

Lemma pow2_split (k : Z) : 0 <= k <= 1074 -> 2 ^ 1074 = 2 ^ k * 2 ^ (1074 - k).
Proof. intro Hk. rewrite <- Z.pow_add_r by lia. f_equal. lia. Qed.

Lemma FV_floor (x : float) (a : Z) :
  FV x = Some a -> - top < a < top -> FV (JS.Math_floor x) = Some (floorv a).
Proof.
  unfold FV, JS.Math_floor. intros Hx Ra.
  pose proof (Prim2SF_valid x) as V.
  assert (Ht : 0 < top) by (apply pow2_pos; lia).
  destruct (Prim2SF x) as [s|s| |s m e] eqn:E; cbn [SFV] in Hx; try discriminate;
    sfv_inj Hx a.
  - rewrite E. reflexivity.
  - destruct s; lia.
  - pose proof (valid_finite _ _ _ V) as [C [Ee M]].
    set (v := if s then Zneg m else Zpos m).
    assert (Ev : cond_Zopp s (Zpos m * 2 ^ (e + 1074)) = v * 2 ^ (e + 1074))
      by (unfold v; destruct s; cbn [cond_Zopp]; lia).
    assert (Hv : - 2 ^ 53 < v < 2 ^ 53) by (unfold v; destruct s; lia).
    assert (P : 0 < 2 ^ 1074) by (apply pow2_pos; lia).
    destruct (Z.leb_spec 0 e) as [He|He].
    + rewrite E. cbn [SFV]. f_equal. rewrite Ev. unfold floorv.
      replace (v * 2 ^ (e + 1074)) with (v * 2 ^ e * 2 ^ 1074)
        by (rewrite Z.pow_add_r by lia; ring).
      now rewrite Z.div_mul by lia.
    + set (k := - e).
      assert (Hk : 0 < k <= 1074) by (unfold k; lia).
      pose proof (pow2_pos k ltac:(lia)) as Pk.
      pose proof (pow2_pos (1074 - k) ltac:(lia)) as Pk'.
      set (n := v / 2 ^ k).
      assert (En : floorv (cond_Zopp s (Zpos m * 2 ^ (e + 1074))) = n * 2 ^ 1074).
      { rewrite Ev. unfold floorv. f_equal. unfold n.
        replace (e + 1074) with (1074 - k) by (unfold k; lia).
        rewrite (pow2_split k) at 1 by lia.
        apply Z.div_mul_cancel_r; lia. }
      rewrite En.
      assert (Hn : - 2 ^ 53 <= n <= 2 ^ 53).
      { unfold n. split.
        - apply Z.div_le_lower_bound; nia.
        - apply Z.div_le_upper_bound; nia. }
      fold n. destruct (Z.eqb_spec n 0) as [E0|NE].
      * rewrite E0. apply FV_signedZero.
      * apply FV_Z2F. exact Hn.
Qed.

Lemma FV_ceil (x : float) (a : Z) :
  FV x = Some a -> - top < a < top -> FV (JS.Math_ceil x) = Some (ceilv a).
Proof.
  unfold FV, JS.Math_ceil. intros Hx Ra.
  pose proof (Prim2SF_valid x) as V.
  assert (Ht : 0 < top) by (apply pow2_pos; lia).
  destruct (Prim2SF x) as [s|s| |s m e] eqn:E; cbn [SFV] in Hx; try discriminate;
    sfv_inj Hx a.
  - rewrite E. reflexivity.
  - destruct s; lia.
  - pose proof (valid_finite _ _ _ V) as [C [Ee M]].
    set (v := if s then Zneg m else Zpos m).
    assert (Ev : cond_Zopp s (Zpos m * 2 ^ (e + 1074)) = v * 2 ^ (e + 1074))
      by (unfold v; destruct s; cbn [cond_Zopp]; lia).
    assert (Hv : - 2 ^ 53 < v < 2 ^ 53) by (unfold v; destruct s; lia).
    assert (P : 0 < 2 ^ 1074) by (apply pow2_pos; lia).
    destruct (Z.leb_spec 0 e) as [He|He].
    + rewrite E. cbn [SFV]. f_equal. rewrite Ev. unfold ceilv.
      replace (- (v * 2 ^ (e + 1074))) with (- (v * 2 ^ e) * 2 ^ 1074)
        by (rewrite Z.pow_add_r by lia; ring).
      rewrite Z.div_mul by lia. rewrite Z.pow_add_r by lia. ring.
    + set (k := - e).
      assert (Hk : 0 < k <= 1074) by (unfold k; lia).
      pose proof (pow2_pos k ltac:(lia)) as Pk.
      pose proof (pow2_pos (1074 - k) ltac:(lia)) as Pk'.
      set (n := - ((- v) / 2 ^ k)).
      assert (En : ceilv (cond_Zopp s (Zpos m * 2 ^ (e + 1074))) = n * 2 ^ 1074).
      { rewrite Ev. unfold ceilv. f_equal. unfold n. f_equal.
        replace (e + 1074) with (1074 - k) by (unfold k; lia).
        replace (- (v * 2 ^ (1074 - k))) with ((- v) * 2 ^ (1074 - k)) by ring.
        rewrite (pow2_split k) at 1 by lia.
        apply Z.div_mul_cancel_r; lia. }
      rewrite En.
      assert (Hn : - 2 ^ 53 <= n <= 2 ^ 53).
      { unfold n.
        assert (- 2 ^ 53 <= - v / 2 ^ k <= 2 ^ 53); [|lia]. split.
        - apply Z.div_le_lower_bound; nia.
        - apply Z.div_le_upper_bound; nia. }
      fold n. destruct (Z.eqb_spec n 0) as [E0|NE].
      * rewrite E0. apply FV_signedZero.
      * apply FV_Z2F. exact Hn.
Qed.

(** A dyadic value of at most 53 bits is its own rounding. *)
Lemma rnd_dyadic (m j b : Z) :
  0 <= m < 2 ^ 53 -> 0 <= j -> m * 2 ^ j <= top -> 0 < b ->
  rnd (m * 2 ^ j * b) b = m * 2 ^ j.
Proof.
  intros Hm Hj Ht Hb. unfold rnd.
  pose proof (pow2_pos j Hj) as Pj.
  destruct (Z.ltb_spec (m * 2 ^ j * b) 0) as [N|_]; [nia|].
  rewrite RND_exact by lia. lia.
Qed.

(** The value [k * 2^-j] in units, for [j] up to 1074. *)
Definition dyadic (k j : Z) : Z := k * 2 ^ (1074 - j).

Lemma rnd_le_dyadic (a b k j : Z) :
  0 < b -> 0 <= k < 2 ^ 53 -> 0 <= j <= 1074 ->
  a * 2 ^ j <= k * unit * b -> rnd a b <= dyadic k j.
Proof.
  intros Hb Hk Hj H. unfold dyadic.
  pose proof (pow2_pos j ltac:(lia)) as Pj.
  pose proof (pow2_pos (1074 - j) ltac:(lia)) as Pj'.
  assert (Ht : k * 2 ^ (1074 - j) <= top).
  { unfold top. replace 2098 with (1024 + 1074) by lia.
    rewrite Z.pow_add_r by lia.
    assert (2 ^ 53 < 2 ^ 1024) by reflexivity.
    assert (2 ^ (1074 - j) <= 2 ^ 1074) by (apply Z.pow_le_mono_r; lia).
    assert (0 < 2 ^ 1074) by (apply pow2_pos; lia). nia. }
  rewrite <- (rnd_dyadic k (1074 - j) (2 ^ j)) by lia.
  apply rnd_mono; [lia | lia |].
  replace (k * 2 ^ (1074 - j) * 2 ^ j * b)
    with (k * (2 ^ j * 2 ^ (1074 - j)) * b) by ring.
  rewrite <- (pow2_split j) by lia. unfold unit in H. nia.
Qed.

Lemma rnd_ge_dyadic (a b k j : Z) :
  0 < b -> 0 <= k < 2 ^ 53 -> 0 <= j <= 1074 ->
  k * unit * b <= a * 2 ^ j -> dyadic k j <= rnd a b.
Proof.
  intros Hb Hk Hj H. unfold dyadic.
  pose proof (pow2_pos j ltac:(lia)) as Pj.
  pose proof (pow2_pos (1074 - j) ltac:(lia)) as Pj'.
  assert (Ht : k * 2 ^ (1074 - j) <= top).
  { unfold top. replace 2098 with (1024 + 1074) by lia.
    rewrite Z.pow_add_r by lia.
    assert (2 ^ 53 < 2 ^ 1024) by reflexivity.
    assert (2 ^ (1074 - j) <= 2 ^ 1074) by (apply Z.pow_le_mono_r; lia).
    assert (0 < 2 ^ 1074) by (apply pow2_pos; lia). nia. }
  rewrite <- (rnd_dyadic k (1074 - j) (2 ^ j)) by lia.
  apply rnd_mono; [lia | lia |].
  replace (k * 2 ^ (1074 - j) * 2 ^ j * b)
    with (k * (2 ^ j * 2 ^ (1074 - j)) * b) by ring.
  rewrite <- (pow2_split j) by lia. unfold unit in H. nia.
Qed.

Lemma dyadic_scale (k j : Z) : 0 <= j <= 1074 -> dyadic k j * 2 ^ j = k * unit.
Proof.
  intro Hj. unfold dyadic, unit. rewrite (pow2_split j) by lia. ring.
Qed.

(** The value of the quotient of two integers. *)
Definition quotV (s n : Z) : Z := rnd (s * unit * unit) (n * unit).

Lemma FV_quot (s n : Z) :
  - 2 ^ 53 <= s <= 2 ^ 53 -> 0 < n <= 2 ^ 53 ->
  FV (JS.Z2F s / JS.Z2F n) = Some (quotV s n).
Proof.
  intros Hs Hn. pose proof unit_pos as U.
  assert (2 ^ 53 < 2 ^ 1024) by reflexivity.
  apply (FV_div _ _ (s * unit) (n * unit)).
  - now apply FV_Z2F.
  - apply FV_Z2F. lia.
  - rewrite top_unit. nia.
  - rewrite top_unit. nia.
Qed.

Lemma quotV_range (s n : Z) :
  0 <= s < 2 ^ 53 -> 0 < n -> 0 <= quotV s n <= s * unit.
Proof.
  intros Hs Hn. pose proof unit_pos as U. unfold quotV. split.
  - apply rnd_nonneg; nia.
  - rewrite <- (rnd_int1 s) at 2 by lia.
    apply rnd_mono; [nia | lia |].
    rewrite Z.mul_1_r.
    replace (s * unit * (n * unit)) with (s * unit * unit * n) by ring.
    rewrite <- (Z.mul_1_r (s * unit * unit)) at 1.
    apply Z.mul_le_mono_nonneg_l; [|lia].
    apply Z.mul_nonneg_nonneg; [apply Z.mul_nonneg_nonneg|]; lia.
Qed.

(** [Math.round(s / n)] is the quotient rounded to the nearest integer, a
    half going up, when a step of [2^-j] separates the quotients of
    denominator [n] from the halves. *)
Lemma roundv_quot (s n j : Z) :
  0 <= s -> 0 < n -> 1 <= j <= 1074 -> 2 * n <= 2 ^ j ->
  (2 * ((2 * s + n) / (2 * n)) + 1) * 2 ^ (j - 1) <= 2 ^ 53 ->
  roundv (quotV s n) = (2 * s + n) / (2 * n) * unit.
Proof.
  intros Hs Hn Hj Hnj Hk. pose proof unit_pos as U.
  set (k := (2 * s + n) / (2 * n)) in *.
  assert (Hk0 : 0 <= k) by (apply Z.div_pos; lia).
  assert (Hdiv : k * (2 * n) <= 2 * s + n < (k + 1) * (2 * n)).
  { unfold k. pose proof (Z.mul_div_le (2 * s + n) (2 * n) ltac:(lia)).
    pose proof (Z.mul_succ_div_gt (2 * s + n) (2 * n) ltac:(lia)). lia. }
  pose proof (pow2_pos (j - 1) ltac:(lia)) as Pj1.
  assert (Ej : 2 ^ j = 2 * 2 ^ (j - 1)).
  { replace j with (1 + (j - 1)) at 1 by lia. rewrite Z.pow_add_r by lia. reflexivity. }
  set (q := quotV s n).
  assert (Hup : q * 2 ^ j <= ((2 * k + 1) * 2 ^ (j - 1) - 1) * unit).
  { rewrite <- (dyadic_scale _ j) by lia.
    apply Z.mul_le_mono_nonneg_r; [lia|].
    apply rnd_le_dyadic; [nia | nia | lia |].
    assert (s * 2 ^ j <= ((2 * k + 1) * 2 ^ (j - 1) - 1) * n) by nia.
    replace (s * unit * unit * 2 ^ j) with (s * 2 ^ j * (unit * unit)) by ring.
    replace (((2 * k + 1) * 2 ^ (j - 1) - 1) * unit * (n * unit))
      with (((2 * k + 1) * 2 ^ (j - 1) - 1) * n * (unit * unit)) by ring.
    apply Z.mul_le_mono_nonneg_r; [nia | assumption]. }
  assert (Hlow : (2 * k - 1) * unit <= 2 * q).
  { destruct (Z.eq_dec k 0) as [K0|KN].
    - assert (0 <= q) by (apply rnd_nonneg; nia). nia.
    - assert (dyadic (2 * k - 1) 1 <= q).
      { apply rnd_ge_dyadic; [nia | nia | lia |].
        change (2 ^ 1) with 2.
        replace ((2 * k - 1) * unit * (n * unit))
          with ((2 * k - 1) * n * (unit * unit)) by ring.
        replace (s * unit * unit * 2) with (2 * s * (unit * unit)) by ring.
        apply Z.mul_le_mono_nonneg_r; [nia | nia]. }
      pose proof (dyadic_scale (2 * k - 1) 1 ltac:(lia)) as D.
      change (2 ^ 1) with 2 in D. lia. }
  unfold roundv. fold q. change (2 ^ 1074) with unit. f_equal.
  change (2 ^ 1075) with (2 * unit).
  symmetry. apply (Z.div_unique_pos _ _ _ (2 * q + unit - 2 * unit * k)); [|lia].
  split; [lia|].
  assert (2 * q < (2 * k + 1) * unit); [|lia].
  assert (q * 2 ^ j < (2 * k + 1) * 2 ^ (j - 1) * unit) by nia.
  rewrite Ej in H. nia.
Qed.

(** [Math.floor(s / n)] is the integer quotient. *)
Lemma floorv_quot (s n j : Z) :
  0 <= s -> 0 < n <= 2 ^ j -> 0 <= j <= 1074 -> (s / n + 1) * 2 ^ j <= 2 ^ 53 ->
  floorv (quotV s n) = s / n * unit.
Proof.
  intros Hs Hn Hj Hk. pose proof unit_pos as U.
  set (k := s / n) in *.
  assert (Hk0 : 0 <= k) by (apply Z.div_pos; lia).
  assert (Hdiv : k * n <= s < (k + 1) * n).
  { unfold k. pose proof (Z.mul_div_le s n ltac:(lia)).
    pose proof (Z.mul_succ_div_gt s n ltac:(lia)). lia. }
  pose proof (pow2_pos j ltac:(lia)) as Pj.
  set (q := quotV s n).
  assert (Hup : q * 2 ^ j <= ((k + 1) * 2 ^ j - 1) * unit).
  { rewrite <- (dyadic_scale _ j) by lia.
    apply Z.mul_le_mono_nonneg_r; [lia|].
    apply rnd_le_dyadic; [nia | nia | lia |].
    assert (s * 2 ^ j <= ((k + 1) * 2 ^ j - 1) * n) by nia.
    replace (s * unit * unit * 2 ^ j) with (s * 2 ^ j * (unit * unit)) by ring.
    replace (((k + 1) * 2 ^ j - 1) * unit * (n * unit))
      with (((k + 1) * 2 ^ j - 1) * n * (unit * unit)) by ring.
    apply Z.mul_le_mono_nonneg_r; [nia | assumption]. }
  assert (Hlow : k * unit <= q).
  { assert (dyadic k 0 <= q).
    { apply rnd_ge_dyadic; [nia | nia | lia |].
      change (2 ^ 0) with 1.
      replace (k * unit * (n * unit)) with (k * n * (unit * unit)) by ring.
      replace (s * unit * unit * 1) with (s * (unit * unit)) by ring.
      apply Z.mul_le_mono_nonneg_r; [nia | lia]. }
    pose proof (dyadic_scale k 0 ltac:(lia)) as D.
    change (2 ^ 0) with 1 in D. lia. }
  unfold floorv. fold q. change (2 ^ 1074) with unit. f_equal.
  symmetry. apply (Z.div_unique_pos _ _ _ (q - unit * k)); [|lia].
  split; [lia|].
  assert (q < (k + 1) * unit); [|lia]. nia.
Qed.

(** [Math.ceil(c / m * 4)], for a count [c] of at most [m]. *)
Lemma ceilv_quarters (c m : Z) :
  0 <= c <= m -> 0 < m <= 2 ^ 32 ->
  ceilv (rnd (quotV c m * (4 * unit)) unit) = (4 * c + m - 1) / m * unit.
Proof.
  intros Hc Hm. pose proof unit_pos as U.
  set (k := (4 * c + m - 1) / m).
  assert (Hk0 : 0 <= k) by (apply Z.div_pos; lia).
  assert (Hdiv : k * m <= 4 * c + m - 1 < (k + 1) * m).
  { unfold k. pose proof (Z.mul_div_le (4 * c + m - 1) m ltac:(lia)).
    pose proof (Z.mul_succ_div_gt (4 * c + m - 1) m ltac:(lia)). lia. }
  assert (Hk4 : k <= 4) by nia.
  set (q := quotV c m).
  set (p := rnd (q * (4 * unit)) unit).
  assert (Hq : q * 4 <= k * unit).
  { assert (q <= dyadic k 2).
    { apply rnd_le_dyadic; [nia | lia | lia |].
      change (2 ^ 2) with 4.
      replace (k * unit * (m * unit)) with (k * m * (unit * unit)) by ring.
      replace (c * unit * unit * 4) with (4 * c * (unit * unit)) by ring.
      apply Z.mul_le_mono_nonneg_r; [nia | lia]. }
    pose proof (dyadic_scale k 2 ltac:(lia)) as D. change (2 ^ 2) with 4 in D. lia. }
  assert (Hp : p <= k * unit).
  { assert (p <= dyadic k 0).
    { apply rnd_le_dyadic; [lia | lia | lia |]. change (2 ^ 0) with 1. nia. }
    pose proof (dyadic_scale k 0 ltac:(lia)) as D. change (2 ^ 0) with 1 in D. lia. }
  assert (Hlow : (k - 1) * unit < p).
  { destruct (Z.eq_dec k 0) as [K0|KN].
    - assert (0 <= q) by (apply rnd_nonneg; nia).
      assert (0 <= p) by (apply rnd_nonneg; nia). nia.
    - assert (P32 : 2 ^ 34 = 4 * 2 ^ 32) by reflexivity.
      assert (P32' : 0 < 2 ^ 32) by reflexivity.
      assert (S53 : 5 * 2 ^ 32 < 2 ^ 53) by reflexivity.
      assert (Hq' : ((k - 1) * 2 ^ 32 + 1) * unit <= q * 2 ^ 34).
      { rewrite <- (dyadic_scale _ 34) by lia.
        apply Z.mul_le_mono_nonneg_r; [lia|].
        apply rnd_ge_dyadic; [nia | nia | lia |].
        replace (((k - 1) * 2 ^ 32 + 1) * unit * (m * unit))
          with (((k - 1) * 2 ^ 32 + 1) * m * (unit * unit)) by ring.
        replace (c * unit * unit * 2 ^ 34) with (c * 2 ^ 34 * (unit * unit)) by ring.
        apply Z.mul_le_mono_nonneg_r; [nia | nia]. }
      assert (Hp' : ((k - 1) * 2 ^ 32 + 1) * unit <= p * 2 ^ 32).
      { rewrite <- (dyadic_scale _ 32) by lia.
        apply Z.mul_le_mono_nonneg_r; [lia|].
        apply rnd_ge_dyadic; [lia | nia | lia |]. nia. }
      nia. }
  unfold ceilv. fold q p. change (2 ^ 1074) with unit. f_equal.
  assert (E : - p / unit = - k); [|lia].
  symmetry. apply (Z.div_unique_pos _ _ _ (- p + unit * k)); lia.
Qed.

(** ** Average start and end times *)

(** The mean of a list of minutes, rounded to the nearest minute, a half
    going up; and the text [HH:MM] of a minute of the day. *)
Definition meanMinute (times : list Z) : Z :=
  (2 * sumZ times + Z.of_nat (List.length times)) / (2 * Z.of_nat (List.length times)).

Definition clockText (m : Z) : string :=
  (Calendar.pad2 (m / 60) ++ ":" ++ Calendar.pad2 (m mod 60))%string.

Lemma minuteOfDay_range (env : Env) (t : Z) : 0 <= minuteOfDay env t < 1440.
Proof.
  unfold minuteOfDay, getHours, getMinutes.
  pose proof (Z.mod_pos_bound (LocalTime env t / Calendar.msPerHour) 24 ltac:(lia)).
  pose proof (Z.mod_pos_bound (LocalTime env t / Calendar.msPerMinute) 60 ltac:(lia)).
  lia.
Qed.

Lemma timesOf_range (env : Env) (f : Session -> option Z) (sessions : list Session) :
  Forall (fun m => 0 <= m < 1440) (timesOf env f sessions).
Proof.
  induction sessions as [|s l IH]; cbn [timesOf]; [constructor|].
  destruct (f s); [constructor; [apply minuteOfDay_range | exact IH] | exact IH].
Qed.

Lemma timesOf_length (env : Env) (f : Session -> option Z) (sessions : list Session) :
  (List.length (timesOf env f sessions) <= List.length sessions)%nat.
Proof.
  induction sessions as [|s l IH]; cbn [timesOf List.length]; [lia|].
  destruct (f s); cbn [List.length]; lia.
Qed.

Lemma timesOf_nil (env : Env) (f : Session -> option Z) (sessions : list Session) :
  timesOf env f sessions = [] <-> Forall (fun s => f s = None) sessions.
Proof.
  induction sessions as [|s l IH]; cbn [timesOf].
  - split; [constructor | reflexivity].
  - destruct (f s) eqn:E.
    + split; [discriminate|]. intro H. inversion H; subst. congruence.
    + rewrite IH. split; [now constructor | intro H; now inversion H].
Qed.

Lemma sum_bounds (l : list Z) (c : Z) :
  Forall (fun m => 0 <= m < c) l -> 0 <= sumZ l <= (c - 1) * Z.of_nat (List.length l).
Proof.
  induction 1 as [|x l Hx Hl IH].
  - unfold sumZ. simpl. lia.
  - rewrite sumZ_cons. cbn [List.length]. lia.
Qed.

Lemma meanMinute_range (times : list Z) :
  times <> [] -> Forall (fun m => 0 <= m < 1440) times -> 0 <= meanMinute times < 1440.
Proof.
  intros Hne H. pose proof (sum_bounds times 1440 H) as Hs.
  assert (0 < Z.of_nat (List.length times)) by (destruct times; [congruence | cbn; lia]).
  unfold meanMinute. split.
  - apply Z.div_pos; lia.
  - apply Z.div_lt_upper_bound; lia.
Qed.

Lemma toZ_Z2F (n : Z) : - 2 ^ 53 <= n <= 2 ^ 53 -> JS.toZ (JS.Z2F n) = Some n.
Proof.
  intro Hn. apply toZ_value; [|now apply FV_Z2F].
  assert (2 ^ 53 < 2 ^ 1024) by reflexivity. lia.
Qed.

(** The text of an integral number of minutes below a day. *)
Lemma formatHHMM_minutes (a : float) (m : Z) :
  0 <= m < 1440 -> FV a = Some (m * unit) ->
  formatHHMM (Some a) = Some (clockText m).
Proof.
  intros Hm Ha. pose proof unit_pos as U.
  assert (S1 : 2 ^ 11 < 2 ^ 1024) by reflexivity.
  assert (S2 : 2 ^ 11 < 2 ^ 53) by reflexivity.
  assert (Hz : JS.toZ a = Some m) by (apply toZ_value; [lia | exact Ha]).
  unfold formatHHMM, clockText. do 2 f_equal.
  - (* the hours *)
    assert (Hq : FV (a / 60) = Some (quotV m 60)).
    { destruct FV_consts as [H60 _].
      apply (FV_div _ _ (m * unit) (60 * unit) Ha H60); rewrite top_unit; nia. }
    assert (Hf : FV (JS.Math_floor (a / 60)) = Some (m / 60 * unit)).
    { rewrite (FV_floor _ _ Hq).
      - f_equal. apply (floorv_quot m 60 6); try lia.
        assert (m / 60 < 24) by (apply Z.div_lt_upper_bound; lia).
        change (2 ^ 6) with 64. lia.
      - pose proof (quotV_range m 60 ltac:(lia) ltac:(lia)). rewrite top_unit. nia. }
    unfold padNum. rewrite (toZ_value _ (m / 60)); [reflexivity | | exact Hf].
    assert (0 <= m / 60 < 24)
      by (split; [apply Z.div_pos | apply Z.div_lt_upper_bound]; lia). lia.
  - (* the minutes *)
    f_equal. unfold rem60. rewrite Hz.
    rewrite Z.rem_mod_nonneg by lia.
    pose proof (Z.mod_pos_bound m 60 ltac:(lia)) as Hr.
    destruct (Z.eqb_spec (m mod 60) 0) as [E|NE].
    + rewrite E. destruct (Z.ltb_spec m 0); [lia|]. reflexivity.
    + unfold padNum. rewrite toZ_Z2F by lia. reflexivity.
Qed.

Lemma formatHHMM_avg (times : list Z) :
  times <> [] -> Forall (fun m => 0 <= m < 1440) times ->
  Z.of_nat (List.length times) < 2 ^ 32 ->
  formatHHMM (avgMinutes times) = Some (clockText (meanMinute times)).
Proof.
  intros Hne Hr Hlen. pose proof unit_pos as U.
  pose proof (sum_bounds times 1440 Hr) as Hs.
  pose proof (meanMinute_range times Hne Hr) as Hm.
  set (n := Z.of_nat (List.length times)) in *.
  assert (Hn : 0 < n) by (unfold n; destruct times; [congruence | cbn; lia]).
  assert (S1 : 1439 * 2 ^ 32 < 2 ^ 53) by reflexivity.
  assert (S2 : 2 ^ 53 < 2 ^ 1024) by reflexivity.
  unfold avgMinutes.
  replace (0 <? List.length times)%nat with true
    by (symmetry; apply Nat.ltb_lt; destruct times; [congruence | cbn; lia]).
  apply formatHHMM_minutes; [exact Hm|].
  fold n.
  pose proof (FV_quot (sumZ times) n ltac:(lia) ltac:(lia)) as Hq.
  rewrite (FV_round _ _ Hq).
  - f_equal. apply (roundv_quot (sumZ times) n 33); try lia.
    unfold meanMinute in Hm. fold n in Hm.
    change (2 ^ (33 - 1)) with (2 ^ 32).
    assert (2881 * 2 ^ 32 < 2 ^ 53) by reflexivity. nia.
  - pose proof (quotV_range (sumZ times) n ltac:(lia) ltac:(lia)).
    rewrite top_unit. nia.
Qed.

(** X1. The average start (end) time is absent exactly when no session has a
    punch-in (punch-out) instant. *)
Theorem average_time_absent_without_punch (env : Env) (sessions allSessions : list Session)
    (targetHours : float) :
  sessions <> [] -> wellFormed sessions = true ->
  exists r, useAnalytics env sessions allSessions targetHours = Some r /\
    (avgStartTime r = None <-> Forall (fun s => punch_in s = None) sessions) /\
    (avgEndTime r = None <-> Forall (fun s => punch_out s = None) sessions).
Proof.
  intros Hne Hwf.
  destruct (useAnalytics_run env sessions allSessions targetHours Hne Hwf) as [week [_ Hrun]].
  eexists. split; [exact Hrun|]. cbn [avgStartTime avgEndTime].
  assert (H : forall f, formatHHMM (avgMinutes (timesOf env f sessions)) = None
                        <-> Forall (fun s => f s = None) sessions).
  { intro f. split; intro H.
    - apply (timesOf_nil env). destruct (timesOf env f sessions); [reflexivity | discriminate H].
    - apply (timesOf_nil env) in H. rewrite H. reflexivity. }
  split; apply H.
Qed.

(** X2. When present, the average start (end) time is the text [HH:MM] of the
    mean minute of the day of the punch-ins (punch-outs), in local time,
    rounded to the nearest minute with a half going up. *)
Theorem average_time_is_rounded_mean (env : Env) (sessions allSessions : list Session)
    (targetHours : float) :
  sessions <> [] -> wellFormed sessions = true ->
  Z.of_nat (List.length sessions) < 2 ^ 32 ->
  exists r, useAnalytics env sessions allSessions targetHours = Some r /\
    (forall t ts, timesOf env punch_in sessions = t :: ts ->
       avgStartTime r = Some (clockText (meanMinute (t :: ts))) /\
       0 <= meanMinute (t :: ts) < 1440) /\
    (forall t ts, timesOf env punch_out sessions = t :: ts ->
       avgEndTime r = Some (clockText (meanMinute (t :: ts))) /\
       0 <= meanMinute (t :: ts) < 1440).
Proof.
  intros Hne Hwf Hlen.
  destruct (useAnalytics_run env sessions allSessions targetHours Hne Hwf) as [week [_ Hrun]].
  eexists. split; [exact Hrun|]. cbn [avgStartTime avgEndTime].
  assert (H : forall f t ts, timesOf env f sessions = t :: ts ->
            formatHHMM (avgMinutes (timesOf env f sessions))
            = Some (clockText (meanMinute (t :: ts))) /\
            0 <= meanMinute (t :: ts) < 1440).
  { intros f t ts E.
    pose proof (timesOf_range env f sessions) as Hr.
    pose proof (timesOf_length env f sessions) as Hl.
    rewrite E in *. split.
    - apply formatHHMM_avg; [discriminate | exact Hr | lia].
    - apply meanMinute_range; [discriminate | exact Hr]. }
  split; apply H.
Qed.

Lemma average_time_is_rounded_mean_witness :
  exists r, useAnalytics wednesdayNoon twoDays [] 200 = Some r /\
    (forall t ts, timesOf wednesdayNoon punch_in twoDays = t :: ts ->
       avgStartTime r = Some (clockText (meanMinute (t :: ts))) /\
       0 <= meanMinute (t :: ts) < 1440) /\
    (forall t ts, timesOf wednesdayNoon punch_out twoDays = t :: ts ->
       avgEndTime r = Some (clockText (meanMinute (t :: ts))) /\
       0 <= meanMinute (t :: ts) < 1440).
Proof.
  apply (average_time_is_rounded_mean wednesdayNoon twoDays [] 200);
    [discriminate | reflexivity | reflexivity].
Defined.

Lemma average_time_absent_without_punch_witness :
  exists r, useAnalytics wednesdayNoon twoDays [] 200 = Some r /\
    (avgStartTime r = None <-> Forall (fun s => punch_in s = None) twoDays) /\
    (avgEndTime r = None <-> Forall (fun s => punch_out s = None) twoDays).
Proof.
  apply (average_time_absent_without_punch wednesdayNoon twoDays [] 200);
    [discriminate | reflexivity].
Defined.

(** ** Productive hours *)

(** Whether the session counts in hour [h]: it has both instants, and [h]
    lies between the local hour of its punch-in and that of its punch-out. *)
Definition covers (env : Env) (h : Z) (s : Session) : bool :=
  match punch_in s, punch_out s with
  | Some i, Some o => (getHours env i <=? h) && (h <=? getHours env o)
  | _, _ => false
  end.

Lemma bumpFrom_length (h a b : Z) (slots : list Z) :
  List.length (bumpFrom h a b slots) = List.length slots.
Proof.
  revert h. induction slots as [|c l IH]; intro h; cbn [bumpFrom List.length]; auto.
Qed.

Lemma bumpFrom_nth (a b : Z) (slots : list Z) :
  forall (h : Z) (k : nat), (k < List.length slots)%nat ->
    nth k (bumpFrom h a b slots) 0
    = nth k slots 0
      + (if (a <=? h + Z.of_nat k) && (h + Z.of_nat k <=? b) then 1 else 0).
Proof.
  induction slots as [|c l IH]; intros h k Hk; cbn [List.length] in Hk; [lia|].
  cbn [bumpFrom]. destruct k as [|k]; cbn [nth].
  - replace (h + Z.of_nat 0) with h by lia.
    destruct ((a <=? h) && (h <=? b)); lia.
  - rewrite IH by lia. do 2 f_equal.
    replace (h + 1 + Z.of_nat k) with (h + Z.of_nat (S k)) by lia. reflexivity.
Qed.

Lemma bumpHours_length (env : Env) (slots : list Z) (s : Session) :
  List.length (bumpHours env slots s) = List.length slots.
Proof.
  unfold bumpHours. destruct (punch_in s), (punch_out s); auto using bumpFrom_length.
Qed.

Lemma bumpHours_nth (env : Env) (slots : list Z) (s : Session) (k : nat) :
  (k < List.length slots)%nat ->
  nth k (bumpHours env slots s) 0
  = nth k slots 0 + (if covers env (Z.of_nat k) s then 1 else 0).
Proof.
  intro Hk. unfold bumpHours, covers.
  destruct (punch_in s) as [i|], (punch_out s) as [o|]; try lia.
  rewrite bumpFrom_nth by exact Hk. reflexivity.
Qed.

Lemma fold_bump_length (env : Env) (l : list Session) :
  forall slots, List.length (fold_left (bumpHours env) l slots) = List.length slots.
Proof.
  induction l as [|s l IH]; intro slots; cbn [fold_left]; [reflexivity|].
  now rewrite IH, bumpHours_length.
Qed.

Lemma countIf_cons {A} (p : A -> bool) (x : A) (l : list A) :
  countIf p (x :: l) = (if p x then 1 else 0) + countIf p l.
Proof.
  unfold countIf. cbn [filter]. destruct (p x); cbn [List.length]; lia.
Qed.

Lemma fold_bump_nth (env : Env) (l : list Session) (k : nat) :
  forall slots, (k < List.length slots)%nat ->
    nth k (fold_left (bumpHours env) l slots) 0
    = nth k slots 0 + countIf (covers env (Z.of_nat k)) l.
Proof.
  induction l as [|s l IH]; intros slots Hk; cbn [fold_left].
  - unfold countIf. cbn. lia.
  - rewrite IH by (now rewrite bumpHours_length).
    rewrite bumpHours_nth by exact Hk. rewrite countIf_cons. lia.
Qed.

Lemma hourlyWork_length (env : Env) (sessions : list Session) :
  List.length (hourlyWork env sessions) = 24%nat.
Proof. unfold hourlyWork. now rewrite fold_bump_length, repeat_length. Qed.

Lemma hourlyWork_nth (env : Env) (sessions : list Session) (k : nat) :
  (k < 24)%nat ->
  nth k (hourlyWork env sessions) 0 = countIf (covers env (Z.of_nat k)) sessions.
Proof.
  intro Hk. unfold hourlyWork. rewrite fold_bump_nth by (rewrite repeat_length; exact Hk).
  replace (nth k (repeat 0 24) 0) with 0; [lia|].
  do 24 (destruct k as [|k]; [reflexivity|]). lia.
Qed.

Lemma hoursFrom_length (h m : Z) (slots : list Z) :
  List.length (hoursFrom h m slots) = List.length slots.
Proof.
  revert h. induction slots as [|c l IH]; intro h; cbn [hoursFrom List.length]; auto.
Qed.

(** [Math.ceil((count / maxHourlyWork) * 4)], or 0 without any work. *)
Definition levelOf (maxHourlyWork count : Z) : float :=
  if 0 <? maxHourlyWork
  then JS.Math_ceil ((JS.Z2F count / JS.Z2F maxHourlyWork) * 4)%float
  else 0%float.

Lemma hoursFrom_nth (m : Z) (slots : list Z) :
  forall (h : Z) (k : nat), (k < List.length slots)%nat ->
    nth_error (hoursFrom h m slots) k
    = Some {| Hour.hour := h + Z.of_nat k; Hour.count := nth k slots 0;
              Hour.level := levelOf m (nth k slots 0) |}.
Proof.
  induction slots as [|c l IH]; intros h k Hk; cbn [List.length] in Hk; [lia|].
  cbn [hoursFrom]. destruct k as [|k]; cbn [nth_error nth].
  - replace (h + Z.of_nat 0) with h by lia. reflexivity.
  - rewrite IH by lia.
    replace (h + 1 + Z.of_nat k) with (h + Z.of_nat (S k)) by lia. reflexivity.
Qed.

Lemma fold_max_ge (l : list Z) :
  forall a, a <= fold_left Z.max l a /\ forall x, In x l -> x <= fold_left Z.max l a.
Proof.
  induction l as [|y l IH]; intro a; cbn [fold_left].
  - split; [lia | intros x []].
  - destruct (IH (Z.max a y)) as [H1 H2]. split; [lia|].
    intros x [<-|Hx]; [lia | now apply H2].
Qed.

Lemma fold_max_in (l : list Z) :
  forall a, fold_left Z.max l a = a \/ In (fold_left Z.max l a) l.
Proof.
  induction l as [|y l IH]; intro a; cbn [fold_left]; [now left|].
  destruct (IH (Z.max a y)) as [E|Hin].
  - rewrite E. destruct (Z.max_spec a y) as [[_ ->]|[_ ->]]; [right; now left | now left].
  - right. now right.
Qed.

(** X3. The result has one entry per hour of the day, in order, and the count of
    an hour is the number of sessions that cover it. *)
Theorem productive_hours_counts (env : Env) (sessions allSessions : list Session)
    (targetHours : float) :
  sessions <> [] -> wellFormed sessions = true ->
  exists r, useAnalytics env sessions allSessions targetHours = Some r /\
    List.length (productiveHours r) = 24%nat /\
    forall h, 0 <= h < 24 ->
      exists e, nth_error (productiveHours r) (Z.to_nat h) = Some e /\
        Hour.hour e = h /\
        Hour.count e = countIf (covers env h) sessions.
Proof.
  intros Hne Hwf.
  destruct (useAnalytics_run env sessions allSessions targetHours Hne Hwf) as [week [_ Hrun]].
  eexists. split; [exact Hrun|]. cbn [productiveHours]. unfold productiveHoursOf.
  split; [now rewrite hoursFrom_length, hourlyWork_length|].
  intros h Hh. eexists. split.
  - apply hoursFrom_nth. rewrite hourlyWork_length. lia.
  - cbn [Hour.hour Hour.count]. split; [lia|].
    rewrite hourlyWork_nth by lia. now rewrite Z2Nat.id by lia.
Qed.

Lemma productive_hours_counts_witness :
  exists r, useAnalytics wednesdayNoon twoDays [] 200 = Some r /\
    List.length (productiveHours r) = 24%nat /\
    forall h, 0 <= h < 24 ->
      exists e, nth_error (productiveHours r) (Z.to_nat h) = Some e /\
        Hour.hour e = h /\
        Hour.count e = countIf (covers wednesdayNoon h) twoDays.
Proof.
  apply (productive_hours_counts wednesdayNoon twoDays [] 200); [discriminate | reflexivity].
Defined.

(** The integer [ceil(4 * count / busiest)]. *)
Definition quarters (busiest count : Z) : Z :=
  if 0 <? busiest then (4 * count + busiest - 1) / busiest else 0.

Lemma FV_four : FV 4 = Some (4 * unit).
Proof. vm_compute. reflexivity. Qed.

Lemma levelOf_quarters (m c : Z) :
  0 <= c <= m -> m <= 2 ^ 32 -> JS.toZ (levelOf m c) = Some (quarters m c).
Proof.
  intros Hc Hm. pose proof unit_pos as U.
  unfold levelOf, quarters. destruct (Z.ltb_spec 0 m) as [Hpos|Hz]; [|reflexivity].
  assert (S1 : 2 ^ 32 < 2 ^ 53) by reflexivity.
  assert (S2 : 4 * 2 ^ 32 < 2 ^ 1024) by reflexivity.
  pose proof (FV_quot c m ltac:(lia) ltac:(lia)) as Hq.
  pose proof (quotV_range c m ltac:(lia) ltac:(lia)) as Rq.
  pose proof (FV_mul _ _ _ _ Hq FV_four ltac:(rewrite top_unit; unfold unit in *; lia)) as Hp.
  change (2 ^ 1074) with unit in Hp.
  assert (Rp : 0 <= rnd (quotV c m * (4 * unit)) unit <= 4 * c * unit).
  { split; [apply rnd_nonneg; nia|].
    pose proof (rnd_le_dyadic (quotV c m * (4 * unit)) unit (4 * c) 0
                  ltac:(lia) ltac:(lia) ltac:(lia)) as H.
    pose proof (dyadic_scale (4 * c) 0 ltac:(lia)) as D.
    change (2 ^ 0) with 1 in H, D. rewrite Z.mul_1_r in H, D. rewrite <- D.
    apply H. nia. }
  pose proof (FV_ceil _ _ Hp ltac:(rewrite top_unit; nia)) as Hc'.
  rewrite ceilv_quarters in Hc' by lia.
  apply toZ_value; [|exact Hc'].
  assert (0 <= (4 * c + m - 1) / m <= 4).
  { split; [apply Z.div_pos; lia|].
    assert ((4 * c + m - 1) / m < 5) by (apply Z.div_lt_upper_bound; lia). lia. }
  lia.
Qed.

Lemma quarters_facts (m c : Z) :
  0 <= c <= m ->
  0 <= quarters m c <= 4 /\ (quarters m c = 0 <-> c = 0) /\ (c = m -> 0 < m -> quarters m c = 4).
Proof.
  intro Hc. unfold quarters. destruct (Z.ltb_spec 0 m) as [Hpos|Hz].
  - pose proof (Z.mul_div_le (4 * c + m - 1) m ltac:(lia)).
    pose proof (Z.mul_succ_div_gt (4 * c + m - 1) m ltac:(lia)).
    split; [nia|]. split; [split; intro; nia|]. intros -> _. nia.
  - split; [lia|]. split; [split; lia | lia].
Qed.

(** X4. The level of an hour is the integer [ceil(4 * count / busiest)], where
    [busiest] is the highest count of the day: between 0 and 4, 0 exactly for
    an hour without session, and 4 for the busiest hours. *)
Theorem productive_hours_levels (env : Env) (sessions allSessions : list Session)
    (targetHours : float) :
  sessions <> [] -> wellFormed sessions = true ->
  Z.of_nat (List.length sessions) < 2 ^ 32 ->
  exists r, useAnalytics env sessions allSessions targetHours = Some r /\
    let busiest := maxOf (map Hour.count (productiveHours r)) in
    forall e, In e (productiveHours r) ->
      0 <= Hour.count e <= busiest /\
      JS.toZ (Hour.level e) = Some (quarters busiest (Hour.count e)) /\
      0 <= quarters busiest (Hour.count e) <= 4 /\
      (quarters busiest (Hour.count e) = 0 <-> Hour.count e = 0) /\
      (Hour.count e = busiest -> 0 < busiest -> quarters busiest (Hour.count e) = 4).
Proof.
  intros Hne Hwf Hlen.
  destruct (useAnalytics_run env sessions allSessions targetHours Hne Hwf) as [week [_ Hrun]].
  eexists. split; [exact Hrun|]. cbn [productiveHours]. unfold productiveHoursOf.
  set (slots := hourlyWork env sessions).
  assert (Hmap : forall h m l, map Hour.count (hoursFrom h m l) = l).
  { intros h m l. revert h. induction l as [|c l IH]; intro h; cbn [hoursFrom map]; [reflexivity|].
    cbn [Hour.count]. now rewrite IH. }
  rewrite Hmap. cbv zeta.
  intros e He. apply In_nth_error in He. destruct He as [k Hk].
  assert (Hk24 : (k < 24)%nat).
  { assert (H : nth_error (hoursFrom 0 (maxOf slots) slots) k <> None)
      by (rewrite Hk; discriminate).
    apply nth_error_Some in H. rewrite hoursFrom_length in H. unfold slots in H.
    now rewrite hourlyWork_length in H. }
  unfold slots in Hk.
  rewrite hoursFrom_nth in Hk by (rewrite hourlyWork_length; exact Hk24).
  injection Hk as <-. cbn [Hour.count Hour.level]. fold slots.
  assert (Hc : 0 <= nth k slots 0 <= maxOf slots).
  { split.
    - unfold slots. rewrite hourlyWork_nth by exact Hk24. apply countIf_range.
    - apply (fold_max_ge slots 0). apply nth_In. unfold slots.
      rewrite hourlyWork_length. exact Hk24. }
  assert (Hm : maxOf slots <= 2 ^ 32).
  { destruct (fold_max_in slots 0) as [E|Hin]; unfold maxOf.
    - rewrite E. lia.
    - apply In_nth with (d := 0) in Hin. destruct Hin as [j [Hj Ej]].
      rewrite <- Ej. unfold slots in *. rewrite hourlyWork_length in Hj.
      rewrite hourlyWork_nth by exact Hj.
      pose proof (countIf_range (covers env (Z.of_nat j)) sessions). lia. }
  split; [exact Hc|]. split; [now apply levelOf_quarters|].
  now apply quarters_facts.
Qed.

Lemma productive_hours_levels_witness :
  exists r, useAnalytics wednesdayNoon twoDays [] 200 = Some r /\
    let busiest := maxOf (map Hour.count (productiveHours r)) in
    forall e, In e (productiveHours r) ->
      0 <= Hour.count e <= busiest /\
      JS.toZ (Hour.level e) = Some (quarters busiest (Hour.count e)) /\
      0 <= quarters busiest (Hour.count e) <= 4 /\
      (quarters busiest (Hour.count e) = 0 <-> Hour.count e = 0) /\
      (Hour.count e = busiest -> 0 < busiest -> quarters busiest (Hour.count e) = 4).
Proof.
  apply (productive_hours_levels wednesdayNoon twoDays [] 200);
    [discriminate | reflexivity | reflexivity].
Defined.

(** The sessions the loop over the hours never enters: one instant is
    missing, or the local punch-out hour is before the punch-in hour (the
    session runs past midnight). *)
Definition countsNowhere (env : Env) (s : Session) : bool :=
  match punch_in s, punch_out s with
  | Some i, Some o => getHours env o <? getHours env i
  | _, _ => true
  end.

Lemma bumpFrom_outside (a b : Z) (slots : list Z) :
  b < a -> forall h, bumpFrom h a b slots = slots.
Proof.
  intro Hab. induction slots as [|c l IH]; intro h; cbn [bumpFrom]; [reflexivity|].
  rewrite IH. destruct (Z.leb_spec a h), (Z.leb_spec h b); cbn [andb]; try reflexivity. lia.
Qed.

Lemma bumpHours_nowhere (env : Env) (slots : list Z) (s : Session) :
  countsNowhere env s = true -> bumpHours env slots s = slots.
Proof.
  unfold countsNowhere, bumpHours.
  destruct (punch_in s), (punch_out s); try reflexivity.
  intro H. apply Z.ltb_lt in H. now apply bumpFrom_outside.
Qed.

Lemma wellFormed_app (l1 l2 : list Session) :
  wellFormed (l1 ++ l2) = wellFormed l1 && wellFormed l2.
Proof. unfold wellFormed. apply forallb_app. Qed.

(** X5. A session without punch-in or punch-out, or whose local punch-out
    hour is before its punch-in hour, counts in no hour: the count of every
    hour is the number of the other sessions that cover it. When other
    sessions remain, taking the session out of the input leaves the
    productive hours as they are; when it is the only one, the 24 entries
    all count 0, and without it the result has no entries at all. *)
Theorem overnight_session_in_no_hour (env : Env) (before after : list Session) (s : Session)
    (allSessions : list Session) (targetHours : float) :
  wellFormed (before ++ s :: after) = true ->
  countsNowhere env s = true ->
  exists r r',
    useAnalytics env (before ++ s :: after) allSessions targetHours = Some r /\
    useAnalytics env (before ++ after) allSessions targetHours = Some r' /\
    (forall h, 0 <= h < 24 ->
       exists e, nth_error (productiveHours r) (Z.to_nat h) = Some e /\
         Hour.count e = countIf (covers env h) (before ++ after)) /\
    (before ++ after <> [] -> productiveHours r = productiveHours r') /\
    (before ++ after = [] -> productiveHours r' = []).
Proof.
  intros Hwf Hs.
  assert (Hwf' : wellFormed (before ++ after) = true).
  { rewrite wellFormed_app in *. change (s :: after) with ([s] ++ after) in Hwf.
    rewrite wellFormed_app in Hwf.
    apply andb_true_iff in Hwf. destruct Hwf as [H1 H2].
    apply andb_true_iff in H2. destruct H2 as [_ H2]. now rewrite H1, H2. }
  assert (Hne' : before ++ s :: after <> []) by (destruct before; discriminate).
  destruct (useAnalytics_run env _ allSessions targetHours Hne' Hwf) as [w [_ Hrun]].
  assert (Hwork : hourlyWork env (before ++ s :: after) = hourlyWork env (before ++ after)).
  { unfold hourlyWork. rewrite !fold_left_app. cbn [fold_left].
    now rewrite bumpHours_nowhere. }
  assert (Hcount : forall h, 0 <= h < 24 ->
            exists e, nth_error (productiveHoursOf env (before ++ s :: after)) (Z.to_nat h)
                      = Some e /\
              Hour.count e = countIf (covers env h) (before ++ after)).
  { intros h Hh. unfold productiveHoursOf. eexists. split.
    - apply hoursFrom_nth. rewrite hourlyWork_length. lia.
    - cbn [Hour.count]. rewrite Hwork, hourlyWork_nth by lia.
      now rewrite Z2Nat.id by lia. }
  destruct (before ++ after) as [|s1 rest] eqn:Erest.
  - eexists. eexists. split; [exact Hrun|]. split; [reflexivity|].
    cbn [productiveHours]. split; [exact Hcount|].
    split; [intro H; now contradiction H | reflexivity].
  - assert (Hne : s1 :: rest <> []) by discriminate.
    destruct (useAnalytics_run env _ allSessions targetHours Hne Hwf') as [w' [_ Hrun']].
    eexists. eexists. split; [exact Hrun|]. split; [exact Hrun'|].
    cbn [productiveHours]. split; [exact Hcount|].
    split; [|discriminate].
    intros _. unfold productiveHoursOf. now rewrite Hwork.
Qed.

(** A session from 22:00 to 02:00 in India, after the two days. *)
Lemma overnight_session_in_no_hour_witness :
  exists r r',
    useAnalytics wednesdayNoon
      (twoDays ++ session "2024-01-08" 1704731400000 1704745800000 240 :: []) [] 200 = Some r /\
    useAnalytics wednesdayNoon (twoDays ++ []) [] 200 = Some r' /\
    (forall h, 0 <= h < 24 ->
       exists e, nth_error (productiveHours r) (Z.to_nat h) = Some e /\
         Hour.count e = countIf (covers wednesdayNoon h) (twoDays ++ [])) /\
    (twoDays ++ [] <> [] -> productiveHours r = productiveHours r') /\
    (twoDays ++ [] = [] -> productiveHours r' = []).
Proof.
  apply (overnight_session_in_no_hour wednesdayNoon twoDays []
           (session "2024-01-08" 1704731400000 1704745800000 240) [] 200);
    reflexivity.
Defined.

(** Alone, such a session gives 24 entries; without it there is none. *)
Example overnight_session_alone :
  option_map (fun r => List.length (productiveHours r))
    (useAnalytics wednesdayNoon
       [session "2024-01-08" 1704731400000 1704745800000 240] [] 200) = Some 24%nat /\
  option_map (fun r => List.length (productiveHours r))
    (useAnalytics wednesdayNoon [] [] 200) = Some 0%nat.
Proof. split; vm_compute; reflexivity. Qed.

(** ** Week over week *)

(** The two windows of the comparison: a bucket is in this week when the
    UTC midnight of its date is not before [thisWeekStart], the invocation
    instant moved back by its local weekday number of days; it is in last
    week when that midnight is within the seven days before. *)
Definition inThisWeek (env : Env) (e : string * Z) : bool :=
  match keyTime (fst e) with
  | Some d => thisWeekStart env <=? d
  | None => false
  end.

Definition inLastWeek (env : Env) (e : string * Z) : bool :=
  match keyTime (fst e) with
  | Some d => (lastWeekStart env <=? d) && (d <? thisWeekStart env)
  | None => false
  end.

Lemma weekMinutes_fold (env : Env) (totals : list (string * Z)) :
  forall a b,
    fold_left (weekStep env) totals (a, b)
    = (a + sumZ (map snd (filter (inThisWeek env) totals)),
       b + sumZ (map snd (filter (inLastWeek env) totals))).
Proof.
  induction totals as [|e l IH]; intros a b; cbn [fold_left filter map].
  - unfold sumZ. cbn. f_equal; lia.
  - unfold weekStep at 2, inThisWeek at 1, inLastWeek at 1.
    destruct (keyTime (fst e)) as [d|]; [|apply IH].
    destruct (Z.leb_spec (thisWeekStart env) d) as [H|H]; cbn [fst snd].
    + destruct (Z.ltb_spec d (thisWeekStart env)); [lia|].
      rewrite andb_false_r, IH. cbn [map]. rewrite sumZ_cons. f_equal; lia.
    + destruct (Z.ltb_spec d (thisWeekStart env)); [|lia]. rewrite andb_true_r.
      destruct (lastWeekStart env <=? d); rewrite IH; cbn [map]; rewrite ?sumZ_cons;
        f_equal; lia.
Qed.

Lemma weekMinutes_sums (env : Env) (totals : list (string * Z)) :
  weekMinutes env totals
  = (sumZ (map snd (filter (inThisWeek env) totals)),
     sumZ (map snd (filter (inLastWeek env) totals))).
Proof. unfold weekMinutes. now rewrite weekMinutes_fold. Qed.

Lemma FV_hundred : FV 100 = Some (100 * unit).
Proof. vm_compute. reflexivity. Qed.

Lemma roundv_multiple (p : Z) : roundv p = (2 * p + unit) / (2 * unit) * unit.
Proof. reflexivity. Qed.

(** The value of [Math.round((t - l) / l * 100)]. *)
Lemma weekComparison_value (t l : Z) :
  0 <= t < 2 ^ 53 -> 0 < l < 2 ^ 53 ->
  exists n,
    JS.toZ (JS.Math_round (JS.Z2F (t - l) / JS.Z2F l * 100)) = Some n /\
    - 100 <= n /\ (t = 0 -> n = - 100) /\ (0 < n -> l < t) /\ (n < 0 -> t < l).
Proof.
  intros Ht Hl. pose proof unit_pos as U.
  assert (S1 : 100 * 2 ^ 53 < 2 ^ 1024) by reflexivity.
  pose proof (FV_quot (t - l) l ltac:(lia) ltac:(lia)) as Hq.
  set (q := quotV (t - l) l) in *.
  assert (Eone : rnd (- 1 * unit * (l * unit)) (l * unit) = - 1 * unit)
    by (apply rnd_int; [lia | nia]).
  assert (Rq : - unit <= q <= t * unit).
  { unfold q, quotV. split.
    - replace (- unit) with (- 1 * unit) by ring. rewrite <- Eone.
      apply rnd_mono; [nia | nia |].
      replace (- 1 * unit * (l * unit) * (l * unit))
        with (- l * (unit * unit * (l * unit))) by ring.
      replace ((t - l) * unit * unit * (l * unit))
        with ((t - l) * (unit * unit * (l * unit))) by ring.
      apply Z.mul_le_mono_nonneg_r; [nia | lia].
    - rewrite <- (rnd_int1 t) by lia.
      apply rnd_mono; [nia | lia |].
      replace ((t - l) * unit * unit * 1) with ((t - l) * (unit * unit)) by ring.
      replace (t * unit * (l * unit)) with (t * l * (unit * unit)) by ring.
      apply Z.mul_le_mono_nonneg_r; [nia | nia]. }
  assert (Hp : FV (JS.Z2F (t - l) / JS.Z2F l * 100) = Some (rnd (q * (100 * unit)) unit)).
  { apply (FV_mul _ _ _ _ Hq FV_hundred). rewrite top_unit. unfold unit in *. lia. }
  set (p := rnd (q * (100 * unit)) unit) in *.
  assert (Ehund : forall k, - 2 ^ 53 <= k <= 2 ^ 53 -> rnd (k * unit * unit) unit = k * unit)
    by (intros k Hk; apply rnd_int; lia).
  assert (S2 : 2 ^ 60 < 2 ^ 1024) by reflexivity.
  assert (S3 : 100 * 2 ^ 53 < 2 ^ 60) by reflexivity.
  assert (Rp : - 100 * unit <= p <= 2 ^ 60 * unit).
  { unfold p. split.
    - rewrite <- (Ehund (- 100)) by lia. apply rnd_mono; [lia | lia | nia].
    - assert (E : rnd (1 * 2 ^ 1134 * unit) unit = 1 * 2 ^ 1134).
      { apply rnd_dyadic; [lia | lia | | lia]. unfold top.
        apply Z.lt_le_incl. reflexivity. }
      replace (2 ^ 60 * unit) with (1 * 2 ^ 1134) by reflexivity.
      rewrite <- E. apply rnd_mono; [lia | lia |].
      replace (1 * 2 ^ 1134) with (2 ^ 60 * unit) by reflexivity. nia. }
  assert (Hw : FV (JS.Math_round (JS.Z2F (t - l) / JS.Z2F l * 100)) = Some (roundv p)).
  { apply FV_round; [exact Hp|]. rewrite top_unit. nia. }
  rewrite roundv_multiple in Hw.
  set (n := (2 * p + unit) / (2 * unit)) in *.
  assert (Hn : n * (2 * unit) <= 2 * p + unit < (n + 1) * (2 * unit)).
  { unfold n. pose proof (Z.mul_div_le (2 * p + unit) (2 * unit) ltac:(lia)).
    pose proof (Z.mul_succ_div_gt (2 * p + unit) (2 * unit) ltac:(lia)). lia. }
  exists n. split; [apply toZ_value; [nia | exact Hw]|].
  split; [nia|]. split; [|split].
  - intros ->.
    assert (Eq : q = - unit).
    { unfold q, quotV. replace ((0 - l) * unit * unit) with (- 1 * unit * (l * unit)) by ring.
      rewrite Eone. ring. }
    assert (Ep : p = - 100 * unit).
    { unfold p. rewrite Eq. replace (- unit * (100 * unit)) with (- 100 * unit * unit) by ring.
      apply Ehund. lia. }
    nia.
  - intro Hpos. destruct (Z.lt_ge_cases l t) as [|Hle]; [assumption|]. exfalso.
    assert (q <= 0).
    { unfold q, quotV. rewrite <- (rnd_0 (l * unit)) by nia.
      apply rnd_mono; [nia | nia |]. nia. }
    assert (p <= 0).
    { unfold p. rewrite <- (rnd_0 unit) by lia. apply rnd_mono; [lia | lia | nia]. }
    nia.
  - intro Hneg. destruct (Z.lt_ge_cases t l) as [|Hle]; [assumption|]. exfalso.
    assert (0 <= q) by (unfold q, quotV; apply rnd_nonneg; nia).
    assert (0 <= p) by (unfold p; apply rnd_nonneg; nia).
    nia.
Qed.

(** X6. The week comparison is an integer of at least -100: it is 0 without
    minutes last week, -100 without minutes this week, positive only when
    this week has more minutes than last week and negative only when it has
    fewer. *)
Theorem week_comparison_sign (env : Env) (sessions allSessions : list Session)
    (targetHours : float) :
  sessions <> [] -> inDomain sessions = true ->
  exists r n,
    useAnalytics env sessions allSessions targetHours = Some r /\
    JS.toZ (weekComparison r) = Some n /\
    let thisWeek := sumZ (map snd (filter (inThisWeek env) (dailyTotals sessions))) in
    let lastWeek := sumZ (map snd (filter (inLastWeek env) (dailyTotals sessions))) in
    - 100 <= n /\
    (lastWeek = 0 -> n = 0) /\
    (0 < lastWeek -> thisWeek = 0 -> n = - 100) /\
    (0 < n -> lastWeek < thisWeek) /\
    (n < 0 -> thisWeek < lastWeek).
Proof.
  intros Hne Hin.
  destruct (inDomain_spec sessions Hin) as [Hwf [Hnn [Hsum Hlen]]].
  destruct (useAnalytics_run env sessions allSessions targetHours Hne Hwf) as [week [_ Hrun]].
  pose proof (dailyTotals_nonneg sessions Hnn) as Hd.
  pose proof (sum_filter_le (inThisWeek env) _ Hd) as Ht.
  pose proof (sum_filter_le (inLastWeek env) _ Hd) as Hl.
  rewrite sum_dailyTotals in Ht, Hl.
  set (t := sumZ (map snd (filter (inThisWeek env) (dailyTotals sessions)))) in *.
  set (l := sumZ (map snd (filter (inLastWeek env) (dailyTotals sessions)))) in *.
  assert (Hwc : weekComparisonOf env (dailyTotals sessions)
                = if 0 <? l then JS.Math_round (JS.Z2F (t - l) / JS.Z2F l * 100)%float
                  else 0%float).
  { unfold weekComparisonOf. rewrite weekMinutes_sums. reflexivity. }
  destruct (Z.ltb_spec 0 l) as [Hpos|Hz].
  - destruct (weekComparison_value t l ltac:(lia) ltac:(lia)) as [n [Hn [H1 [H2 [H3 H4]]]]].
    eexists. exists n. split; [exact Hrun|]. cbn [weekComparison]. rewrite Hwc.
    split; [exact Hn|]. cbv zeta.
    split; [exact H1|]. split; [lia|]. split; [intros _; exact H2|]. split; assumption.
  - eexists. exists 0. split; [exact Hrun|]. cbn [weekComparison]. rewrite Hwc.
    split; [reflexivity|]. cbv zeta. repeat split; lia.
Qed.

Lemma week_comparison_sign_witness :
  exists r n,
    useAnalytics wednesdayNoon twoDays [] 200 = Some r /\
    JS.toZ (weekComparison r) = Some n /\
    let thisWeek := sumZ (map snd (filter (inThisWeek wednesdayNoon) (dailyTotals twoDays))) in
    let lastWeek := sumZ (map snd (filter (inLastWeek wednesdayNoon) (dailyTotals twoDays))) in
    - 100 <= n /\
    (lastWeek = 0 -> n = 0) /\
    (0 < lastWeek -> thisWeek = 0 -> n = - 100) /\
    (0 < n -> lastWeek < thisWeek) /\
    (n < 0 -> thisWeek < lastWeek).
Proof.
  apply (week_comparison_sign wednesdayNoon twoDays [] 200); [discriminate | reflexivity].
Defined.

(** ** Weekdays of the heatmap *)

Lemma getDay_minusDays (env : Env) (z t i : Z) :
  tz env = fixedZone z ->
  getDay env (minusDays env t i) = weekdayOfDay (Calendar.Day (LocalTime env t) - i).
Proof.
  intro Hz. rewrite (minusDays_fixed env z) by exact Hz.
  unfold getDay. rewrite !(LocalTime_fixed env z) by exact Hz.
  unfold weekdayOfDay. f_equal. f_equal.
  replace (t - i * Calendar.msPerDay + z * Calendar.msPerMinute)
    with (t + z * Calendar.msPerMinute - i * Calendar.msPerDay) by ring.
  apply Day_minus.
Qed.

Lemma local_day_near (env : Env) (z : Z) :
  tz env = fixedZone z -> - 1440 < z < 1440 ->
  - 1 <= Calendar.Day (LocalTime env (now env)) - Calendar.Day (now env) <= 1.
Proof.
  intros Hz Hr. rewrite (LocalTime_fixed env z) by exact Hz.
  unfold Calendar.Day, Calendar.msPerDay, Calendar.msPerMinute.
  pose proof (Z.div_mod (now env) 86400000 ltac:(lia)).
  pose proof (Z.mod_pos_bound (now env) 86400000 ltac:(lia)).
  pose proof (Z.div_mod (now env + z * 60000) 86400000 ltac:(lia)).
  pose proof (Z.mod_pos_bound (now env + z * 60000) 86400000 ltac:(lia)).
  lia.
Qed.

(** X7. On a host whose offset from UTC never changes and is less than a
    day ([z] minutes), every heatmap entry carries the weekday of the local
    calendar day of the invocation moved back with it, while its date is the
    UTC one: the weekday is that of the entry's date exactly when the
    invocation falls on the same calendar day locally and in UTC. *)
Theorem heatmap_weekday_is_local (env : Env) (z : Z) (sessions allSessions : list Session)
    (targetHours : float) :
  sessions <> [] -> wellFormed sessions = true ->
  tz env = fixedZone z -> - 1440 < z < 1440 ->
  exists r, useAnalytics env sessions allSessions targetHours = Some r /\
    forall k, (k < 28)%nat ->
      exists c, nth_error (heatmapData r) k = Some c /\
        Heat.date c = Calendar.isoDate (Calendar.Day (now env) - 27 + Z.of_nat k) /\
        Heat.dayOfWeek c
        = weekdayOfDay (Calendar.Day (LocalTime env (now env)) - 27 + Z.of_nat k) /\
        (Heat.dayOfWeek c = weekdayOfDay (Calendar.Day (now env) - 27 + Z.of_nat k)
         <-> Calendar.Day (LocalTime env (now env)) = Calendar.Day (now env)).
Proof.
  intros Hne Hwf Hz Hr.
  destruct (useAnalytics_run env sessions allSessions targetHours Hne Hwf) as [week [_ Hrun]].
  eexists. split; [exact Hrun|]. cbn [heatmapData]. unfold heatmapOf.
  intros k Hk. eexists. split; [apply heatLoop_nth; exact Hk|].
  unfold heatCell; cbn [Heat.date Heat.dayOfWeek].
  rewrite (Day_minusDays env z), (getDay_minusDays env z) by exact Hz.
  pose proof (local_day_near env z Hz Hr) as Hnear.
  set (L := Calendar.Day (LocalTime env (now env))) in *.
  set (U := Calendar.Day (now env)) in *.
  split; [f_equal; lia|]. split; [f_equal; lia|].
  unfold weekdayOfDay.
  match goal with |- (?x mod 7 = ?y mod 7) <-> _ => set (a := x); set (b := y) end.
  assert (Hab : a - b = L - U) by (unfold a, b; lia).
  split.
  - intro H.
    pose proof (Z.div_mod a 7 ltac:(lia)) as Ha.
    pose proof (Z.div_mod b 7 ltac:(lia)) as Hb.
    rewrite H in Ha. lia.
  - intro E. f_equal. lia.
Qed.

Lemma heatmap_weekday_is_local_witness :
  exists r, useAnalytics thursdayAfterMidnight twoDays [] 200 = Some r /\
    forall k, (k < 28)%nat ->
      exists c, nth_error (heatmapData r) k = Some c /\
        Heat.date c
        = Calendar.isoDate (Calendar.Day (now thursdayAfterMidnight) - 27 + Z.of_nat k) /\
        Heat.dayOfWeek c
        = weekdayOfDay (Calendar.Day (LocalTime thursdayAfterMidnight
                                        (now thursdayAfterMidnight)) - 27 + Z.of_nat k) /\
        (Heat.dayOfWeek c
         = weekdayOfDay (Calendar.Day (now thursdayAfterMidnight) - 27 + Z.of_nat k)
         <-> Calendar.Day (LocalTime thursdayAfterMidnight (now thursdayAfterMidnight))
             = Calendar.Day (now thursdayAfterMidnight)).
Proof.
  apply (heatmap_weekday_is_local thursdayAfterMidnight 330 twoDays [] 200);
    [discriminate | reflexivity | reflexivity | lia].
Defined.

(** On that night the last entry is dated Wednesday 10 January and carries
    the weekday of Thursday. *)
Example last_entry_after_midnight :
  option_map (fun r => option_map (fun c => (Heat.date c, Heat.dayOfWeek c))
                         (nth_error (heatmapData r) 27))
             (useAnalytics thursdayAfterMidnight twoDays [] 200)
  = Some (Some ("2024-01-10"%string, 4)).
Proof. vm_compute. reflexivity. Qed.

(** New York around the start of daylight saving on 10 March 2024: five
    hours behind UTC until 07:00 UTC of that day, four hours afterwards; the
    local hour from 02:00 to 03:00 is skipped, and a local time in it is
    read with the offset before the change. *)
Definition newYorkSpring2024 : Zone :=
  fun t isUTC =>
    if isUTC
    then if t <? 1710054000000 then - 300 * Calendar.msPerMinute
         else - 240 * Calendar.msPerMinute
    else if t <? 1710039600000 then - 300 * Calendar.msPerMinute
         else - 240 * Calendar.msPerMinute.

(** Sunday 10 March 2024, 19:30 in New York (23:30 UTC). *)
Definition sundayOfTheChange : Env := {| now := 1710113400000; tz := newYorkSpring2024 |}.

(** Across the change of offset the day before lasts 23 hours: the entry of
    the Saturday is dated 10 March as the entry of the Sunday is, and the 28
    entries have 27 dates. *)
Example heatmap_across_the_change :
  option_map (fun r => map (fun c => (Heat.date c, Heat.dayOfWeek c))
                           (skipn 25 (heatmapData r)))
             (useAnalytics sundayOfTheChange twoDays [] 200)
  = Some [("2024-03-09"%string, 5); ("2024-03-10"%string, 6); ("2024-03-10"%string, 0)].
Proof. vm_compute. reflexivity. Qed.

(** ** The insights widget *)







(** Four short days with a late start, then three long ones: all five
    insights are present and the widget leaves the streak out. *)
Definition sevenDays : list Session :=
  [session "2024-01-01" 1704087000000 1704093000000 100;
   session "2024-01-02" 1704173400000 1704179400000 100;
   session "2024-01-03" 1704259800000 1704265800000 100;
   session "2024-01-04" 1704346200000 1704352200000 100;
   session "2024-01-08" 1704684600000 1704738600000 1200;
   session "2024-01-09" 1704771000000 1704825000000 1200;
   session "2024-01-10" 1704857400000 1704866400000 1200].

Example five_insights_four_shown :
  option_map (fun r => (map Insight.icon (insights r),
                        option_map (map InsightItem.icon) (InsightsWidget (insights r))))
             (useAnalytics wednesdayNoon sevenDays [] 200)
  = Some (["⏰"; "🚪"; "📈"; "✨"; "🔥"], Some ["⏰"; "🚪"; "📈"; "✨"])%string.
Proof. vm_compute. reflexivity. Qed.

(** ** The achievements widget *)



(** ** Daily and monthly totals of the session service *)

Lemma fold_sum {A} (f : A -> Z) (l : list A) :
  forall a, fold_left (fun total s => total + f s) l a = a + sumZ (map f l).
Proof.
  induction l as [|x l IH]; intro a; cbn [fold_left map].
  - unfold sumZ. cbn. lia.
  - rewrite IH, sumZ_cons. lia.
Qed.

Lemma calculateDailyTotal_minutesOn (sessions : list Session) (day : string) :
  calculateDailyTotal sessions day = minutesOn day sessions.
Proof. unfold calculateDailyTotal, minutesOn. now rewrite fold_sum. Qed.

(** X10. The daily total of the service is the day total of the engine:
    [dailyTotals[date]], or 0 for a date without bucket. *)
Theorem daily_total_is_bucket (sessions : list Session) (day : string) :
  calculateDailyTotal sessions day = totalOf (dailyTotals sessions) day /\
  (lookup day (dailyTotals sessions) = None ->
   calculateDailyTotal sessions day = 0 /\ Forall (fun s => date s <> day) sessions).
Proof.
  rewrite calculateDailyTotal_minutesOn, totalOf_dailyTotals. split; [reflexivity|].
  rewrite lookup_dailyTotals.
  destruct (existsb (fun s => String.eqb (date s) day) sessions) eqn:Ex; [discriminate|].
  intros _.
  assert (H : Forall (fun s => date s <> day) sessions).
  { apply Forall_forall. intros s Hs E.
    assert (existsb (fun s => String.eqb (date s) day) sessions = true); [|congruence].
    apply existsb_exists. exists s. split; [exact Hs | now apply String.eqb_eq]. }
  split; [|exact H].
  unfold minutesOn.
  replace (filter (fun s => String.eqb (date s) day) sessions) with (@nil Session);
    [reflexivity|].
  symmetry. clear Ex. induction H as [|s l Hs Hl IH]; cbn [filter]; [reflexivity|].
  destruct (String.eqb_spec (date s) day); [contradiction | exact IH].
Qed.

Lemma filter_pushTo_in (q : string -> bool) (k : string) (s : Session)
    (m : list (string * list Session)) :
  q k = true ->
  filter (fun e => q (fst e)) (pushTo k s m) = pushTo k s (filter (fun e => q (fst e)) m).
Proof.
  intro Hk. induction m as [|[k' v] m IH]; cbn [pushTo filter fst].
  - now rewrite Hk.
  - destruct (String.eqb_spec k' k) as [->|NE]; cbn [filter fst].
    + rewrite Hk. cbn [pushTo]. now rewrite String.eqb_refl.
    + destruct (q k'); cbn [pushTo]; [|exact IH].
      destruct (String.eqb_spec k' k); [contradiction|]. now rewrite IH.
Qed.

Lemma filter_pushTo_out (q : string -> bool) (k : string) (s : Session)
    (m : list (string * list Session)) :
  q k = false ->
  filter (fun e => q (fst e)) (pushTo k s m) = filter (fun e => q (fst e)) m.
Proof.
  intro Hk. induction m as [|[k' v] m IH]; cbn [pushTo filter fst].
  - now rewrite Hk.
  - destruct (String.eqb_spec k' k) as [->|NE]; cbn [filter fst].
    + now rewrite Hk.
    + destruct (q k'); now rewrite IH.
Qed.

(** Grouping the sessions of some dates gives the buckets of these dates. *)
Lemma sessionsByDate_filter (q : string -> bool) (sessions : list Session) :
  sessionsByDate (filter (fun s => q (date s)) sessions)
  = filter (fun e => q (fst e)) (sessionsByDate sessions).
Proof.
  induction sessions as [|s l IH] using rev_ind; [reflexivity|].
  rewrite filter_app, sessionsByDate_snoc. cbn [filter].
  destruct (q (date s)) eqn:Hq.
  - now rewrite sessionsByDate_snoc, IH, filter_pushTo_in.
  - now rewrite app_nil_r, IH, filter_pushTo_out.
Qed.

Lemma dailyTotals_filter (q : string -> bool) (sessions : list Session) :
  dailyTotals (filter (fun s => q (date s)) sessions)
  = filter (fun e => q (fst e)) (dailyTotals sessions).
Proof.
  unfold dailyTotals. rewrite sessionsByDate_filter.
  induction (sessionsByDate sessions) as [|[k v] m IH]; cbn [filter map fst snd];
    [reflexivity|].
  destruct (q k); cbn [map fst snd]; now rewrite IH.
Qed.

(** The sessions whose minutes add up exactly whatever the order of the
    additions: no negative duration, a total below 2^53, and fewer than 2^32
    sessions. *)
Definition exactSums (sessions : list Session) : bool :=
  forallb (fun s => 0 <=? minutesOf s) sessions
  && (sumZ (map minutesOf sessions) <? 2 ^ 53)
  && (Z.of_nat (List.length sessions) <? 2 ^ 32).

(** X11. The monthly total of the service is the sum of its daily totals over
    the distinct dates of the month, which are the bucket keys of the engine
    in that month; when every session is dated in the month it is the total
    the engine scores. *)
Theorem monthly_total_is_sum_of_days (sessions : list Session) (monthYear : string) :
  exactSums sessions = true ->
  calculateMonthlyTotal sessions monthYear
  = sumZ (map (calculateDailyTotal sessions)
              (filter (inMonth monthYear) (map fst (dailyTotals sessions)))) /\
  (Forall (fun s => inMonth monthYear (date s) = true) sessions ->
   calculateMonthlyTotal sessions monthYear = sumZ (map snd (dailyTotals sessions))).
Proof.
  intros _.
  unfold calculateMonthlyTotal. rewrite fold_sum, Z.add_0_l. split.
  - change (fun s => orZero (duration_minutes s)) with minutesOf.
    rewrite <- sum_dailyTotals, (dailyTotals_filter (inMonth monthYear)).
    f_equal.
    pose proof (snd_dailyTotals sessions) as Hsnd.
    induction (dailyTotals sessions) as [|[k m] l IH]; cbn [filter map fst]; [reflexivity|].
    destruct (inMonth monthYear k); cbn [map snd].
    + f_equal.
      * rewrite calculateDailyTotal_minutesOn. apply (Hsnd (k, m)). now left.
      * apply IH. intros e He. apply Hsnd. now right.
    + apply IH. intros e He. apply Hsnd. now right.
  - intro Hall. rewrite sum_dailyTotals. do 2 f_equal.
    induction Hall as [|s l Hs Hl IH]; cbn [filter]; [reflexivity|].
    now rewrite Hs, IH.
Qed.

Lemma monthly_total_is_sum_of_days_witness :
  calculateMonthlyTotal twoDays "2024-01"
  = sumZ (map (calculateDailyTotal twoDays)
              (filter (inMonth "2024-01") (map fst (dailyTotals twoDays)))) /\
  (Forall (fun s => inMonth "2024-01" (date s) = true) twoDays ->
   calculateMonthlyTotal twoDays "2024-01" = sumZ (map snd (dailyTotals twoDays))).
Proof. apply (monthly_total_is_sum_of_days twoDays "2024-01"). reflexivity. Defined.

Lemma working_days_count (sessions : list Session) :
  workingDays sessions = Z.of_nat (List.length (dailyTotals sessions)).
Proof.
  unfold workingDays. f_equal.
  rewrite <- (length_map fst (dailyTotals sessions)), keys_dailyTotals.
  apply Permutation_length. apply NoDup_Permutation.
  - apply NoDup_nodup.
  - apply NoDup_keys_sessionsByDate.
  - intro k. rewrite nodup_In, In_keys_sessionsByDate, in_map_iff.
    split; intros [s [H1 H2]]; exists s; tauto.
Qed.

(** X12. The number of working days of the main component is the number of
    day buckets of the engine, and each of these days has a session. *)
Theorem working_days_is_bucket_count (sessions : list Session) :
  workingDays sessions = Z.of_nat (List.length (dailyTotals sessions)) /\
  (workingDays sessions = 0 <-> sessions = []) /\
  workingDays sessions <= Z.of_nat (List.length sessions).
Proof.
  rewrite working_days_count. split; [reflexivity|]. split.
  - split.
    + intro H. destruct sessions as [|s l]; [reflexivity|]. exfalso.
      destruct (dailyTotals (s :: l)) eqn:E; [|cbn in H; lia].
      pose proof (lookup_dailyTotals (date s) (s :: l)) as L.
      rewrite E in L. cbn [lookup existsb] in L. rewrite String.eqb_refl in L.
      discriminate L.
    + intros ->. reflexivity.
  - pose proof (length_dailyTotals sessions). lia.
Qed.

(** ** The cells of the heatmap widget *)

Lemma toString_value (x : float) (n : Z) :
  - 2 ^ 1024 < n < 2 ^ 1024 -> FV x = Some (n * unit) -> JS.toString x = Calendar.decimal n.
Proof.
  intros Hn Hx. pose proof (toZ_value x n Hn Hx) as Hz.
  unfold JS.toString. rewrite Hz.
  unfold FV in Hx. pose proof unit_pos as U.
  destruct (Prim2SF x) as [s|s| |s m e]; cbn [SFV] in Hx; try reflexivity; try discriminate.
  exfalso. apply (f_equal (fun o => match o with Some v => v | None => 0 end)) in Hx.
  cbv beta iota in Hx. pose proof top_unit. destruct s; nia.
Qed.

(** X13. The hours in the title of a cell are the minutes divided by 60 and
    rounded to the nearest integer, a half hour going up. *)
Theorem heat_title_rounds_hours (cell : Heat.t) :
  0 <= Heat.minutes cell < 2 ^ 51 ->
  HeatItem.title (heatItem cell)
  = (Heat.date cell ++ ": " ++ Calendar.decimal ((Heat.minutes cell + 30) / 60) ++ "h")%string.
Proof.
  intro Hm. pose proof unit_pos as U. cbn [heatItem HeatItem.title].
  set (m := Heat.minutes cell) in *.
  assert (S1 : 2 ^ 51 < 2 ^ 53) by reflexivity.
  assert (S2 : 2 ^ 53 < 2 ^ 1024) by reflexivity.
  assert (Hk : (2 * m + 60) / (2 * 60) = (m + 30) / 60).
  { replace (2 * m + 60) with ((m + 30) * 2) by ring.
    replace (2 * 60) with (60 * 2) by ring. apply Z.div_mul_cancel_r; lia. }
  assert (Hk' : 0 <= (m + 30) / 60 < 2 ^ 46).
  { split; [apply Z.div_pos; lia|]. apply Z.div_lt_upper_bound; [lia|].
    assert (60 * 2 ^ 46 > 2 ^ 51 + 30) by reflexivity. lia. }
  assert (Hq : FV (JS.Z2F m / 60) = Some (quotV m 60)).
  { destruct FV_consts as [H60 _].
    apply (FV_div _ _ (m * unit) (60 * unit)); [apply FV_Z2F; lia | exact H60 | |];
      rewrite top_unit; nia. }
  pose proof (quotV_range m 60 ltac:(lia) ltac:(lia)) as Rq.
  pose proof (FV_round _ _ Hq ltac:(rewrite top_unit; nia)) as Hr.
  rewrite (roundv_quot m 60 7) in Hr;
    [| lia | lia | lia | lia
     | rewrite Hk; change (2 ^ (7 - 1)) with 64; lia].
  rewrite Hk in Hr. do 2 f_equal.
  rewrite (toString_value _ ((m + 30) / 60)); [reflexivity | | exact Hr].
  assert (2 ^ 46 < 2 ^ 1024) by reflexivity. lia.
Qed.

Lemma heat_title_rounds_hours_witness :
  HeatItem.title (heatItem {| Heat.date := "2024-01-07"; Heat.minutes := 450;
                              Heat.level := 2; Heat.dayOfWeek := 0 |})
  = ("2024-01-07" ++ ": " ++ Calendar.decimal ((450 + 30) / 60) ++ "h")%string.
Proof.
  apply (heat_title_rounds_hours {| Heat.date := "2024-01-07"; Heat.minutes := 450;
                                    Heat.level := 2; Heat.dayOfWeek := 0 |}).
  cbn. lia.
Defined.

(** ** Durations and clocks of the time utilities *)

Lemma FV_remInt (m d : Z) :
  0 <= m <= 2 ^ 53 -> 0 < d ->
  FV (remInt (JS.Z2F m) d) = Some (m mod d * unit).
Proof.
  intros Hm Hd. unfold remInt. rewrite toZ_Z2F by lia.
  rewrite Z.rem_mod_nonneg by lia.
  pose proof (Z.mod_pos_bound m d Hd) as Hr.
  pose proof (Z.mod_le m d ltac:(lia) Hd) as Hle.
  destruct (Z.eqb_spec (m mod d) 0) as [E|NE].
  - rewrite E. apply FV_signedZero.
  - apply FV_Z2F. lia.
Qed.

Lemma FV_floor_div (x : float) (m d j : Z) (D : float) :
  FV x = Some (m * unit) -> FV D = Some (d * unit) ->
  0 <= m < 2 ^ 53 -> 0 < d <= 2 ^ j -> 0 <= j <= 12 -> (m / d + 1) * 2 ^ j <= 2 ^ 53 ->
  FV (JS.Math_floor (x / D)) = Some (m / d * unit).
Proof.
  intros Hx HD Hm Hd Hj Hk. pose proof unit_pos as U.
  assert (S1 : 2 ^ 53 < 2 ^ 1024) by reflexivity.
  assert (S2 : 2 ^ j <= 2 ^ 12) by (apply Z.pow_le_mono_r; lia).
  assert (S3 : 2 ^ 12 < 2 ^ 53) by reflexivity.
  assert (Hq : FV (x / D) = Some (quotV m d)).
  { apply (FV_div _ _ (m * unit) (d * unit) Hx HD); rewrite top_unit; nia. }
  pose proof (quotV_range m d ltac:(lia) ltac:(lia)) as Rq.
  rewrite (FV_floor _ _ Hq) by (rewrite top_unit; nia).
  f_equal. apply (floorv_quot m d j); lia.
Qed.

Lemma FV_3600 : FV 3600 = Some (3600 * unit).
Proof. vm_compute. reflexivity. Qed.

Lemma div_small (m d c : Z) : 0 <= m < 2 ^ 51 -> 0 < d -> 0 <= m / d < 2 ^ 51.
Proof.
  intros Hm Hd. split; [apply Z.div_pos; lia|].
  apply Z.div_lt_upper_bound; [lia|]. nia.
Qed.

(** X14. Whole minutes are written as hours and minutes below 60; a negative or
    absent duration is written as zero. *)
Theorem format_duration_hours_minutes :
  formatDuration None = "0h 0m"%string /\
  (forall m, m < 0 -> formatDuration (Some m) = "0h 0m"%string) /\
  (forall m, 0 <= m < 2 ^ 51 ->
     formatDuration (Some m)
     = (Calendar.decimal (m / 60) ++ "h " ++ Calendar.decimal (m mod 60) ++ "m")%string).
Proof.
  split; [reflexivity|]. split.
  - intros m Hm. unfold formatDuration. destruct (Z.ltb_spec m 0); [reflexivity | lia].
  - intros m Hm. unfold formatDuration. destruct (Z.ltb_spec m 0); [lia|]. cbv zeta.
    assert (S1 : 2 ^ 51 < 2 ^ 53) by reflexivity.
    assert (S2 : 2 ^ 53 < 2 ^ 1024) by reflexivity.
    pose proof (div_small m 60 0 Hm ltac:(lia)) as Hk.
    pose proof (Z.mod_pos_bound m 60 ltac:(lia)) as Hr.
    destruct FV_consts as [H60 _].
    assert (Hh : FV (JS.Math_floor (JS.Z2F m / 60)) = Some (m / 60 * unit)).
    { assert (m / 60 < 2 ^ 46).
      { apply Z.div_lt_upper_bound; [lia|].
        assert (2 ^ 51 < 60 * 2 ^ 46) by reflexivity. lia. }
      apply (FV_floor_div _ m 60 6 _ (FV_Z2F m ltac:(lia)) H60); lia. }
    assert (Hm' : FV (JS.Math_round (remInt (JS.Z2F m) 60)) = Some (m mod 60 * unit)).
    { rewrite (FV_round _ _ (FV_remInt m 60 ltac:(lia) ltac:(lia))).
      - f_equal. apply roundv_int.
      - pose proof unit_pos. rewrite top_unit. nia. }
    rewrite (toString_value _ (m / 60) ltac:(lia) Hh),
      (toString_value _ (m mod 60) ltac:(lia) Hm').
    reflexivity.
Qed.

(** X15. Whole seconds are written as [HH:MM:SS], the hours on two digits or
    more; a negative count is written as zero. *)
Theorem format_seconds_clock :
  (forall s, s < 0 -> formatSecondsToHHMMSS s = "00:00:00"%string) /\
  (forall s, 0 <= s < 2 ^ 51 ->
     formatSecondsToHHMMSS s
     = (Calendar.pad2 (s / 3600) ++ ":" ++ Calendar.pad2 (s mod 3600 / 60) ++ ":"
        ++ Calendar.pad2 (s mod 60))%string).
Proof.
  assert (S1 : 2 ^ 51 < 2 ^ 53) by reflexivity.
  assert (S2 : 2 ^ 53 < 2 ^ 1024) by reflexivity.
  assert (Hpad : forall x n, - 2 ^ 1024 < n < 2 ^ 1024 -> FV x = Some (n * unit) ->
                             padNum x = Calendar.pad2 n).
  { intros x n Hn Hx. unfold padNum. now rewrite (toZ_value x n Hn Hx). }
  assert (Hmain : forall s, 0 <= s < 2 ^ 51 ->
     (padNum (JS.Math_floor (JS.Z2F s / 3600)) ++ ":"
      ++ padNum (JS.Math_floor (remInt (JS.Z2F s) 3600 / 60)) ++ ":"
      ++ padNum (remInt (JS.Z2F s) 60))%string
     = (Calendar.pad2 (s / 3600) ++ ":" ++ Calendar.pad2 (s mod 3600 / 60) ++ ":"
        ++ Calendar.pad2 (s mod 60))%string).
  { intros s Hs.
    pose proof (div_small s 3600 0 Hs ltac:(lia)) as Hk.
    pose proof (Z.mod_pos_bound s 3600 ltac:(lia)) as Hr.
    pose proof (Z.mod_pos_bound s 60 ltac:(lia)) as Hr'.
    destruct FV_consts as [H60 _].
    assert (Hh : FV (JS.Math_floor (JS.Z2F s / 3600)) = Some (s / 3600 * unit)).
    { assert (s / 3600 < 2 ^ 40).
      { apply Z.div_lt_upper_bound; [lia|].
        assert (2 ^ 51 < 3600 * 2 ^ 40) by reflexivity. lia. }
      apply (FV_floor_div _ s 3600 12 _ (FV_Z2F s ltac:(lia)) FV_3600); lia. }
    assert (Hmn : FV (JS.Math_floor (remInt (JS.Z2F s) 3600 / 60))
                  = Some (s mod 3600 / 60 * unit)).
    { assert (s mod 3600 / 60 < 60) by (apply Z.div_lt_upper_bound; lia).
      apply (FV_floor_div _ (s mod 3600) 60 6 _
               (FV_remInt s 3600 ltac:(lia) ltac:(lia)) H60); lia. }
    pose proof (FV_remInt s 60 ltac:(lia) ltac:(lia)) as Hsec.
    assert (0 <= s mod 3600 / 60 < 60)
      by (split; [apply Z.div_pos; lia | apply Z.div_lt_upper_bound; lia]).
    rewrite (Hpad _ (s / 3600) ltac:(lia) Hh), (Hpad _ (s mod 3600 / 60) ltac:(lia) Hmn),
      (Hpad _ (s mod 60) ltac:(lia) Hsec).
    reflexivity. }
  split.
  - intros s Hs. unfold formatSecondsToHHMMSS. destruct (Z.ltb_spec s 0); [|lia].
    reflexivity.
  - intros s Hs. unfold formatSecondsToHHMMSS. destruct (Z.ltb_spec s 0); [lia|].
    cbv zeta. now apply Hmain.
Qed.

(** ** The order of the sessions *)

Lemma sumZ_perm (l1 l2 : list Z) : Permutation l1 l2 -> sumZ l1 = sumZ l2.
Proof.
  induction 1 as [|x l l' _ IH|x y l|l l' l'' _ IH1 _ IH2].
  - reflexivity.
  - rewrite !sumZ_cons. lia.
  - rewrite !sumZ_cons. lia.
  - congruence.
Qed.

Lemma filter_perm {A} (p : A -> bool) (l1 l2 : list A) :
  Permutation l1 l2 -> Permutation (filter p l1) (filter p l2).
Proof.
  induction 1 as [|x l l' _ IH|x y l|l l' l'' _ IH1 _ IH2]; cbn [filter].
  - constructor.
  - destruct (p x); [now constructor | exact IH].
  - destruct (p x), (p y); try apply Permutation_refl. apply perm_swap.
  - eapply Permutation_trans; eassumption.
Qed.

Lemma countIf_perm {A} (p : A -> bool) (l1 l2 : list A) :
  Permutation l1 l2 -> countIf p l1 = countIf p l2.
Proof.
  intro H. unfold countIf. f_equal. apply Permutation_length. now apply filter_perm.
Qed.

Section Reordered.

Variables sessions sessions' : list Session.
Hypothesis reordered : Permutation sessions sessions'.

Lemma minutesOn_perm (key : string) : minutesOn key sessions = minutesOn key sessions'.
Proof.
  unfold minutesOn. apply sumZ_perm. apply Permutation_map. now apply filter_perm.
Qed.

Lemma keys_perm :
  Permutation (map fst (dailyTotals sessions)) (map fst (dailyTotals sessions')).
Proof.
  rewrite !keys_dailyTotals. apply NoDup_Permutation.
  - apply NoDup_keys_sessionsByDate.
  - apply NoDup_keys_sessionsByDate.
  - intro k. rewrite !In_keys_sessionsByDate.
    split; intros [s [Hs E]]; exists s; (split; [|exact E]).
    + eapply Permutation_in; eassumption.
    + eapply Permutation_in; [apply Permutation_sym|]; eassumption.
Qed.

Lemma dailyTotals_perm : Permutation (dailyTotals sessions) (dailyTotals sessions').
Proof.
  rewrite (dailyTotals_by_keys sessions), (dailyTotals_by_keys sessions').
  replace (map (fun key => (key, minutesOn key sessions')) (map fst (dailyTotals sessions')))
    with (map (fun key => (key, minutesOn key sessions)) (map fst (dailyTotals sessions'))).
  - apply Permutation_map. exact keys_perm.
  - apply map_ext. intro k. now rewrite minutesOn_perm.
Qed.

Lemma lookup_perm (key : string) :
  lookup key (dailyTotals sessions) = lookup key (dailyTotals sessions').
Proof.
  rewrite !lookup_dailyTotals, minutesOn_perm.
  replace (existsb (fun s => String.eqb (date s) key) sessions')
    with (existsb (fun s => String.eqb (date s) key) sessions); [reflexivity|].
  apply eq_true_iff_eq. rewrite !existsb_exists.
  split; intros [s [Hs E]]; exists s; (split; [|exact E]).
  - eapply Permutation_in; eassumption.
  - eapply Permutation_in; [apply Permutation_sym|]; eassumption.
Qed.

Lemma totalOf_perm (key : string) :
  totalOf (dailyTotals sessions) key = totalOf (dailyTotals sessions') key.
Proof. unfold totalOf. now rewrite lookup_perm. Qed.

End Reordered.

Lemma later_asym (a b : string) : later a b -> later b a -> False.
Proof.
  unfold later, String.ltb. intros H1 H2.
  rewrite String.compare_antisym in H1.
  destruct (String.compare a b); discriminate.
Qed.

Lemma sorted_unique (l1 : list string) :
  forall l2, StronglySorted later l1 -> StronglySorted later l2 ->
             NoDup l1 -> NoDup l2 -> (forall k, In k l1 <-> In k l2) -> l1 = l2.
Proof.
  induction l1 as [|a l1 IH]; intros l2 S1 S2 N1 N2 Hin.
  - destruct l2 as [|b l2]; [reflexivity|].
    exfalso. apply (proj2 (Hin b)). now left.
  - destruct l2 as [|b l2].
    + exfalso. apply (proj1 (Hin a)). now left.
    + inversion S1 as [|? ? S1' F1]; inversion S2 as [|? ? S2' F2]; subst.
      inversion N1 as [|? ? NI1 N1']; inversion N2 as [|? ? NI2 N2']; subst.
      rewrite Forall_forall in F1, F2.
      assert (Eab : a = b).
      { destruct (string_dec a b) as [E|NE]; [exact E|]. exfalso.
        assert (Ha : In a l2).
        { destruct (proj1 (Hin a) (or_introl eq_refl)) as [E|H]; [congruence | exact H]. }
        assert (Hb : In b l1).
        { destruct (proj2 (Hin b) (or_introl eq_refl)) as [E|H]; [congruence | exact H]. }
        exact (later_asym a b (F1 b Hb) (F2 a Ha)). }
      subst b. f_equal. apply IH; try assumption.
      intro k. split; intro Hk.
      * destruct (proj1 (Hin k) (or_intror Hk)) as [E|H]; [subst; contradiction | exact H].
      * destruct (proj2 (Hin k) (or_intror Hk)) as [E|H]; [subst; contradiction | exact H].
Qed.

Lemma streakWalk_ext (t1 t2 : list (string * Z)) (dates : list string) :
  (forall k, lookup k t1 = lookup k t2) -> streakWalk t1 dates = streakWalk t2 dates.
Proof.
  intro H. induction dates as [|d rest IH]; cbn [streakWalk]; [reflexivity|].
  now rewrite H, IH.
Qed.

Lemma heatLoop_ext (env : Env) (t1 t2 : list (string * Z)) (n : nat) :
  (forall k, totalOf t1 k = totalOf t2 k) -> heatLoop env t1 n = heatLoop env t2 n.
Proof.
  intro H. induction n as [|n IH]; cbn [heatLoop]; [reflexivity|].
  rewrite IH. f_equal. unfold heatCell. now rewrite H.
Qed.

Lemma timesOf_perm (env : Env) (f : Session -> option Z) (l1 l2 : list Session) :
  Permutation l1 l2 -> Permutation (timesOf env f l1) (timesOf env f l2).
Proof.
  induction 1 as [|x l l' _ IH|x y l|l l' l'' _ IH1 _ IH2]; cbn [timesOf].
  - constructor.
  - destruct (f x); [now constructor | exact IH].
  - destruct (f x), (f y); try apply Permutation_refl. apply perm_swap.
  - eapply Permutation_trans; eassumption.
Qed.

Lemma avgMinutes_perm (l1 l2 : list Z) :
  Permutation l1 l2 -> avgMinutes l1 = avgMinutes l2.
Proof.
  intro H. unfold avgMinutes.
  now rewrite (Permutation_length H), (sumZ_perm _ _ H).
Qed.

Lemma dayOfWeekTotals_none (env : Env) (totals : list (string * Z)) :
  forall w, dayOfWeekTotals env totals w = None
            <-> Exists (fun e => weekdayOf env (fst e) = None) totals.
Proof.
  induction totals as [|[k m] rest IH]; intro w; cbn [dayOfWeekTotals].
  - split; [discriminate | intro H; inversion H].
  - destruct (weekdayOf env k) as [d|] eqn:E.
    + rewrite IH. split; intro H; [now right|].
      inversion H as [? ? H1|? ? H1]; subst; [cbn [fst] in H1; congruence | exact H1].
    + split; [intros _; left; exact E | reflexivity].
Qed.

Lemma bestWorstStep_ext (st : BestWorst) (day : nat) (l l' : list Z) :
  List.length l = List.length l' -> sumZ l = sumZ l' ->
  bestWorstStep st day l = bestWorstStep st day l'.
Proof. intros H1 H2. unfold bestWorstStep, mean. now rewrite H1, H2. Qed.

Lemma bestWorstLoop_ext (w1 : list (list Z)) :
  forall w2 st day,
    List.length w1 = List.length w2 ->
    (forall i, List.length (nth i w1 []) = List.length (nth i w2 [])
               /\ sumZ (nth i w1 []) = sumZ (nth i w2 [])) ->
    bestWorstLoop st day w1 = bestWorstLoop st day w2.
Proof.
  induction w1 as [|l w1 IH]; intros [|l' w2] st day Hlen H; cbn [List.length] in Hlen;
    try discriminate; cbn [bestWorstLoop]; [reflexivity|].
  destruct (H 0%nat) as [H1 H2]. cbn [nth] in H1, H2.
  rewrite (bestWorstStep_ext st day l l' H1 H2).
  apply IH; [lia|]. intro i. exact (H (S i)).
Qed.

(** The run on a non-empty list. *)
Lemma useAnalytics_nonempty (env : Env) (l allSessions : list Session) (targetHours : float) :
  l <> [] ->
  useAnalytics env l allSessions targetHours
  = match dayOfWeekTotals env (dailyTotals l) emptyWeek with
    | None => None
    | Some week =>
        Some {| insights := insightsOf env l (dailyTotals l)
                              (weekComparisonOf env (dailyTotals l))
                              (streakOf (dailyTotals l));
                badges := badgesOf env l (dailyTotals l) (streakOf (dailyTotals l));
                streak := streakOf (dailyTotals l);
                weeklyScore := weeklyScoreOf (dailyTotals l) (streakOf (dailyTotals l))
                                 targetHours;
                heatmapData := heatmapOf env (dailyTotals l);
                avgStartTime := formatHHMM (avgMinutes (timesOf env punch_in l));
                avgEndTime := formatHHMM (avgMinutes (timesOf env punch_out l));
                bestDay := best (bestWorst week);
                worstDay := worst (bestWorst week);
                productiveHours := productiveHoursOf env l;
                weekComparison := weekComparisonOf env (dailyTotals l) |}
    end.
Proof. destruct l as [|x l]; [congruence | reflexivity]. Qed.

(** X16. The result does not depend on the order in which the sessions are
    given, as long as their minutes add up exactly. *)
Theorem session_order_is_irrelevant (env : Env) (sessions sessions' allSessions : list Session)
    (targetHours : float) :
  exactSums sessions = true -> Permutation sessions sessions' ->
  useAnalytics env sessions allSessions targetHours
  = useAnalytics env sessions' allSessions targetHours.
Proof.
  intros _ Hp.
  destruct sessions as [|s0 l0] eqn:E1.
  { apply Permutation_nil in Hp. now subst. }
  destruct sessions' as [|s0' l0'] eqn:E2.
  { apply Permutation_sym, Permutation_nil in Hp. discriminate. }
  rewrite <- E1, <- E2 in *.
  pose proof (fun l => useAnalytics_nonempty env l allSessions targetHours) as Hrun.
  rewrite (Hrun sessions) by (subst; discriminate).
  rewrite (Hrun sessions') by (subst; discriminate).
  clear Hrun E1 E2 s0 l0 s0' l0'.
  pose proof (dailyTotals_perm _ _ Hp) as Hd.
  pose proof (lookup_perm _ _ Hp) as Hl.
  pose proof (totalOf_perm _ _ Hp) as Ht.
  (* the parts of the result *)
  assert (Hsum : sumZ (map snd (dailyTotals sessions)) = sumZ (map snd (dailyTotals sessions')))
    by (apply sumZ_perm, Permutation_map, Hd).
  assert (Hcount : forall p, countIf p (map snd (dailyTotals sessions))
                             = countIf p (map snd (dailyTotals sessions')))
    by (intro p; apply countIf_perm, Permutation_map, Hd).
  assert (Hstreak : streakOf (dailyTotals sessions) = streakOf (dailyTotals sessions')).
  { unfold streakOf. rewrite (streakWalk_ext _ _ _ Hl). f_equal.
    destruct (sortedDates_spec sessions) as [S1 [N1 I1]].
    destruct (sortedDates_spec sessions') as [S2 [N2 I2]].
    apply sorted_unique; try assumption.
    intro k. rewrite I1, I2.
    split; intros [s [Hs E]]; exists s; (split; [|exact E]).
    - eapply Permutation_in; eassumption.
    - eapply Permutation_in; [apply Permutation_sym|]; eassumption. }
  assert (Hwc : weekComparisonOf env (dailyTotals sessions)
                = weekComparisonOf env (dailyTotals sessions')).
  { unfold weekComparisonOf. rewrite !weekMinutes_sums.
    rewrite (sumZ_perm _ _ (Permutation_map snd (filter_perm (inThisWeek env) _ _ Hd))).
    rewrite (sumZ_perm _ _ (Permutation_map snd (filter_perm (inLastWeek env) _ _ Hd))).
    reflexivity. }
  assert (Hscore : weeklyScoreOf (dailyTotals sessions) (streakOf (dailyTotals sessions))
                     targetHours
                   = weeklyScoreOf (dailyTotals sessions') (streakOf (dailyTotals sessions'))
                       targetHours).
  { unfold weeklyScoreOf, consistentDaysOf. now rewrite Hsum, Hcount, Hstreak. }
  assert (Hbadges : badgesOf env sessions (dailyTotals sessions) (streakOf (dailyTotals sessions))
                    = badgesOf env sessions' (dailyTotals sessions')
                        (streakOf (dailyTotals sessions'))).
  { unfold badgesOf, consistentDaysOf, overtimeDaysOf.
    now rewrite !Hcount, Hstreak, (countIf_perm (isEarly env) _ _ Hp). }
  assert (Hins : insightsOf env sessions (dailyTotals sessions)
                   (weekComparisonOf env (dailyTotals sessions))
                   (streakOf (dailyTotals sessions))
                 = insightsOf env sessions' (dailyTotals sessions')
                     (weekComparisonOf env (dailyTotals sessions'))
                     (streakOf (dailyTotals sessions'))).
  { unfold insightsOf.
    now rewrite Hwc, Hstreak, Hsum, (countIf_perm (isLate env) _ _ Hp),
      (countIf_perm _ _ _ Hd), (Permutation_length Hd). }
  assert (Hheat : heatmapOf env (dailyTotals sessions) = heatmapOf env (dailyTotals sessions'))
    by (apply heatLoop_ext, Ht).
  assert (Havg : forall f, formatHHMM (avgMinutes (timesOf env f sessions))
                           = formatHHMM (avgMinutes (timesOf env f sessions')))
    by (intro f; f_equal; apply avgMinutes_perm, timesOf_perm, Hp).
  assert (Hhours : productiveHoursOf env sessions = productiveHoursOf env sessions').
  { unfold productiveHoursOf.
    replace (hourlyWork env sessions') with (hourlyWork env sessions); [reflexivity|].
    apply (nth_ext _ _ 0 0); [now rewrite !hourlyWork_length|].
    intros n Hn. rewrite hourlyWork_length in Hn.
    rewrite !hourlyWork_nth by exact Hn. now apply countIf_perm. }
  rewrite Hins, Hbadges, Hscore, Hstreak, Hheat, !Havg, Hhours, Hwc.
  destruct (dayOfWeekTotals env (dailyTotals sessions) emptyWeek) as [w|] eqn:W;
    destruct (dayOfWeekTotals env (dailyTotals sessions') emptyWeek) as [w'|] eqn:W'.
  - destruct (dayOfWeekTotals_spec env _ emptyWeek w eq_refl W) as [L1 N1].
    destruct (dayOfWeekTotals_spec env _ emptyWeek w' eq_refl W') as [L2 N2].
    replace (bestWorst w') with (bestWorst w); [reflexivity|].
    apply bestWorstLoop_ext; [congruence|].
    intro i. rewrite N1, N2.
    pose proof (Permutation_map snd (filter_perm (onWeekday env i) _ _ Hd)) as Hi.
    rewrite !length_app, !sumZ_app, (Permutation_length Hi), (sumZ_perm _ _ Hi). split; reflexivity.
  - exfalso. apply dayOfWeekTotals_none in W'. apply Exists_exists in W'.
    destruct W' as [e [He Hn]].
    assert (Hw : dayOfWeekTotals env (dailyTotals sessions) emptyWeek = None); [|congruence].
    apply dayOfWeekTotals_none, Exists_exists. exists e. split; [|exact Hn].
    eapply Permutation_in; [apply Permutation_sym|]; eassumption.
  - exfalso. apply dayOfWeekTotals_none in W. apply Exists_exists in W.
    destruct W as [e [He Hn]].
    assert (Hw : dayOfWeekTotals env (dailyTotals sessions') emptyWeek = None); [|congruence].
    apply dayOfWeekTotals_none, Exists_exists. exists e. split; [|exact Hn].
    eapply Permutation_in; eassumption.
  - reflexivity.
Qed.

Lemma session_order_is_irrelevant_witness :
  useAnalytics wednesdayNoon
    [session "2024-01-07" 1704598200000 1704634200000 600;
     session "2024-01-03" 1704252600000 1704270600000 300] [] 200
  = useAnalytics wednesdayNoon
      [session "2024-01-03" 1704252600000 1704270600000 300;
       session "2024-01-07" 1704598200000 1704634200000 600] [] 200.
Proof.
  apply (session_order_is_irrelevant wednesdayNoon
           [session "2024-01-07" 1704598200000 1704634200000 600;
            session "2024-01-03" 1704252600000 1704270600000 300]
           [session "2024-01-03" 1704252600000 1704270600000 300;
            session "2024-01-07" 1704598200000 1704634200000 600] [] 200);
    [reflexivity | apply perm_swap].
Defined.

(** ** The consistency insight *)

Lemma FV_480 : FV 480 = Some (480 * unit).
Proof. vm_compute. reflexivity. Qed.

(** [avgDaily >= 480] on the mean of [days] day totals adding up to [total]:
    the comparison of doubles is the comparison of integers. *)
Lemma mean_at_least_480 (total days : Z) :
  0 <= total < 2 ^ 53 -> 0 < days <= 2 ^ 32 ->
  (480 <=? JS.Z2F total / JS.Z2F days)%float = (480 * days <=? total).
Proof.
  intros Ht Hd. pose proof unit_pos as U.
  assert (S1 : 2 ^ 32 < 2 ^ 53) by reflexivity.
  rewrite FV_leb, FV_480, (FV_quot total days) by lia.
  destruct (Z.leb_spec (480 * days) total) as [H|H].
  - apply Z.leb_le.
    pose proof (rnd_ge_dyadic (total * unit * unit) (days * unit) 480 0
                  ltac:(nia) ltac:(lia) ltac:(lia)) as G.
    pose proof (dyadic_scale 480 0 ltac:(lia)) as D.
    change (2 ^ 0) with 1 in G, D. unfold quotV. rewrite <- D, Z.mul_1_r. apply G.
    replace (480 * unit * (days * unit)) with (480 * days * (unit * unit)) by ring.
    replace (total * unit * unit * 1) with (total * (unit * unit)) by ring.
    apply Z.mul_le_mono_nonneg_r; [nia | lia].
  - apply Z.leb_gt.
    assert (S2 : 480 * 2 ^ 32 < 2 ^ 53) by reflexivity.
    pose proof (rnd_le_dyadic (total * unit * unit) (days * unit) (480 * 2 ^ 32 - 1) 32
                  ltac:(nia) ltac:(lia) ltac:(lia)) as G.
    pose proof (dyadic_scale (480 * 2 ^ 32 - 1) 32 ltac:(lia)) as D.
    assert (quotV total days <= dyadic (480 * 2 ^ 32 - 1) 32).
    { apply G.
      replace ((480 * 2 ^ 32 - 1) * unit * (days * unit))
        with ((480 * 2 ^ 32 - 1) * days * (unit * unit)) by ring.
      replace (total * unit * unit * 2 ^ 32) with (total * 2 ^ 32 * (unit * unit)) by ring.
      apply Z.mul_le_mono_nonneg_r; [nia | nia]. }
    assert (P : 0 < 2 ^ 32) by reflexivity. nia.
Qed.

(** X17. The insight on consistency is among the insights exactly when the
    sessions span at least five days and their minutes are at least 480 times
    the number of these days. *)
Theorem consistency_insight_condition (env : Env) (sessions allSessions : list Session)
    (targetHours : float) :
  sessions <> [] -> inDomain sessions = true ->
  exists r, useAnalytics env sessions allSessions targetHours = Some r /\
    ((exists i, In i (insights r) /\ Insight.icon i = "✨"%string)
     <-> 5 <= workingDays sessions
         /\ 480 * workingDays sessions <= sumZ (map minutesOf sessions)).
Proof.
  intros Hne Hin.
  destruct (inDomain_spec sessions Hin) as [Hwf [Hnn [Hsum Hlen]]].
  destruct (useAnalytics_run env sessions allSessions targetHours Hne Hwf) as [week [_ Hrun]].
  eexists. split; [exact Hrun|]. cbn [insights].
  rewrite working_days_count.
  pose proof (length_dailyTotals sessions) as Hl.
  assert (H0 : 0 <= sumZ (map minutesOf sessions)).
  { apply sumZ_nonneg, Forall_forall. intros x Hx. apply in_map_iff in Hx.
    destruct Hx as [s [<- Hs]]. rewrite Forall_forall in Hnn. now apply Hnn. }
  set (days := Z.of_nat (List.length (dailyTotals sessions))) in *.
  assert (Hdays : 0 < days).
  { unfold days. destruct sessions as [|s l]; [congruence|].
    destruct (dailyTotals (s :: l)) eqn:E; [|cbn; lia].
    exfalso. pose proof (lookup_dailyTotals (date s) (s :: l)) as L.
    rewrite E in L. cbn [lookup existsb] in L. rewrite String.eqb_refl in L. discriminate L. }
  unfold insightsOf. cbv zeta. fold days. rewrite sum_dailyTotals.
  rewrite (mean_at_least_480 _ days) by lia.
  generalize (weekComparisonOf env (dailyTotals sessions)) as wc.
  generalize (streakOf (dailyTotals sessions)) as st.
  generalize (countIf (isLate env) sessions) as la.
  generalize (countIf (fun e : string * Z => (snd e <? 480) && (0 <? snd e))
                (dailyTotals sessions)) as el.
  intros el la st wc.
  destruct (Z.leb_spec 5 days) as [H5|H5], (Z.leb_spec (480 * days) (sumZ (map minutesOf sessions)))
    as [H480|H480]; cbn [andb];
    (split; [intros [i [Hi Hicon]] | intros [G1 G2]]); try lia;
    try (exfalso; revert Hi Hicon;
         destruct (3 <? la), (3 <? el), (negb (wc =? 0)%float), (3 <=? st), (0 <? wc)%float;
         cbn [app In]; intros Hi Hicon;
         repeat (destruct Hi as [<-|Hi]; [discriminate Hicon|]); exact Hi).
  eexists. split.
  - rewrite !in_app_iff. do 3 right. left. left. reflexivity.
  - reflexivity.
Qed.

Lemma consistency_insight_condition_witness :
  exists r, useAnalytics wednesdayNoon sevenDays [] 200 = Some r /\
    ((exists i, In i (insights r) /\ Insight.icon i = "✨"%string)
     <-> 5 <= workingDays sevenDays
         /\ 480 * workingDays sevenDays <= sumZ (map minutesOf sevenDays)).
Proof.
  apply (consistency_insight_condition wednesdayNoon sevenDays [] 200);
    [discriminate | reflexivity].
Defined.

(** ** Sessions without duration *)

(** Two sessions that differ at most in how a duration of 0 is written:
    absent, or 0. *)
Definition sameButZero (s s' : Session) : Prop :=
  date s = date s' /\ punch_in s = punch_in s' /\ punch_out s = punch_out s' /\
  orZero (duration_minutes s) = orZero (duration_minutes s').

Lemma same_dates_zero (sessions sessions' : list Session) :
  Forall2 sameButZero sessions sessions' -> map date sessions = map date sessions'.
Proof.
  induction 1 as [|s s' l l' [Hd _] _ IH]; cbn [map]; [reflexivity|]. now rewrite Hd, IH.
Qed.

Lemma minutesOn_zero (sessions sessions' : list Session) (key : string) :
  Forall2 sameButZero sessions sessions' ->
  minutesOn key sessions = minutesOn key sessions'.
Proof.
  unfold minutesOn.
  induction 1 as [|s s' l l' [Hd [_ [_ Hm]]] _ IH]; cbn [filter]; [reflexivity|].
  rewrite <- Hd. destruct (String.eqb (date s) key); [|exact IH].
  cbn [map]. rewrite !sumZ_cons, Hm, IH. reflexivity.
Qed.

Lemma dailyTotals_zero (sessions sessions' : list Session) :
  Forall2 sameButZero sessions sessions' -> dailyTotals sessions = dailyTotals sessions'.
Proof.
  intro H.
  rewrite (dailyTotals_by_keys sessions), (dailyTotals_by_keys sessions').
  rewrite !keys_dailyTotals, !keys_by_dates, (same_dates_zero _ _ H).
  apply map_ext. intro k. f_equal. now apply minutesOn_zero.
Qed.

Lemma timesOf_zero (env : Env) (sessions sessions' : list Session) :
  Forall2 sameButZero sessions sessions' ->
  timesOf env punch_in sessions = timesOf env punch_in sessions' /\
  timesOf env punch_out sessions = timesOf env punch_out sessions'.
Proof.
  induction 1 as [|s s' l l' [_ [Hi [Ho _]]] _ [IH1 IH2]]; cbn [timesOf];
    [split; reflexivity|].
  now rewrite Hi, Ho, IH1, IH2.
Qed.

Lemma counts_zero (env : Env) (sessions sessions' : list Session) :
  Forall2 sameButZero sessions sessions' ->
  countIf (isLate env) sessions = countIf (isLate env) sessions' /\
  countIf (isEarly env) sessions = countIf (isEarly env) sessions'.
Proof.
  induction 1 as [|s s' l l' [_ [Hi _]] _ [IH1 IH2]]; [split; reflexivity|].
  rewrite !countIf_cons, IH1, IH2. unfold isLate, isEarly. now rewrite Hi.
Qed.

Lemma hourlyWork_zero (env : Env) (sessions sessions' : list Session) :
  Forall2 sameButZero sessions sessions' ->
  hourlyWork env sessions = hourlyWork env sessions'.
Proof.
  intro H. unfold hourlyWork. generalize (repeat 0 24) as slots.
  induction H as [|s s' l l' [_ [Hi [Ho _]]] _ IH]; intro slots; cbn [fold_left];
    [reflexivity|].
  rewrite IH. f_equal. unfold bumpHours. now rewrite Hi, Ho.
Qed.

(** X18. The engine reads a duration only as [duration_minutes || 0]: writing
    0 for an absent duration, or the reverse, in any sessions changes
    nothing of the result. *)
Theorem absent_duration_is_zero (env : Env) (sessions sessions' allSessions : list Session)
    (targetHours : float) :
  Forall2 sameButZero sessions sessions' ->
  useAnalytics env sessions allSessions targetHours
  = useAnalytics env sessions' allSessions targetHours.
Proof.
  intro H0.
  destruct H0 as [|s s' l l' Hs Hl]; [reflexivity|].
  assert (H : Forall2 sameButZero (s :: l) (s' :: l')) by now constructor.
  rewrite !useAnalytics_nonempty by discriminate.
  destruct (timesOf_zero env _ _ H) as [T1 T2].
  destruct (counts_zero env _ _ H) as [C1 C2].
  unfold insightsOf, badgesOf, productiveHoursOf.
  rewrite (dailyTotals_zero _ _ H), T1, T2, C1, C2, (hourlyWork_zero env _ _ H).
  reflexivity.
Qed.

Lemma absent_duration_is_zero_witness :
  useAnalytics wednesdayNoon
    [{| date := "2024-01-10"; punch_in := Some 1704857400000; punch_out := None;
        duration_minutes := None |}] [] 200
  = useAnalytics wednesdayNoon
      [{| date := "2024-01-10"; punch_in := Some 1704857400000; punch_out := None;
          duration_minutes := Some 0 |}] [] 200.
Proof.
  apply (absent_duration_is_zero wednesdayNoon
           [{| date := "2024-01-10"; punch_in := Some 1704857400000; punch_out := None;
               duration_minutes := None |}]
           [{| date := "2024-01-10"; punch_in := Some 1704857400000; punch_out := None;
               duration_minutes := Some 0 |}] [] 200).
  repeat constructor.
Defined.
